(** * Heavy-metal compass: validation, pollution indices, classification
      and the quality distribution

    A shallow embedding of the decision logic of
    - [src/components/DataUpload.tsx]           ([validateData], the state of
      the component and its handlers),
    - [src/components/CalculationEngine.tsx]    ([calculateHPI], [calculatePLI],
      [calculateCF], [categorizeWaterQuality], [performCalculations], the
      selection of indices),
    - [src/components/ResultsVisualization.tsx] ([processedSamples],
      [qualityDistribution], [statisticsData], the key pollutants),
    - [src/components/GeospatialMap.tsx]        ([qualityStats], the hotspots
      and the markers),
    - [src/components/Dashboard.tsx]            (the [WaterSample] interface,
      the state of the dashboard and its handlers).

    JavaScript numbers are IEEE 754 binary64 values; they are embedded as
    Rocq's primitive [float]s, whose operations are the binary64 ones
    (round to nearest, ties to even, a single NaN).  JavaScript strings are
    embedded as [string]s; only ASCII white space is recognised by
    [parseFloat].  Parsed CSV rows are objects with string values, embedded
    as [gmap string string]. *)

From Stdlib Require Import ZArith List String Ascii Bool Lia Floats.
From Stdlib Require Import DecimalNat DecimalString.
From Stdlib Require Import Reals Lra.
From Stdlib Require Uint63.
From stdpp Require Import gmap strings list fin_maps.

Set Warnings "-inexact-float".
Local Open Scope string_scope.

(** ** The JavaScript runtime: numbers *)

Module JS.

Definition number := float.
Bind Scope float_scope with number.

Definition NaN : number := PrimFloat.nan.
Definition Infinity : number := PrimFloat.infinity.

(** [isNaN(x)] for a number [x]. *)
Definition isNaN (x : number) : bool := PrimFloat.is_nan x.

(** [x < y], [x > y], [x > 0] on numbers: false when an operand is NaN. *)
Definition lt (x y : number) : bool := PrimFloat.ltb x y.
Definition gt (x y : number) : bool := PrimFloat.ltb y x.

(** [ToBoolean] on a number: false for [+0], [-0] and NaN. *)
Definition truthy (x : number) : bool :=
  negb (PrimFloat.is_zero x || PrimFloat.is_nan x).

(** [ToBoolean] on a string: false for the empty string only. *)
Definition truthy_string (s : string) : bool :=
  match s with EmptyString => false | String _ _ => true end.

(** The number whose value is the integer [n] (exact below [2^53]); array
    lengths and counters are such numbers. *)
Definition of_nat (n : nat) : number :=
  PrimFloat.of_uint63 (Uint63.of_Z (Z.of_nat n)).

(** Decimal rendering of a non-negative integer, as in a template literal. *)
Definition string_of_nat (n : nat) : string :=
  NilZero.string_of_uint (Nat.to_uint n).

(** *** [parseFloat] *)

Definition is_white (c : ascii) : bool :=
  let n := nat_of_ascii c in
  ((9 <=? n)%nat && (n <=? 13)%nat) || (n =? 32)%nat.

Definition is_digit (c : ascii) : bool :=
  let n := nat_of_ascii c in (48 <=? n)%nat && (n <=? 57)%nat.

Definition digit_value (c : ascii) : Z := Z.of_nat (nat_of_ascii c - 48).

Fixpoint trim_start (s : string) : string :=
  match s with
  | String c r => if is_white c then trim_start r else s
  | EmptyString => s
  end.

(** [read_digits s acc n]: the longest run of decimal digits at the head of
    [s], folded into [acc]; returns the value, the number of digits read
    added to [n], and the rest of [s]. *)
Fixpoint read_digits (s : string) (acc : Z) (n : nat) : Z * nat * string :=
  match s with
  | String c r =>
      if is_digit c then read_digits r (10 * acc + digit_value c)%Z (S n)
      else (acc, n, s)
  | EmptyString => (acc, n, s)
  end.

Fixpoint starts_with (p s : string) : bool :=
  match p, s with
  | EmptyString, _ => true
  | String a p', String b s' => Ascii.eqb a b && starts_with p' s'
  | String _ _, EmptyString => false
  end.

(** [ExponentPart]: [e] or [E], an optional sign and at least one digit;
    [0] when the text at hand is not an exponent part. *)
Definition read_exponent (s : string) : Z :=
  match s with
  | String c r =>
      if Ascii.eqb c "e" || Ascii.eqb c "E" then
        let '(neg, r') :=
          match r with
          | String "+" t => (false, t)
          | String "-" t => (true, t)
          | _ => (false, r)
          end in
        let '(v, n, _) := read_digits r' 0%Z 0%nat in
        match n with
        | O => 0%Z
        | S _ => if neg then (- v)%Z else v
        end
      else 0%Z
  | EmptyString => 0%Z
  end.

(** The binary64 value nearest to [(-1)^neg * m * 10^e] (ties to even). *)
Definition decimal_to_SF (neg : bool) (m e : Z) : spec_float :=
  match m with
  | Zpos p =>
      match e with
      | Zneg k =>
          SFdiv prec emax (S754_finite neg p 0)
                          (S754_finite false (Pos.pow 10 k) 0)
      | _ =>
          binary_normalize prec emax
            (if neg then (- (Zpos p * 10 ^ e))%Z else (Zpos p * 10 ^ e)%Z)
            0 false
      end
  | _ => S754_zero neg
  end.

(** [parseFloat(s)]: leading white space is skipped, the longest prefix that
    is a [StrDecimalLiteral] is converted, NaN when there is none. *)
Definition parseFloat (s : string) : number :=
  let s1 := trim_start s in
  let '(neg, s2) :=
    match s1 with
    | String "+" t => (false, t)
    | String "-" t => (true, t)
    | _ => (false, s1)
    end in
  if starts_with "Infinity" s2 then
    (if neg then PrimFloat.neg_infinity else PrimFloat.infinity)
  else
    let '(ip, ni, s3) := read_digits s2 0%Z 0%nat in
    let '(m, nf, s4) :=
      match s3 with
      | String "." t =>
          let '(m', n', t') := read_digits t ip 0%nat in
          match ni, n' with
          | O, O => (ip, 0%nat, s3)
          | _, _ => (m', n', t')
          end
      | _ => (ip, 0%nat, s3)
      end in
    match ni, nf with
    | O, O => NaN
    | _, _ => SF2Prim (decimal_to_SF neg m (read_exponent s4 - Z.of_nat nf))
    end.

(** [ToString] of a possibly missing property value, as [parseFloat] applies
    it to its argument: a missing property reads [undefined]. *)
Definition ToString (v : option string) : string :=
  match v with Some s => s | None => "undefined" end.

(** *** Members inherited by plain objects *)

(** The names of the members an object literal inherits from
    [Object.prototype]: eleven functions, and under [__proto__] the
    prototype itself.  A read of such a name on an object that has no own
    property of that name yields the inherited member. *)
Definition Object_prototype : list string :=
  ["constructor"; "__defineGetter__"; "__defineSetter__"; "hasOwnProperty";
   "__lookupGetter__"; "__lookupSetter__"; "isPrototypeOf";
   "propertyIsEnumerable"; "toString"; "valueOf"; "__proto__";
   "toLocaleString"].

Definition inherited (key : string) : bool :=
  existsb (String.eqb key) Object_prototype.

(** *** [Math.pow] *)

(** Whether a number is an integer, and whether it is an odd one. *)
Definition is_integer (y : number) : bool :=
  match Prim2SF y with
  | S754_zero _ => true
  | S754_finite _ m (Zneg k) => (Zpos m mod 2 ^ Zpos k =? 0)%Z
  | S754_finite _ _ _ => true
  | _ => false
  end.

Definition is_odd_integer (y : number) : bool :=
  match Prim2SF y with
  | S754_finite _ m Z0 => Z.odd (Zpos m)
  | S754_finite _ m (Zneg k) =>
      (Zpos m mod 2 ^ Zpos k =? 0)%Z && Z.odd (Zpos m / 2 ^ Zpos k)
  | _ => false
  end.

(** [Math.pow(base, exponent)] is [Number::exponentiate]: the language fixes
    the result when an operand is NaN, zero or infinite and when a negative
    base meets a fractional exponent; everywhere else the result is
    "implementation-approximated", which is the engine's [pow_approx]. *)
Definition Math_pow (pow_approx : number -> number -> number)
    (base exponent : number) : number :=
  if PrimFloat.is_nan exponent then NaN
  else if PrimFloat.is_zero exponent then 1%float
  else if PrimFloat.is_nan base then NaN
  else if PrimFloat.is_infinity base then
    if PrimFloat.ltb 0 base then
      (if PrimFloat.ltb 0 exponent then PrimFloat.infinity else 0%float)
    else if PrimFloat.ltb 0 exponent then
      (if is_odd_integer exponent
       then PrimFloat.neg_infinity else PrimFloat.infinity)
    else (if is_odd_integer exponent then PrimFloat.neg_zero else 0%float)
  else if PrimFloat.is_zero base then
    if PrimFloat.get_sign base then
      if PrimFloat.ltb 0 exponent then
        (if is_odd_integer exponent then PrimFloat.neg_zero else 0%float)
      else (if is_odd_integer exponent
            then PrimFloat.neg_infinity else PrimFloat.infinity)
    else (if PrimFloat.ltb 0 exponent then 0%float else PrimFloat.infinity)
  else if PrimFloat.is_infinity exponent then
    let a := PrimFloat.abs base in
    if PrimFloat.eqb a 1 then NaN
    else if PrimFloat.ltb 0 exponent then
      (if PrimFloat.ltb 1 a then PrimFloat.infinity else 0%float)
    else (if PrimFloat.ltb 1 a then 0%float else PrimFloat.infinity)
  else if PrimFloat.ltb base 0 && negb (is_integer exponent) then NaN
  else pow_approx base exponent.

(** *** [Number.prototype.toFixed] *)

(** For [x = m * 2^e >= 0], the integer [n] for which [n / 10^f - x] is as
    close to zero as possible, the larger one when there are two. *)
Definition fixed_digits (m : positive) (e : Z) (f : nat) : Z :=
  match e with
  | Zneg k => (2 * Zpos m * 10 ^ Z.of_nat f + 2 ^ Zpos k) / (2 * 2 ^ Zpos k)
  | _ => Zpos m * 2 ^ e * 10 ^ Z.of_nat f
  end.

Fixpoint zeros (n : nat) : string :=
  match n with O => "" | S n' => String "0" (zeros n') end.

(** The decimal text of [n >= 0] with the point before its last [f] digits. *)
Definition render_fixed (n : Z) (f : nat) : string :=
  let m := NilZero.string_of_uint (N.to_uint (Z.to_N n)) in
  match f with
  | O => m
  | S _ =>
      let m' := zeros (S f - String.length m) ++ m in
      let k := String.length m' in
      substring 0 (k - f) m' ++ "." ++ substring (k - f) f m'
  end.

(** [Number::toString] for an integer-valued [x = m * 2^e >= 10^21]: the
    shortest digit string that reads back as [x], in exponent form. *)
Definition reads_back (s : Z) (e10 : Z) (m : positive) (e : Z) : bool :=
  match decimal_to_SF false s e10, S754_finite false m e with
  | S754_finite _ m1 e1, S754_finite _ m2 e2 => (Pos.eqb m1 m2 && Z.eqb e1 e2)
  | _, _ => false
  end.

Fixpoint shortest_digits (fuel k : nat) (X : Z) (nd : nat) (m : positive) (e : Z)
  : Z * nat :=
  match fuel with
  | O => (X, nd)
  | S fuel' =>
      let p := (10 ^ Z.of_nat (nd - k))%Z in
      let lo := (X / p)%Z in
      let hi := (lo + 1)%Z in
      let ok_lo := reads_back lo (Z.of_nat (nd - k)) m e in
      let ok_hi := reads_back hi (Z.of_nat (nd - k)) m e in
      let d_lo := (X - lo * p)%Z in
      let d_hi := (hi * p - X)%Z in
      let pick_lo :=
        ok_lo && (negb ok_hi || (d_lo <? d_hi)%Z
                  || ((d_lo =? d_hi)%Z && Z.even lo)) in
      if pick_lo then (lo, k)
      else if ok_hi then (hi, k)
      else shortest_digits fuel' (S k) X nd m e
  end.

Definition exponent_form (m : positive) (e : Z) : string :=
  let X := (Zpos m * 2 ^ e)%Z in
  let nd := String.length (NilZero.string_of_uint (N.to_uint (Z.to_N X))) in
  let '(s, k) := shortest_digits 17 1 X nd m e in
  let '(s', n) :=
    if (s =? 10 ^ Z.of_nat k)%Z then ((s / 10)%Z, S nd) else (s, nd) in
  let d := NilZero.string_of_uint (N.to_uint (Z.to_N s')) in
  match d with
  | String c EmptyString => d
  | String c r => String c ("." ++ r)
  | EmptyString => d
  end ++ "e+" ++ string_of_nat (n - 1).

(** [x.toFixed(f)]. *)
Definition toFixed (x : number) (f : nat) : string :=
  match Prim2SF x with
  | S754_nan => "NaN"
  | S754_infinity s => if s then "-Infinity" else "Infinity"
  | S754_zero _ => render_fixed 0 f
  | S754_finite s m e =>
      (if s then "-" else "") ++
      (if (10 ^ 21 <=? Zpos m * 2 ^ e)%Z
       then exponent_form m e
       else render_fixed (fixed_digits m e f) f)
  end.

End JS.

Import JS.

(** ** Dashboard.tsx: the [WaterSample] interface *)

Inductive QualityCategory :=
  excellent | good | moderate | poor | unsuitable.

Record HmpiResults := {
  hpi : number;
  pli : number;
  cf : number;
  qualityCategory : QualityCategory
}.

(** A metals object, as [Object.entries] enumerates it: the own properties
    in insertion order, each key at most once. *)
Definition MetalPanel := list (string * number).

Record WaterSample := {
  id : string;
  latitude : number;
  longitude : number;
  sampleDate : string;
  metals : MetalPanel;
  hmpiResults : option HmpiResults
}.

(** [o[k] = v] on an object: an existing property keeps its place, a new
    one is added last. *)
Fixpoint set_property (o : MetalPanel) (k : string) (v : number) : MetalPanel :=
  match o with
  | [] => [(k, v)]
  | (k', v') :: o' =>
      if String.eqb k' k then (k', v) :: o' else (k', v') :: set_property o' k v
  end.

(** ** DataUpload.tsx: [validateData] *)

Module DataUpload.

(** A row of [Papa.parse(file, {header: true})]: header name to cell text. *)
Abbreviation Row := (gmap string string).

(** The wall clock: [clock i] is the text of [new Date().toISOString()] at
    the moment row [i] is processed. *)
Definition Clock := nat -> string.

Record Validation := {
  isValid : bool;
  errors : list string;
  samples : list WaterSample
}.

Definition requiredColumns : list string :=
  ["latitude"; "longitude"; "sampleDate";
   "As"; "Cd"; "Cr"; "Cu"; "Fe"; "Mn"; "Ni"; "Pb"; "Zn"].

(** [Array.prototype.join]. *)
Fixpoint join (sep : string) (l : list string) : string :=
  match l with
  | [] => ""
  | [x] => x
  | x :: r => x ++ sep ++ join sep r
  end.

(** [s.split('T')[0]]: the text before the first [T]. *)
Fixpoint split_T_0 (s : string) : string :=
  match s with
  | EmptyString => EmptyString
  | String c r => if Ascii.eqb c "T" then EmptyString else String c (split_T_0 r)
  end.

(** [col in firstRow]. *)
Definition has_column (row : Row) (col : string) : bool :=
  bool_decide (is_Some (row !! col)).

Definition metal_names : list string :=
  ["As"; "Cd"; "Cr"; "Cu"; "Fe"; "Mn"; "Ni"; "Pb"; "Zn"].

(** The template literals of the row diagnostics. *)
Definition invalid_at_row (what : string) (index : nat) : string :=
  "Invalid " ++ what ++ " at row " ++ string_of_nat (index + 1).

(** The callback of [metals.forEach], on the pair ([rowErrors],
    [metalValues]) it updates. *)
Definition check_metal (row : Row) (index : nat)
    (st : list string * MetalPanel) (metal : string) : list string * MetalPanel :=
  let '(rowErrors, metalValues) := st in
  let value := parseFloat (ToString (row !! metal)) in
  if isNaN value || lt value 0%float then
    (app rowErrors [invalid_at_row (metal ++ " concentration") index], metalValues)
  else (rowErrors, set_property metalValues metal value).

Definition coordinate_errors (row : Row) (index : nat) : list string :=
  let lat := parseFloat (ToString (row !! "latitude")) in
  let lng := parseFloat (ToString (row !! "longitude")) in
  app
    (if isNaN lat || lt lat (-90)%float || gt lat 90%float
     then [invalid_at_row "latitude" index] else [])
    (if isNaN lng || lt lng (-180)%float || gt lng 180%float
     then [invalid_at_row "longitude" index] else []).

(** [rowErrors] and [metalValues] once the row's checks have run. *)
Definition check_row (row : Row) (index : nat) : list string * MetalPanel :=
  fold_left (check_metal row index) metal_names (coordinate_errors row index, []).

(** [row.sampleDate || new Date().toISOString().split('T')[0]]. *)
Definition sample_date (clock : Clock) (row : Row) (index : nat) : string :=
  match row !! "sampleDate" with
  | Some s => if truthy_string s then s else split_T_0 (clock index)
  | None => split_T_0 (clock index)
  end.

(** The callback of [data.forEach], on the pair ([errors], [samples]). *)
Definition validate_row (clock : Clock)
    (st : list string * list WaterSample) (row : Row) (index : nat)
  : list string * list WaterSample :=
  let '(errs, smpls) := st in
  let '(rowErrors, metalValues) := check_row row index in
  match rowErrors with
  | [] =>
      (errs,
       app smpls
         [{| id := "sample_" ++ string_of_nat (index + 1);
             latitude := parseFloat (ToString (row !! "latitude"));
             longitude := parseFloat (ToString (row !! "longitude"));
             sampleDate := sample_date clock row index;
             metals := metalValues;
             hmpiResults := None |}])
  | _ :: _ => (app errs rowErrors, smpls)
  end.

(** [data.forEach((row, index) => ...)] from position [index] on. *)
Fixpoint forEach {A St : Type} (f : St -> A -> nat -> St)
    (data : list A) (index : nat) (st : St) : St :=
  match data with
  | [] => st
  | row :: rest => forEach f rest (S index) (f st row index)
  end.

Definition validateData (clock : Clock) (data : list Row) : Validation :=
  match data with
  | [] =>
      {| isValid := false;
         errors := ["No data found in the uploaded file"];
         samples := [] |}
  | firstRow :: _ =>
      let missingColumns :=
        List.filter (fun col => negb (has_column firstRow col)) requiredColumns in
      let errs :=
        match missingColumns with
        | [] => []
        | _ :: _ => ["Missing required columns: " ++ join ", " missingColumns]
        end in
      let '(errs', smpls) := forEach (validate_row clock) data 0 (errs, []) in
      {| isValid := match errs' with [] => true | _ :: _ => false end;
         errors := errs';
         samples := smpls |}
  end.

End DataUpload.

(** ** CalculationEngine.tsx *)

Module CalculationEngine.

Local Open Scope float_scope.

(** WHO/EPA standard values for heavy metals in drinking water (mg/L). *)
Definition WHO_STANDARDS : gmap string number :=
  list_to_map
    [("As", 0.01); ("Cd", 0.003); ("Cr", 0.05); ("Cu", 2.0); ("Fe", 0.3);
     ("Mn", 0.1); ("Ni", 0.07); ("Pb", 0.01); ("Zn", 3.0)].

Definition METAL_WEIGHTS : gmap string number :=
  list_to_map
    [("As", 1.0); ("Cd", 1.0); ("Cr", 1.0); ("Cu", 1.0); ("Fe", 1.0);
     ("Mn", 1.0); ("Ni", 1.0); ("Pb", 1.0); ("Zn", 1.0)].

(** [table[metal]] when it is truthy, as the number it stands for in the
    arithmetic that follows.  An own entry is truthy when it is not zero
    and not NaN.  A name of [Object.prototype] reads the inherited member,
    a function or an object, which is truthy: it converts to NaN in a
    quotient or a product, and added to [totalWeight] it turns the total
    into a text that is no numeral, which compares with 0 as NaN does. *)
Definition truthy_entry (table : gmap string number) (metal : string)
  : option number :=
  match table !! metal with
  | Some v => if truthy v then Some v else None
  | None => if inherited metal then Some NaN else None
  end.

(** The callback of [calculateHPI], on ([weightedSum], [totalWeight]). *)
Definition hpi_step (acc : number * number) (entry : string * number)
  : number * number :=
  let '(weightedSum, totalWeight) := acc in
  let '(metal, concentration) := entry in
  match truthy_entry WHO_STANDARDS metal, truthy_entry METAL_WEIGHTS metal with
  | Some standard, Some weight =>
      let subIndex := (concentration / standard) * 100 in
      (weightedSum + weight * subIndex, totalWeight + weight)
  | _, _ => acc
  end.

Definition calculateHPI (metals : MetalPanel) : number :=
  let '(weightedSum, totalWeight) := fold_left hpi_step metals (0, 0) in
  if gt totalWeight 0 then weightedSum / totalWeight else 0.

(** The callback of [calculatePLI], on ([product], [count]); [count] is an
    integer counter and enters the arithmetic as the number [of_nat count]. *)
Definition pli_step (acc : number * nat) (entry : string * number)
  : number * nat :=
  let '(product, count) := acc in
  let '(metal, concentration) := entry in
  match truthy_entry WHO_STANDARDS metal with
  | Some standard => (product * (concentration / standard), S count)
  | None => acc
  end.

(** The callback of [calculateCF], on ([totalCF], [count]). *)
Definition cf_step (acc : number * nat) (entry : string * number)
  : number * nat :=
  let '(totalCF, count) := acc in
  let '(metal, concentration) := entry in
  match truthy_entry WHO_STANDARDS metal with
  | Some standard => (totalCF + concentration / standard, S count)
  | None => acc
  end.

Definition calculateCF (metals : MetalPanel) : number :=
  let '(totalCF, count) := fold_left cf_step metals (0, O) in
  if gt (of_nat count) 0 then totalCF / of_nat count else 0.

Definition categorizeWaterQuality (hpi pli : number) : QualityCategory :=
  if lt hpi 25 && lt pli 1 then excellent
  else if lt hpi 50 && lt pli 2 then good
  else if lt hpi 75 && lt pli 3 then moderate
  else if lt hpi 100 && lt pli 5 then poor
  else unsuitable.

(** The component state [selectedIndices] and its initial value. *)
Record SelectedIndices := {
  sel_hpi : bool;
  sel_pli : bool;
  sel_cf : bool
}.

Definition initial_selection : SelectedIndices :=
  {| sel_hpi := true; sel_pli := true; sel_cf := false |}.

Section Engine.

(** The engine's approximation of a real power (see [JS.Math_pow]). *)
Variable pow_approx : number -> number -> number.

Definition calculatePLI (metals : MetalPanel) : number :=
  let '(product, count) := fold_left pli_step metals (1, O) in
  if gt (of_nat count) 0 then Math_pow pow_approx product (1 / of_nat count)
  else 0.

(** The results [performCalculations] attaches to one sample. *)
Definition sample_results (selectedIndices : SelectedIndices)
    (sample : WaterSample) : HmpiResults :=
  let hpi := if sel_hpi selectedIndices then calculateHPI (metals sample) else 0 in
  let pli := if sel_pli selectedIndices then calculatePLI (metals sample) else 0 in
  let cf := if sel_cf selectedIndices then calculateCF (metals sample) else 0 in
  {| hpi := hpi; pli := pli; cf := cf;
     qualityCategory := categorizeWaterQuality hpi pli |}.

(** [calculatedSamples]: what [performCalculations] hands to
    [onCalculationComplete]. *)
Definition performCalculations (selectedIndices : SelectedIndices)
    (samples : list WaterSample) : list WaterSample :=
  List.map
    (fun sample =>
       {| id := id sample;
          latitude := latitude sample;
          longitude := longitude sample;
          sampleDate := sampleDate sample;
          metals := metals sample;
          hmpiResults := Some (sample_results selectedIndices sample) |})
    samples.

End Engine.

End CalculationEngine.

(** ** ResultsVisualization.tsx *)

Module ResultsVisualization.

Local Open Scope float_scope.

Definition processedSamples (samples : list WaterSample) : list WaterSample :=
  List.filter (fun s => bool_decide (is_Some (hmpiResults s))) samples.

(** The distribution object of the [reduce]: category to count, the
    categories in the order they were first seen. *)
Definition Distribution := list (QualityCategory * nat).

Definition category_eqb (a b : QualityCategory) : bool :=
  match a, b with
  | excellent, excellent | good, good | moderate, moderate
  | poor, poor | unsuitable, unsuitable => true
  | _, _ => false
  end.

(** [acc[category] = (acc[category] || 0) + 1]. *)
Fixpoint bump (acc : Distribution) (category : QualityCategory) : Distribution :=
  match acc with
  | [] => [(category, 1%nat)]
  | (c, n) :: acc' =>
      if category_eqb c category then (c, S n) :: acc'
      else (c, n) :: bump acc' category
  end.

Definition distribution_step (acc : Distribution) (sample : WaterSample)
  : Distribution :=
  match hmpiResults sample with
  | Some r => bump acc (qualityCategory r)
  | None => acc
  end.

(** The property name of a category, and its capitalised display form. *)
Definition category_name (c : QualityCategory) : string :=
  match c with
  | excellent => "excellent" | good => "good" | moderate => "moderate"
  | poor => "poor" | unsuitable => "unsuitable"
  end.

Definition capitalised (c : QualityCategory) : string :=
  match c with
  | excellent => "Excellent" | good => "Good" | moderate => "Moderate"
  | poor => "Poor" | unsuitable => "Unsuitable"
  end.

Definition QUALITY_COLORS (c : QualityCategory) : string :=
  "hsl(var(--" ++ category_name c ++ "))".

Record DistributionEntry := {
  category : string;
  count : nat;
  percentage : string;
  color : string
}.

(** The number [count / processedSamples.length * 100]. *)
Definition percent (count total : nat) : number :=
  of_nat count / of_nat total * 100.

Definition qualityDistribution (samples : list WaterSample)
  : list DistributionEntry :=
  let processed := processedSamples samples in
  let distribution := fold_left distribution_step processed [] in
  List.map
    (fun '(c, n) =>
       {| category := capitalised c;
          count := n;
          percentage := toFixed (percent n (length processed)) 1;
          color := QUALITY_COLORS c |})
    distribution.

End ResultsVisualization.

(** ** The value of binary64 numbers *)

Module Rounding.

Local Open Scope Z_scope.

(** [2^e] as a real number. *)
Definition bpow (e : Z) : R := powerRZ 2 e.

(** The value [m * 2^e] of a positive finite number. *)
Definition SFval (m : positive) (e : Z) : R := (IZR (Zpos m) * bpow e)%R.

(** [f] is zero or finite, of sign [s] and exponent at most [E], and its
    magnitude is within [err] of [v]. *)
Definition near (f : spec_float) (s : bool) (v err : R) (E : Z) : Prop :=
  match f with
  | S754_zero s' => s' = s /\ (Rabs v <= err)%R
  | S754_finite s' m e =>
      s' = s /\ e <= E /\ (Rabs (IZR (Zpos m) * bpow e - v) <= err)%R
  | _ => False
  end.

End Rounding.

(** ** Specification-side definitions *)

Module Spec.

Import CalculationEngine.
Local Open Scope float_scope.

(** The ordered severity of the categories. *)
Definition severity (c : QualityCategory) : nat :=
  match c with
  | excellent => 0 | good => 1 | moderate => 2 | poor => 3 | unsuitable => 4
  end.

(** A rule of the cascade matches when both of its strict bounds hold. *)
Definition rule (hpi pli bound_hpi bound_pli : number) : Prop :=
  lt hpi bound_hpi = true /\ lt pli bound_pli = true.

(** The cascade as the specification words it: the first rule that matches
    decides, [unsuitable] when none does. *)
Inductive classify (hpi pli : number) : QualityCategory -> Prop :=
| classify_excellent :
    rule hpi pli 25 1 -> classify hpi pli excellent
| classify_good :
    ~ rule hpi pli 25 1 -> rule hpi pli 50 2 -> classify hpi pli good
| classify_moderate :
    ~ rule hpi pli 25 1 -> ~ rule hpi pli 50 2 -> rule hpi pli 75 3 ->
    classify hpi pli moderate
| classify_poor :
    ~ rule hpi pli 25 1 -> ~ rule hpi pli 50 2 -> ~ rule hpi pli 75 3 ->
    rule hpi pli 100 5 -> classify hpi pli poor
| classify_unsuitable :
    ~ rule hpi pli 25 1 -> ~ rule hpi pli 50 2 -> ~ rule hpi pli 75 3 ->
    ~ rule hpi pli 100 5 -> classify hpi pli unsuitable.

(** [x <= y] on numbers (false when an operand is NaN). *)
Definition le (x y : number) : Prop := PrimFloat.leb x y = true.

(** The panel holds a metal that has a reference standard and whose
    concentration is zero. *)
Definition matched_zero (metals : MetalPanel) : Prop :=
  exists metal concentration standard,
    In (metal, concentration) metals
    /\ truthy_entry WHO_STANDARDS metal = Some standard
    /\ PrimFloat.is_zero concentration = true.

(** The product of the contamination factors as [calculatePLI] has
    accumulated it when the last metal is folded in. *)
Definition pli_product (metals : MetalPanel) : number :=
  fst (fold_left pli_step metals (1, O)).

(** A running product that is zero or NaN; it stays so. *)
Definition degenerate (p : number) : Prop :=
  PrimFloat.is_zero p = true \/ PrimFloat.is_nan p = true.

End Spec.

(** ** Specification-side definitions for the validator *)

Module ValidatorSpec.

Import DataUpload.

(** The id given to the row at position [index] of the input. *)
Definition sample_id (index : nat) : string :=
  "sample_" ++ string_of_nat (index + 1).

(** The diagnostics one row produces, and the sample it yields when there
    are none. *)
Definition row_errors (row : Row) (index : nat) : list string :=
  fst (check_row row index).

Definition row_sample (clock : Clock) (row : Row) (index : nat) : WaterSample :=
  {| id := sample_id index;
     latitude := parseFloat (ToString (row !! "latitude"));
     longitude := parseFloat (ToString (row !! "longitude"));
     sampleDate := sample_date clock row index;
     metals := snd (check_row row index);
     hmpiResults := None |}.

(** A row is valid when each of its eleven checked cells passes; the
    position of the row plays no part. *)
Definition coordinate_ok (lo hi : number) (cell : option string) : bool :=
  let v := parseFloat (ToString cell) in
  negb (isNaN v || lt v lo || gt v hi).

Definition metal_ok (row : Row) (metal : string) : bool :=
  let v := parseFloat (ToString (row !! metal)) in
  negb (isNaN v || lt v 0).

Definition row_valid (row : Row) : bool :=
  coordinate_ok (-90) 90 (row !! "latitude")
  && coordinate_ok (-180) 180 (row !! "longitude")
  && forallb (metal_ok row) metal_names.

(** The diagnostics of the rows from position [index] on, in row order. *)
Fixpoint diagnostics_from (data : list Row) (index : nat) : list string :=
  match data with
  | [] => []
  | row :: rest => app (row_errors row index) (diagnostics_from rest (S index))
  end.

(** The samples of exactly the valid rows from position [index] on, in row
    order, each carrying the id of its position. *)
Fixpoint accepted_from (clock : Clock) (data : list Row) (index : nat)
  : list WaterSample :=
  match data with
  | [] => []
  | row :: rest =>
      app (if row_valid row then [row_sample clock row index] else [])
          (accepted_from clock rest (S index))
  end.

(** The positions, from [index] on, of the valid rows. *)
Fixpoint valid_positions (data : list Row) (index : nat) : list nat :=
  match data with
  | [] => []
  | row :: rest =>
      app (if row_valid row then [index] else [])
          (valid_positions rest (S index))
  end.

(** The required columns the first row has no cell for, and the diagnostic
    on the header they give rise to. *)
Definition missing_columns (data : list Row) : list string :=
  List.filter (fun col => negb (has_column (List.hd ∅ data) col))
    requiredColumns.

Definition header_errors (data : list Row) : list string :=
  match missing_columns data with
  | [] => []
  | missing => ["Missing required columns: " ++ join ", " missing]
  end.

(** The row at position [index] is among the accepted samples. *)
Definition accepted (clock : Clock) (data : list Row) (index : nat) : Prop :=
  exists s, In s (samples (validateData clock data)) /\ id s = sample_id index.

(** Two rows that differ at most in what their [sampleDate] cell holds. *)
Definition same_but_date_content (r r' : Row) : Prop :=
  (forall k, k <> "sampleDate" -> r !! k = r' !! k)
  /\ (is_Some (r !! "sampleDate") <-> is_Some (r' !! "sampleDate")).

(** Two samples that differ at most in their [sampleDate]. *)
Definition same_but_date (s s' : WaterSample) : Prop :=
  id s = id s' /\ latitude s = latitude s' /\ longitude s = longitude s'
  /\ metals s = metals s' /\ hmpiResults s = hmpiResults s'.

(** The row has a non-empty [sampleDate] cell. *)
Definition dated (row : Row) : Prop :=
  exists s, row !! "sampleDate" = Some s /\ s <> "".

(** The shapes the diagnostic of a row can take. *)
Inductive row_diagnostic : string -> Prop :=
| diagnostic_latitude (index : nat) :
    row_diagnostic (invalid_at_row "latitude" index)
| diagnostic_longitude (index : nat) :
    row_diagnostic (invalid_at_row "longitude" index)
| diagnostic_metal (metal : string) (index : nat) :
    In metal metal_names ->
    row_diagnostic (invalid_at_row (metal ++ " concentration") index).

(** *** Example rows *)

Definition valid_row : Row :=
  list_to_map
    [("latitude", "10.5"); ("longitude", "77.1"); ("sampleDate", "2024-03-01");
     ("As", "0.02"); ("Cd", "0.006"); ("Cr", "0.1"); ("Cu", "4.0");
     ("Fe", "0.6"); ("Mn", "0.2"); ("Ni", "0.14"); ("Pb", "0.02");
     ("Zn", "6.0")].

Definition invalid_row : Row := <["latitude" := "91"]> valid_row.

Definition undated_row : Row := delete "sampleDate" valid_row.

Definition odd_date_row : Row := <["sampleDate" := "not a date"]> valid_row.

(** A valid row with the given arsenic cell and every other metal at zero. *)
Definition arsenic_row (arsenic : string) : Row :=
  list_to_map
    [("latitude", "10.5"); ("longitude", "77.1"); ("sampleDate", "2024-03-01");
     ("As", arsenic); ("Cd", "0"); ("Cr", "0"); ("Cu", "0");
     ("Fe", "0"); ("Mn", "0"); ("Ni", "0"); ("Pb", "0"); ("Zn", "0")].

Definition morning : Clock := fun _ => "2024-05-06T10:11:12.000Z".
Definition next_day : Clock := fun _ => "2024-05-07T10:11:12.000Z".

End ValidatorSpec.

(** ** Example data for the index calculator *)

Module Examples.

Import CalculationEngine.
Local Open Scope float_scope.

(** An engine for the examples: [exp (exponent * ln base)] by power series
    after range reduction. *)
Definition floor_Z (x : number) : Z :=
  match Prim2SF x with
  | S754_finite s m (Zneg k) =>
      if s then (- ((Zpos m + 2 ^ Zpos k - 1) / 2 ^ Zpos k))%Z
      else (Zpos m / 2 ^ Zpos k)%Z
  | S754_finite s m e => ((if s then -1 else 1) * Zpos m * 2 ^ e)%Z
  | _ => 0%Z
  end.

Definition of_Z_signed (n : Z) (unit : number) : number :=
  of_uint63 (Uint63.of_Z (Z.abs n)) * (if (n <? 0)%Z then - unit else unit).

Fixpoint exp_series (n : nat) (r term acc k : number) : number :=
  match n with
  | O => acc
  | S n' =>
      let term' := term * r / k in
      exp_series n' r term' (acc + term') (k + 1)
  end.

Fixpoint atanh_series (n : nat) (z2 term acc k : number) : number :=
  match n with
  | O => acc
  | S n' =>
      let term' := term * z2 in
      atanh_series n' z2 term' (acc + term' / k) (k + 2)
  end.

Definition ln2 : number := 0.6931471805599453.

Definition series_ln (x : number) : number :=
  let '(m, e) := Z.frexp x in
  let z := (m - 1) / (m + 1) in
  of_Z_signed e ln2 + 2 * atanh_series 40 (z * z) z z 3.

Definition series_exp (t : number) : number :=
  let n := floor_Z (t / ln2 + 0.5) in
  Z.ldexp (exp_series 30 (t - of_Z_signed n ln2) 1 1 1) n.

Definition series_pow (base exponent : number) : number :=
  series_exp (exponent * series_ln base).

(** The panel with every concentration at twice its standard. *)
Definition doubled_panel : MetalPanel :=
  [("As", 0.02); ("Cd", 0.006); ("Cr", 0.1); ("Cu", 4.0); ("Fe", 0.6);
   ("Mn", 0.2); ("Ni", 0.14); ("Pb", 0.02); ("Zn", 6.0)].

Definition doubled_sample : WaterSample :=
  {| id := "sample_1"; latitude := 10.5; longitude := 77.1;
     sampleDate := "2024-03-01"; metals := doubled_panel;
     hmpiResults := None |}.

Definition every_index : SelectedIndices :=
  {| sel_hpi := true; sel_pli := true; sel_cf := true |}.

(** The panel of the uploaded row [arsenic_row "1e308"]: the contamination
    factor of arsenic overflows before the zero of cadmium is reached. *)
Definition overflowing_panel : MetalPanel :=
  [("As", 1e308); ("Cd", 0); ("Cr", 0); ("Cu", 0); ("Fe", 0);
   ("Mn", 0); ("Ni", 0); ("Pb", 0); ("Zn", 0)].

Definition zero_cadmium_panel : MetalPanel :=
  [("As", 0.02); ("Cd", 0); ("Cr", 0.1); ("Cu", 4.0); ("Fe", 0.6);
   ("Mn", 0.2); ("Ni", 0.14); ("Pb", 0.02); ("Zn", 6.0)].

End Examples.

(** ** Specification-side definitions for the quality distribution *)

Module DistributionSpec.

Import CalculationEngine ResultsVisualization DataUpload ValidatorSpec Examples.

(** The integer [n] that [x.toFixed(1)] prints as [n / 10], for a
    non-negative [x] below [10^21]. *)
Definition fixed_tenths (x : number) : Z :=
  match Prim2SF x with
  | S754_finite false m e => fixed_digits m e 1
  | _ => 0%Z
  end.

(** The counts of the distribution, in first-seen order of the categories. *)
Definition category_counts (samples : list WaterSample) : list nat :=
  List.map snd (fold_left distribution_step (processedSamples samples) []).

(** The percentages of the distribution, in tenths. *)
Definition percentage_tenths (samples : list WaterSample) : list Z :=
  List.map
    (fun c => fixed_tenths (percent c (length (processedSamples samples))))
    (category_counts samples).

Definition sum_Z (l : list Z) : Z := fold_right Z.add 0%Z l.

Definition sum_nat (l : list nat) : nat := fold_right Nat.add 0%nat l.

(** The distribution object keeps one property per category, each count
    positive, and the counts add up to the number of samples folded in. *)
Definition well_formed (acc : Distribution) (total : nat) : Prop :=
  NoDup (List.map fst acc)
  /\ Forall (fun k => 0 < k)%nat (List.map snd acc)
  /\ sum_nat (List.map snd acc) = total.

(** A batch of sixteen uploaded rows: arsenic at one, three, five and
    (thirteen times) eight times its standard, every other metal at zero. *)
Definition sixteen_rows : list Row :=
  [arsenic_row "0.01"; arsenic_row "0.03"; arsenic_row "0.05"]
  ++ repeat (arsenic_row "0.08") 13.

Definition sixteen_samples : list WaterSample :=
  performCalculations series_pow initial_selection
    (samples (validateData morning sixteen_rows)).

End DistributionSpec.

(** ** Specification-side definitions for the upload *)

Module UploadSpec.

Import DataUpload ValidatorSpec.

(** A cell that is absent from the row or holds the empty text. *)
Definition blank (cell : option string) : Prop :=
  cell = None \/ cell = Some "".

(** The eleven columns whose cells [validateData] parses. *)
Definition checked_columns : list string :=
  "latitude" :: "longitude" :: metal_names.

(** What the diagnostic on a checked column calls it. *)
Definition subject (col : string) : string :=
  if String.eqb col "latitude" || String.eqb col "longitude"
  then col else col ++ " concentration".

(** The rows that produce a diagnostic. *)
Definition rejected (data : list Row) : list Row :=
  List.filter (fun row => negb (row_valid row)) data.

(** An upload without a flaw: at least one row, a cell for every required
    column in the first row, every row valid. *)
Definition clean (data : list Row) : Prop :=
  data <> [] /\ missing_columns data = []
  /\ Forall (fun row => row_valid row = true) data.

(** [lo <= v <= hi] on numbers; it fails when [v] is NaN. *)
Definition within (lo hi v : number) : Prop :=
  PrimFloat.leb lo v = true /\ PrimFloat.leb v hi = true.

(** A concentration the validator lets through: not NaN, not below zero. *)
Definition non_negative (v : number) : Prop :=
  isNaN v = false /\ lt v 0%float = false.

End UploadSpec.

(** ** Specification-side definitions for the calculator *)

Module CalculatorSpec.

Import CalculationEngine Spec.
Local Open Scope float_scope.

(** The metal of the entry finds a member of the table of standards: one
    of its nine own entries, or a member every object inherits. *)
Definition recognised (entry : string * number) : bool :=
  bool_decide (is_Some (WHO_STANDARDS !! entry.1)) || JS.inherited entry.1.

(** The band an index falls in on its own. *)
Definition band (b1 b2 b3 b4 x : number) : QualityCategory :=
  if lt x b1 then excellent
  else if lt x b2 then good
  else if lt x b3 then moderate
  else if lt x b4 then poor
  else unsuitable.

Definition hpi_band : number -> QualityCategory := band 25 50 75 100.
Definition pli_band : number -> QualityCategory := band 1 2 3 5.

(** The more severe of two categories. *)
Definition worse (a b : QualityCategory) : QualityCategory :=
  if (severity a <=? severity b)%nat then b else a.

(** The sample with its results replaced. *)
Definition with_results (r : option HmpiResults) (s : WaterSample) : WaterSample :=
  {| id := id s; latitude := latitude s; longitude := longitude s;
     sampleDate := sampleDate s; metals := metals s; hmpiResults := r |}.

End CalculatorSpec.

(** ** DataUpload.tsx: the state of the component and its handlers *)

Module UploadComponent.

Import DataUpload.
Local Open Scope float_scope.

(** The argument of a [toast] call; [variant] is absent or "destructive". *)
Record Toast := {
  title : string;
  description : string;
  variant : option string
}.

(** What a handler does besides updating the state of its component. *)
Inductive Effect :=
| toast (t : Toast)
| onDataUploaded (samples : list WaterSample).

(** The four [useState] cells. *)
Record State := {
  uploadProgress : number;
  isProcessing : bool;
  previewData : list WaterSample;
  errors : list string
}.

Definition initial : State :=
  {| uploadProgress := 0; isProcessing := false; previewData := []; errors := [] |}.

(** [handleFileUpload] up to its call of [Papa.parse]: without a file
    nothing happens. *)
Definition handleFileUpload (file : bool) (st : State) : State :=
  if file then
    {| uploadProgress := 0; isProcessing := true;
       previewData := previewData st; errors := [] |}
  else st.

(** The [complete] callback, on the rows [results.data] of the parsed file. *)
Definition complete (clock : Clock) (data : list Row) (st : State)
  : State * list Effect :=
  let validation := validateData clock data in
  if isValid validation then
    ({| uploadProgress := 100; isProcessing := false;
        previewData := samples validation; errors := errors st |},
     [toast {| title := "Data uploaded successfully";
               description :=
                 string_of_nat (length (samples validation))
                 ++ " samples ready for analysis";
               variant := None |}])
  else
    ({| uploadProgress := 50; isProcessing := false;
        previewData := previewData st;
        errors := DataUpload.errors validation |},
     [toast {| title := "Upload failed";
               description := "Please check the data format and try again";
               variant := Some "destructive" |}]).

(** The [error] callback, on [error.message]. *)
Definition error (message : string) (st : State) : State * list Effect :=
  ({| uploadProgress := uploadProgress st; isProcessing := false;
      previewData := previewData st;
      errors := ["File parsing error: " ++ message] |},
   [toast {| title := "Upload failed";
             description := "Could not parse the CSV file";
             variant := Some "destructive" |}]).

Definition handleConfirmUpload (st : State) : State * list Effect :=
  (st,
   [onDataUploaded (previewData st);
    toast {| title := "Data confirmed";
             description := "Proceeding to calculation step";
             variant := None |}]).

Definition clearData (st : State) : State :=
  {| uploadProgress := 0; isProcessing := isProcessing st;
     previewData := []; errors := [] |}.

(** The preview card, which holds the Confirm button, is rendered when
    [previewData.length > 0]; the error list when [errors.length > 0]. *)
Definition preview_shown (st : State) : bool := (0 <? length (previewData st))%nat.
Definition errors_shown (st : State) : bool := (0 <? length (errors st))%nat.

End UploadComponent.

(** ** Dashboard.tsx: the state of the dashboard and its handlers *)

Module Dashboard.

Record State := {
  samples : list WaterSample;
  activeTab : string
}.

Definition initial : State := {| samples := []; activeTab := "upload" |}.

Definition handleDataUploaded (newSamples : list WaterSample) (st : State) : State :=
  {| samples := newSamples; activeTab := "calculate" |}.

Definition handleCalculationComplete (calculatedSamples : list WaterSample)
    (st : State) : State :=
  {| samples := calculatedSamples; activeTab := "results" |}.

(** The [disabled] attribute of the Calculate, Results and Geospatial tabs. *)
Definition calculate_disabled (st : State) : bool :=
  (length (samples st) =? 0)%nat.

Definition results_disabled (st : State) : bool :=
  negb (existsb (fun s => bool_decide (is_Some (hmpiResults s))) (samples st)).

Definition map_disabled (st : State) : bool :=
  negb (existsb (fun s => bool_decide (is_Some (hmpiResults s))) (samples st)).

(** [<DataUpload onDataUploaded={handleDataUploaded} />]: what an effect of
    the upload component does to the dashboard. *)
Definition deliver (st : State) (e : UploadComponent.Effect) : State :=
  match e with
  | UploadComponent.onDataUploaded newSamples => handleDataUploaded newSamples st
  | UploadComponent.toast _ => st
  end.

End Dashboard.

(** ** GeospatialMap.tsx *)

Module GeospatialMap.

Import ResultsVisualization.

Definition processedSamples (samples : list WaterSample) : list WaterSample :=
  List.filter (fun s => bool_decide (is_Some (hmpiResults s))) samples.

(** The [reduce] of [qualityStats] has the callback of the one in
    [qualityDistribution]. *)
Definition qualityStats (samples : list WaterSample) : Distribution :=
  fold_left distribution_step (processedSamples samples) [].

(** [qualityStats.<category> || 0]. *)
Definition stat (stats : Distribution) (c : QualityCategory) : nat :=
  match List.find (fun entry => category_eqb (fst entry) c) stats with
  | Some (_, n) => n
  | None => 0
  end.

(** The number on the Hotspots badge. *)
Definition hotspots (samples : list WaterSample) : nat :=
  stat (qualityStats samples) poor + stat (qualityStats samples) unsuitable.

(** [qualityCategory === 'poor' || qualityCategory === 'unsuitable']. *)
Definition critical (s : WaterSample) : bool :=
  match hmpiResults s with
  | Some r =>
      category_eqb (qualityCategory r) poor
      || category_eqb (qualityCategory r) unsuitable
  | None => false
  end.

(** The cards of the hotspot analysis, and whether the notice that there
    are no critical hotspots is rendered. *)
Definition hotspot_cards (samples : list WaterSample) : list WaterSample :=
  take 6 (List.filter critical (processedSamples samples)).

Definition no_hotspots_notice (samples : list WaterSample) : bool :=
  (length (List.filter critical (processedSamples samples)) =? 0)%nat.

(** The simulated sample points: the position, in percent of the map, of
    the marker at [index]. *)
Definition marker_left (index : nat) : nat := 20 + (index mod 4) * 20.
Definition marker_top (index : nat) : nat := 30 + (index / 4) * 30.

Definition markers (samples : list WaterSample) : list (string * nat * nat) :=
  imap (fun index sample => (id sample, marker_left index, marker_top index))
       (take 8 (processedSamples samples)).

End GeospatialMap.

(** ** Specification-side definitions for the counts of categories *)

Module CountSpec.

Import ResultsVisualization.
Local Open Scope float_scope.

(** The sample carries results of category [c]. *)
Definition has_category (c : QualityCategory) (s : WaterSample) : bool :=
  match hmpiResults s with
  | Some r => category_eqb (qualityCategory r) c
  | None => false
  end.

(** How many of the samples carry results of category [c]. *)
Definition occurrences (c : QualityCategory) (samples : list WaterSample) : nat :=
  length (List.filter (has_category c) samples).

(** A sample with the given id and results, for the examples. *)
Definition rated (name : string) (h p : number) (c : QualityCategory)
  : WaterSample :=
  {| id := name; latitude := 10.5; longitude := 77.1;
     sampleDate := "2024-03-01"; metals := [];
     hmpiResults :=
       Some {| hpi := h; pli := p; cf := 0; qualityCategory := c |} |}.

(** One good sample followed by two poor ones. *)
Definition good_then_poor : list WaterSample :=
  [rated "sample_1" 30 1.2 good; rated "sample_2" 80 4 poor;
   rated "sample_3" 90 4.5 poor].

End CountSpec.

(** ** Specification-side definitions for the sign of numbers *)

Module SignSpec.

(** A number that is zero, positive or plus infinity, as the unpacked
    binary64 value shows it. *)
Definition nn (f : spec_float) : Prop :=
  match f with
  | S754_zero _ => True
  | S754_infinity s | S754_finite s _ _ => s = false
  | S754_nan => False
  end.

(** A number that is positive and finite. *)
Definition positive_finite (x : number) : Prop :=
  exists m e, Prim2SF x = S754_finite false m e.

End SignSpec.

(** ** ResultsVisualization.tsx: the summary statistics *)

Module Statistics.

Import ResultsVisualization.
Local Open Scope float_scope.

Definition is_negative_zero (x : number) : bool :=
  PrimFloat.is_zero x && PrimFloat.get_sign x.

Definition is_positive_zero (x : number) : bool :=
  PrimFloat.is_zero x && negb (PrimFloat.get_sign x).

(** [Math.min] on its arguments: NaN as soon as a value is NaN; otherwise
    the lowest value, starting from plus infinity, with [-0] below [+0]. *)
Fixpoint min_from (lowest : number) (values : list number) : number :=
  match values with
  | [] => lowest
  | value :: rest =>
      if isNaN value then NaN
      else if is_negative_zero value && is_positive_zero lowest
      then min_from value rest
      else if lt value lowest then min_from value rest
      else min_from lowest rest
  end.

(** [Math.max] on its arguments, starting from minus infinity, with [+0]
    above [-0]. *)
Fixpoint max_from (highest : number) (values : list number) : number :=
  match values with
  | [] => highest
  | value :: rest =>
      if isNaN value then NaN
      else if is_positive_zero value && is_negative_zero highest
      then max_from value rest
      else if gt value highest then max_from value rest
      else max_from highest rest
  end.

Record Summary := {
  min : number;
  max : number;
  avg : number
}.

Record StatisticsData := {
  of_hpi : Summary;
  of_pli : Summary
}.

Section Engine.

(** The most values the engine takes as the arguments of one call where
    the statistics are computed: [f(...values)] spreads the values as
    arguments, and with more of them the call throws a RangeError.  The
    bound depends on the engine and on the stack that is left. *)
Variable argument_limit : nat.

(** [f(...values)] for a total [f]; [None] is the RangeError. *)
Definition spread {A : Type} (f : list number -> A) (values : list number)
  : option A :=
  if (length values <=? argument_limit)%nat then Some (f values) else None.

(** [Math.min(...values)]. *)
Definition Math_min (values : list number) : option number :=
  spread (min_from PrimFloat.infinity) values.

(** [Math.max(...values)]. *)
Definition Math_max (values : list number) : option number :=
  spread (max_from PrimFloat.neg_infinity) values.

(** [{ min: Math.min(...values), max: Math.max(...values),
       avg: values.reduce((a, b) => a + b, 0) / values.length }], the
    fields evaluated in this order; an error leaves no summary. *)
Definition summary (values : list number) : option Summary :=
  lowest ← Math_min values;
  highest ← Math_max values;
  Some {| min := lowest;
          max := highest;
          avg := fold_left (fun a b => a + b) values 0
                 / of_nat (length values) |}.

(** [processedSamples.map(s => s.hmpiResults!.hpi)], and the same for the
    PLI; every processed sample has results. *)
Definition hpiValues (samples : list WaterSample) : list number :=
  omap (fun s => hpi <$> hmpiResults s) (processedSamples samples).

Definition pliValues (samples : list WaterSample) : list number :=
  omap (fun s => pli <$> hmpiResults s) (processedSamples samples).

(** The memoised [statisticsData]: the HPI summary, then the PLI summary;
    an error in either leaves the component without a rendering. *)
Definition statisticsData (samples : list WaterSample)
  : option StatisticsData :=
  hpi_summary ← summary (hpiValues samples);
  pli_summary ← summary (pliValues samples);
  Some {| of_hpi := hpi_summary; of_pli := pli_summary |}.

End Engine.

End Statistics.

(** ** CalculationEngine.tsx: the selection of indices *)

Module IndexSelection.

Import CalculationEngine.

(** The ids of [availableIndices]; [handleIndexToggle] is called with no
    other. *)
Inductive IndexId := hpi_id | pli_id | cf_id.

Definition availableIndices : list IndexId := [hpi_id; pli_id; cf_id].

(** [selectedIndices[index.id]], the state of the checkbox. *)
Definition checked (selectedIndices : SelectedIndices) (indexId : IndexId) : bool :=
  match indexId with
  | hpi_id => sel_hpi selectedIndices
  | pli_id => sel_pli selectedIndices
  | cf_id => sel_cf selectedIndices
  end.

(** [{ ...prev, [indexId]: checked }]. *)
Definition handleIndexToggle (indexId : IndexId) (value : bool)
    (prev : SelectedIndices) : SelectedIndices :=
  match indexId with
  | hpi_id => {| sel_hpi := value; sel_pli := sel_pli prev; sel_cf := sel_cf prev |}
  | pli_id => {| sel_hpi := sel_hpi prev; sel_pli := value; sel_cf := sel_cf prev |}
  | cf_id => {| sel_hpi := sel_hpi prev; sel_pli := sel_pli prev; sel_cf := value |}
  end.

(** [Object.values(selectedIndices).filter(Boolean).length]. *)
Definition selectedCount (selectedIndices : SelectedIndices) : nat :=
  length (List.filter (fun b : bool => b)
            [sel_hpi selectedIndices; sel_pli selectedIndices;
             sel_cf selectedIndices]).

(** The [disabled] attribute of the Calculate button. *)
Definition calculate_disabled (isCalculating : bool)
    (selectedIndices : SelectedIndices) : bool :=
  isCalculating || (selectedCount selectedIndices =? 0)%nat.

End IndexSelection.

(** ** ResultsVisualization.tsx: the key pollutants of the results table *)

Module ResultsTable.

Local Open Scope float_scope.

Section Sort.

Context {A : Type}.

(** The compare function of a [sort]; its result is a number. *)
Variable comparefn : A -> A -> number.

(** [x] goes after [y] when [comparefn(x, y)] is above zero; a NaN counts
    as zero. *)
Definition after (x y : A) : bool := gt (comparefn x y) 0.

(** [x], which preceded every element of [sorted], put in its place. *)
Fixpoint insert (x : A) (sorted : list A) : list A :=
  match sorted with
  | [] => [x]
  | y :: rest => if after x y then y :: insert x rest else x :: sorted
  end.

(** [array.sort(comparefn)] for a compare function that orders the
    elements consistently, as subtraction does on numbers that are not
    NaN: the sorted order is then fixed, elements that compare equal
    keeping their order. *)
Definition Array_sort (array : list A) : list A :=
  fold_right insert [] array.

End Sort.

(** [Object.entries(sample.metals).sort(([,a], [,b]) => b - a)
      .slice(0, 2).map(([metal]) => metal)]. *)
Definition topPollutants (sample : WaterSample) : list string :=
  List.map fst
    (take 2 (Array_sort (fun x y => snd y - snd x) (metals sample))).

End ResultsTable.

(** ** Specification-side definitions for the key pollutants *)

Module TableSpec.

(** Of two entries, the first has the concentration that is not below the
    other's. *)
Definition descending (x y : string * number) : Prop :=
  PrimFloat.leb (snd y) (snd x) = true.

(** The compare function of the key pollutants. *)
Definition by_concentration (x y : string * number) : number :=
  (snd y - snd x)%float.

End TableSpec.

(** ** DataUpload.tsx: the component over time *)

Module UploadSession.

Import DataUpload UploadComponent.

(** What can happen to the component: a change of the file input, with or
    without a file; the parser calling [complete] or [error]; a click on
    Confirm Data or on Clear.  The two buttons are rendered only while
    [previewData.length > 0]. *)
Inductive Event :=
| file_chosen (file : bool)
| parse_complete (clock : Clock) (data : list Row)
| parse_error (message : string)
| confirm_clicked
| clear_clicked.

Definition step (st : State) (e : Event) : State * list Effect :=
  match e with
  | file_chosen file => (handleFileUpload file st, [])
  | parse_complete clock data => complete clock data st
  | parse_error message => error message st
  | confirm_clicked =>
      if preview_shown st then handleConfirmUpload st else (st, [])
  | clear_clicked =>
      if preview_shown st then (clearData st, []) else (st, [])
  end.

(** The state after a sequence of events, and the effects along the way. *)
Fixpoint run (events : list Event) (st : State) : State * list Effect :=
  match events with
  | [] => (st, [])
  | e :: rest =>
      let '(st1, out1) := step st e in
      let '(st2, out2) := run rest st1 in
      (st2, app out1 out2)
  end.

(** The batches handed to [onDataUploaded]. *)
Definition delivered (effects : list Effect) : list (list WaterSample) :=
  omap (fun e => match e with
                 | onDataUploaded batch => Some batch
                 | toast _ => None
                 end) effects.

End UploadSession.

(** ** The application over time *)

Module Session.

Import CalculationEngine.

(** The tabs of the dashboard and the values of their triggers. *)
Inductive Tab := upload_tab | calculate_tab | results_tab | map_tab.

Definition tab_value (tab : Tab) : string :=
  match tab with
  | upload_tab => "upload"
  | calculate_tab => "calculate"
  | results_tab => "results"
  | map_tab => "map"
  end.

Definition tab_disabled (d : Dashboard.State) (tab : Tab) : bool :=
  match tab with
  | upload_tab => false
  | calculate_tab => Dashboard.calculate_disabled d
  | results_tab => Dashboard.results_disabled d
  | map_tab => Dashboard.map_disabled d
  end.

(** The upload component, the dashboard, and the calculations that were
    started and have not yet called [onCalculationComplete]: each holds the
    [calculatedSamples] it computed when it was started. *)
Record App := {
  upload : UploadComponent.State;
  dashboard : Dashboard.State;
  pending : list (list WaterSample)
}.

Definition initial : App :=
  {| upload := UploadComponent.initial;
     dashboard := Dashboard.initial;
     pending := [] |}.

(** What can happen: an event of the upload component, whose effects reach
    the dashboard; the upload component mounted anew, with its initial
    state; a click on a tab that is not disabled; a click on Calculate
    Indices, which is on the Calculate tab; a calculation that was started
    calling [onCalculationComplete]. *)
Inductive Event :=
| on_upload (e : UploadSession.Event)
| upload_mounted
| tab_clicked (tab : Tab)
| calculate_clicked (selectedIndices : SelectedIndices)
| calculation_completed (k : nat).

Section Engine.

Variable pow_approx : number -> number -> number.

Definition step (app : App) (e : Event) : App :=
  match e with
  | on_upload e' =>
      let '(up, effects) := UploadSession.step (upload app) e' in
      {| upload := up;
         dashboard := fold_left Dashboard.deliver effects (dashboard app);
         pending := pending app |}
  | upload_mounted =>
      {| upload := UploadComponent.initial;
         dashboard := dashboard app;
         pending := pending app |}
  | tab_clicked tab =>
      if tab_disabled (dashboard app) tab then app
      else
        {| upload := upload app;
           dashboard :=
             {| Dashboard.samples := Dashboard.samples (dashboard app);
                Dashboard.activeTab := tab_value tab |};
           pending := pending app |}
  | calculate_clicked selectedIndices =>
      if String.eqb (Dashboard.activeTab (dashboard app)) "calculate" then
        {| upload := upload app;
           dashboard := dashboard app;
           pending :=
             List.app (pending app)
               [performCalculations pow_approx selectedIndices
                  (Dashboard.samples (dashboard app))] |}
      else app
  | calculation_completed k =>
      match pending app !! k with
      | Some calculatedSamples =>
          {| upload := upload app;
             dashboard :=
               Dashboard.handleCalculationComplete calculatedSamples
                 (dashboard app);
             pending := delete k (pending app) |}
      | None => app
      end
  end.

Definition run (events : list Event) (app : App) : App :=
  fold_left step events app.

(** The samples of a clean upload, and such samples once calculated. *)
Definition uploaded (batch : list WaterSample) : Prop :=
  exists clock data,
    UploadSpec.clean data
    /\ batch = DataUpload.samples (DataUpload.validateData clock data).

Definition calculated (batch : list WaterSample) : Prop :=
  exists clock data selectedIndices,
    UploadSpec.clean data
    /\ batch = performCalculations pow_approx selectedIndices
                 (DataUpload.samples (DataUpload.validateData clock data)).

(** What holds of the application at all times: the preview is empty or
    the samples of a clean upload; the samples of the dashboard are none,
    those of a clean upload, or such samples calculated; the calculations
    under way hold calculated samples; and the Calculate tab is not the
    active one while there are no samples. *)
Definition invariant (app : App) : Prop :=
  (UploadComponent.previewData (upload app) = []
   \/ uploaded (UploadComponent.previewData (upload app)))
  /\ (Dashboard.samples (dashboard app) = []
      \/ uploaded (Dashboard.samples (dashboard app))
      \/ calculated (Dashboard.samples (dashboard app)))
  /\ Forall calculated (pending app)
  /\ (Dashboard.activeTab (dashboard app) = "calculate" ->
      Dashboard.samples (dashboard app) <> []).

End Engine.

End Session.

(** * Facts *)

(** ** Comparison of numbers *)

Module NumberFacts.

Local Open Scope Z_scope.

(** [SFcompare] is the lexicographic comparison of these keys. *)
Lemma SFltb_leb_trans (a b c : spec_float) :
  SFleb a b = true -> SFltb b c = true -> SFltb a c = true.
Proof.
  unfold SFleb, SFltb, SFcompare.
  destruct a as [sa|sa| |sa ma ea], b as [sb|sb| |sb mb eb],
           c as [sc|sc| |sc mc ec];
    try destruct sa; try destruct sb; try destruct sc;
    try discriminate; try reflexivity; intros Hab Hbc;
    rewrite ?Pos.compare_cont_spec in *; simpl Pos.switch_Eq in *;
    destruct (Z.compare_spec ea eb); try discriminate;
    destruct (Z.compare_spec eb ec); try discriminate;
    destruct (Z.compare_spec ea ec); try reflexivity; try lia; subst;
    destruct (Pos.compare_spec ma mb); try discriminate;
    destruct (Pos.compare_spec mb mc); try discriminate;
    destruct (Pos.compare_spec ma mc); try reflexivity; simpl in *;
    try discriminate; try lia.
Qed.

Lemma ltb_leb_trans (a b c : float) :
  PrimFloat.leb a b = true -> PrimFloat.ltb b c = true -> PrimFloat.ltb a c = true.
Proof.
  rewrite leb_spec, !ltb_spec. apply SFltb_leb_trans.
Qed.

End NumberFacts.

(** ** Rounding of binary64 operations *)

Module RoundingFacts.

Import Rounding.
Local Open Scope Z_scope.

Lemma fexp_eq e : fexp prec emax e = Z.max (e - 53) (-1074).
Proof. reflexivity. Qed.

Lemma digits2_pos_size p : digits2_pos p = Pos.size p.
Proof. induction p; simpl; congruence. Qed.

Lemma Zdigits2_log2 m : 0 < m -> Zdigits2 m = Z.log2 m + 1.
Proof.
  destruct m as [|p|p]; try lia. intros _. simpl. rewrite digits2_pos_size.
  destruct p; simpl; lia.
Qed.

Lemma Zdigits2_bounds m :
  0 < m -> 2 ^ (Zdigits2 m - 1) <= m < 2 ^ Zdigits2 m.
Proof.
  intros H. rewrite (Zdigits2_log2 m H).
  replace (Z.log2 m + 1 - 1) with (Z.log2 m) by lia.
  apply Z.log2_spec, H.
Qed.

Lemma Zdigits2_nonneg m : 0 <= Zdigits2 m.
Proof. destruct m; simpl; lia. Qed.

Lemma Zdigits2_le m k : 0 <= k -> 0 <= m < 2 ^ k -> Zdigits2 m <= k.
Proof.
  intros Hk [H0 Hm]. destruct (Z.eq_dec m 0) as [->|Hne]; [simpl; lia|].
  rewrite Zdigits2_log2 by lia.
  assert (Z.log2 m < k) by (apply Z.log2_lt_pow2; lia). lia.
Qed.

Lemma shr_1_m mrs : 0 <= shr_m mrs -> shr_m (shr_1 mrs) = shr_m mrs / 2.
Proof.
  destruct mrs as [m r s]. simpl. intros Hm.
  destruct m as [|p|p]; [reflexivity| |lia].
  destruct p as [p|p|]; simpl.
  - rewrite Pos2Z.inj_xI. apply (Z.div_unique _ 2 _ 1); lia.
  - rewrite Pos2Z.inj_xO. apply (Z.div_unique _ 2 _ 0); lia.
  - reflexivity.
Qed.

Lemma pow2_xO p : 2 ^ Z.pos p~0 = 2 ^ Z.pos p * 2 ^ Z.pos p.
Proof. rewrite Pos2Z.inj_xO, <- Z.pow_add_r by lia. f_equal. lia. Qed.

Lemma pow2_xI p : 2 ^ Z.pos p~1 = 2 * (2 ^ Z.pos p * 2 ^ Z.pos p).
Proof.
  rewrite Pos2Z.inj_xI, <- Z.pow_add_r, <- Z.pow_succ_r by lia. f_equal. lia.
Qed.

Lemma iter_pos_shr_m p : forall mrs,
  0 <= shr_m mrs ->
  shr_m (SpecFloat.iter_pos shr_1 p mrs) = shr_m mrs / 2 ^ Zpos p.
Proof.
  induction p as [p IH|p IH|]; intros mrs Hm; simpl SpecFloat.iter_pos.
  - assert (H1 : 0 <= shr_m (shr_1 mrs)).
    { rewrite shr_1_m by exact Hm. apply Z.div_pos; lia. }
    assert (H2 : 0 <= shr_m (SpecFloat.iter_pos shr_1 p (shr_1 mrs))).
    { rewrite IH by exact H1. apply Z.div_pos; [exact H1|lia]. }
    rewrite IH, IH, shr_1_m by assumption.
    rewrite pow2_xI, !Z.div_div by lia. reflexivity.
  - assert (H2 : 0 <= shr_m (SpecFloat.iter_pos shr_1 p mrs)).
    { rewrite IH by exact Hm. apply Z.div_pos; [exact Hm|lia]. }
    rewrite IH, IH by assumption.
    rewrite pow2_xO, !Z.div_div by lia. reflexivity.
  - apply shr_1_m, Hm.
Qed.

Lemma shr_record_of_loc_m m l : shr_m (shr_record_of_loc m l) = m.
Proof. destruct l as [|[]]; reflexivity. Qed.

Lemma shr_fexp_spec m e l :
  0 <= m ->
  shr_m (fst (shr_fexp prec emax m e l))
    = m / 2 ^ Z.max 0 (fexp prec emax (Zdigits2 m + e) - e)
  /\ snd (shr_fexp prec emax m e l)
    = e + Z.max 0 (fexp prec emax (Zdigits2 m + e) - e).
Proof.
  intros Hm. unfold shr_fexp, shr.
  destruct (fexp prec emax (Zdigits2 m + e) - e) as [|p|p] eqn:E; simpl fst; simpl snd.
  - rewrite shr_record_of_loc_m. simpl Z.max. rewrite Z.div_1_r. lia.
  - rewrite iter_pos_shr_m by (rewrite shr_record_of_loc_m; exact Hm).
    rewrite shr_record_of_loc_m.
    replace (Z.max 0 (Z.pos p)) with (Z.pos p) by lia. split; reflexivity.
  - rewrite shr_record_of_loc_m.
    replace (Z.max 0 (Z.neg p)) with 0 by lia. rewrite Z.div_1_r. lia.
Qed.

Lemma round_nearest_even_range m l :
  m <= round_nearest_even m l <= m + 1.
Proof.
  unfold round_nearest_even. destruct l as [|[]]; try lia.
  destruct (Z.even m); lia.
Qed.


(** *** Values *)

Lemma bpow_pos e : (0 < bpow e)%R.
Proof. apply powerRZ_lt. lra. Qed.

Lemma bpow_0 : bpow 0 = 1%R.
Proof. reflexivity. Qed.

Lemma bpow_1 : bpow 1 = 2%R.
Proof. unfold bpow. simpl. lra. Qed.

Lemma bpow_add a b : bpow (a + b) = (bpow a * bpow b)%R.
Proof. apply powerRZ_add. lra. Qed.

Lemma IZR_pow2 n : 0 <= n -> IZR (2 ^ n) = bpow n.
Proof.
  intros Hn. destruct n as [|p|p]; [reflexivity| |lia].
  rewrite <- Z.pow_pos_fold. apply Zpower_pos_powerRZ.
Qed.

Lemma bpow_le a b : a <= b -> (bpow a <= bpow b)%R.
Proof.
  intros H. replace b with (a + (b - a)) by lia. rewrite bpow_add.
  rewrite <- (IZR_pow2 (b - a)) by lia.
  assert (0 < 2 ^ (b - a)) by (apply Z.pow_pos_nonneg; lia).
  assert (1 <= 2 ^ (b - a)) by lia.
  apply IZR_le in H1. pose proof (bpow_pos a). nra.
Qed.

Lemma bpow_lt a b : a < b -> (bpow a < bpow b)%R.
Proof.
  intros H. replace b with (a + (b - a)) by lia. rewrite bpow_add.
  rewrite <- (IZR_pow2 (b - a)) by lia.
  assert (2 ^ 1 <= 2 ^ (b - a)) by (apply Z.pow_le_mono_r; lia).
  apply IZR_le in H0. simpl in H0. pose proof (bpow_pos a). nra.
Qed.

(** Floor division by a power of two, in the reals. *)
Lemma div_pow2_R m n :
  0 <= n ->
  (IZR (m / 2 ^ n) * bpow n <= IZR m < (IZR (m / 2 ^ n) + 1) * bpow n)%R.
Proof.
  intros Hn. rewrite <- (IZR_pow2 n Hn).
  assert (Hp : 0 < 2 ^ n) by (apply Z.pow_pos_nonneg; lia).
  pose proof (Z.mul_div_le m _ Hp) as H1.
  pose proof (Z.mul_succ_div_gt m _ Hp) as H2.
  split.
  - rewrite <- mult_IZR. apply IZR_le. lia.
  - rewrite <- plus_IZR, <- mult_IZR. apply IZR_lt. lia.
Qed.

(** The digits of a number bound it in the reals. *)
Lemma digits_R m e :
  0 < m -> (bpow (Zdigits2 m + e - 1) <= IZR m * bpow e < bpow (Zdigits2 m + e))%R.
Proof.
  intros Hm. destruct (Zdigits2_bounds m Hm) as [H1 H2].
  pose proof (Zdigits2_log2 m Hm) as Hd. pose proof (Z.log2_nonneg m) as Hl.
  replace (Zdigits2 m + e - 1) with ((Zdigits2 m - 1) + e) by lia.
  rewrite (bpow_add (Zdigits2 m - 1) e), (bpow_add (Zdigits2 m) e).
  rewrite <- (IZR_pow2 (Zdigits2 m - 1)), <- (IZR_pow2 (Zdigits2 m)) by lia.
  apply IZR_le in H1. apply IZR_lt in H2. pose proof (bpow_pos e). nra.
Qed.

(** A value below [2^T] has at most [T - e] digits at exponent [e]. *)
Lemma digits_below m e T :
  0 <= m -> (IZR m * bpow e < bpow T)%R -> Zdigits2 m + e <= Z.max e T.
Proof.
  intros Hm Hv. destruct (Z.eq_dec m 0) as [->|Hne]; [simpl; lia|].
  destruct (digits_R m e ltac:(lia)) as [H1 _].
  destruct (Z_lt_le_dec (Zdigits2 m + e - 1) T) as [|Hge]; [lia|].
  apply bpow_le in Hge. lra.
Qed.


(** The mantissa that leaves the first shift gains at most one digit by
    rounding. *)
Lemma digits_after_shift mx n r :
  0 <= mx -> 0 <= n -> mx / 2 ^ n <= r <= mx / 2 ^ n + 1 ->
  0 <= Zdigits2 r <= Z.max 1 (Zdigits2 mx - n + 1).
Proof.
  intros Hmx Hn Hr. split; [apply Zdigits2_nonneg|].
  assert (Hq : 0 <= mx / 2 ^ n) by (apply Z.div_pos; [lia|apply Z.pow_pos_nonneg; lia]).
  destruct (Z_lt_le_dec 0 mx) as [Hpos|]; [destruct (Z_le_gt_dec n (Zdigits2 mx)) as [Hle|Hgt]|].
  - destruct (Zdigits2_bounds mx Hpos) as [_ Hub].
    assert (mx / 2 ^ n < 2 ^ (Zdigits2 mx - n)).
    { apply Z.div_lt_upper_bound; [apply Z.pow_pos_nonneg; lia|].
      rewrite <- Z.pow_add_r by lia.
      replace (n + (Zdigits2 mx - n)) with (Zdigits2 mx) by lia. exact Hub. }
    assert (Zdigits2 r <= Zdigits2 mx - n + 1); [|lia].
    apply Zdigits2_le; [lia|]. split; [lia|].
    rewrite Z.pow_add_r by lia. change (2 ^ 1) with 2. lia.
  - destruct (Zdigits2_bounds mx Hpos) as [_ Hub].
    assert (mx / 2 ^ n = 0).
    { apply Z.div_small. split; [lia|].
      apply Z.lt_le_trans with (1 := Hub). apply Z.pow_le_mono_r; lia. }
    assert (Zdigits2 r <= 1); [|lia].
    apply Zdigits2_le; [lia|]. change (2 ^ 1) with 2. lia.
  - assert (mx = 0) by lia. subst mx. rewrite Z.div_0_l in Hr
      by (apply Z.pow_nonzero; lia).
    assert (Zdigits2 r <= 1); [|lia].
    apply Zdigits2_le; [lia|]. change (2 ^ 1) with 2. lia.
Qed.

(** Rounding [mx * 2^ex] (or a value between it and its successor at that
    exponent) yields a finite number within two units of the final
    exponent, which is at most [E]. *)
Lemma binary_round_aux_near s mx ex lx E :
  0 <= mx ->
  E = Z.max ex (fexp prec emax (Zdigits2 mx + ex + 1)) ->
  E <= emax - prec ->
  near (binary_round_aux prec emax s mx ex lx) s
       (IZR mx * bpow ex) (2 * bpow E) E.
Proof.
  intros Hmx HE Hmax. unfold binary_round_aux.
  destruct (shr_fexp_spec mx ex lx Hmx) as [Hm1 He1].
  destruct (shr_fexp prec emax mx ex lx) as [mrs' e'].
  simpl fst in *; simpl snd in *.
  set (n1 := Z.max 0 (fexp prec emax (Zdigits2 mx + ex) - ex)) in *.
  set (r := round_nearest_even (shr_m mrs') (loc_of_shr_record mrs')).
  assert (Hr : shr_m mrs' <= r <= shr_m mrs' + 1)
    by apply round_nearest_even_range.
  assert (HM1 : 0 <= shr_m mrs').
  { rewrite Hm1. apply Z.div_pos; [lia|apply Z.pow_pos_nonneg; lia]. }
  assert (Hr0 : 0 <= r) by lia.
  destruct (shr_fexp_spec r e' loc_Exact Hr0) as [Hm2 He2].
  destruct (shr_fexp prec emax r e' loc_Exact) as [mrs'' e''].
  simpl fst in *; simpl snd in *.
  set (n2 := Z.max 0 (fexp prec emax (Zdigits2 r + e') - e')) in *.
  assert (Hn1 : 0 <= n1) by lia. assert (Hn2 : 0 <= n2) by lia.
  rewrite Hm1 in Hr.
  pose proof (digits_after_shift mx n1 r Hmx Hn1 Hr) as Hdr.
  pose proof (Zdigits2_nonneg mx) as Hdx.
  assert (F0 : e' <= E).
  { subst e' E. unfold n1. rewrite !fexp_eq. lia. }
  assert (F1 : e'' <= E).
  { subst e'' e' E. unfold n2, n1 in *. rewrite !fexp_eq in *. lia. }
  assert (F2 : (Rabs (IZR (shr_m mrs'') * bpow e'' - IZR mx * bpow ex)
                <= 2 * bpow E)%R).
  { pose proof (div_pow2_R mx n1 Hn1) as D1.
    pose proof (div_pow2_R r n2 Hn2) as D2. rewrite <- Hm2 in D2.
    destruct Hr as [Hr1 Hr2]. apply IZR_le in Hr1, Hr2.
    rewrite plus_IZR in Hr2.
    pose proof (bpow_le e' E F0) as B1. pose proof (bpow_le e'' E F1) as B2.
    subst e'' e'. rewrite !bpow_add in *.
    pose proof (bpow_pos ex). pose proof (bpow_pos n1). pose proof (bpow_pos n2).
    set (a := IZR mx) in *. set (q1 := IZR (mx / 2 ^ n1)) in *.
    set (rr := IZR r) in *. set (q2 := IZR (shr_m mrs'')) in *.
    set (b := bpow ex) in *. set (A := bpow n1) in *. set (B := bpow n2) in *.
    set (P := bpow E) in *.
    assert (0 < b * A)%R by nra.
    apply Rabs_le. split.
    - assert (q2 * B * (b * A) > (rr - B) * (b * A))%R by nra.
      assert (rr * (b * A) >= q1 * (b * A))%R by nra.
      assert (q1 * A * b > (a - A) * b)%R by nra.
      nra.
    - assert (q2 * B * (b * A) <= rr * (b * A))%R by nra.
      assert (rr * (b * A) <= (q1 + 1) * (b * A))%R by nra.
      assert (q1 * A * b <= a * b)%R by nra.
      nra. }
  assert (Hm2' : 0 <= shr_m mrs'').
  { rewrite Hm2. apply Z.div_pos; [lia|apply Z.pow_pos_nonneg; lia]. }
  destruct (shr_m mrs'') as [|m|m] eqn:Em; [| |lia].
  - simpl. split; [reflexivity|].
    rewrite Rmult_0_l, Rminus_0_l, Rabs_Ropp in F2. exact F2.
  - replace (e'' <=? emax - prec) with true by (symmetry; apply Z.leb_le; lia).
    simpl. auto.
Qed.


Lemma near_shift f s v v' err err' E E' :
  near f s v err E ->
  (Rabs (v - v') + err <= err')%R -> E <= E' ->
  near f s v' err' E'.
Proof.
  destruct f as [s0|s0| |s0 m e]; simpl; try tauto.
  - intros [-> H] He _. split; [reflexivity|].
    replace v' with (v - (v - v'))%R by ring.
    unfold Rminus at 1. eapply Rle_trans; [apply Rabs_triang|].
    rewrite Rabs_Ropp. lra.
  - intros (-> & He0 & H) He HE. split; [reflexivity|]. split; [lia|].
    replace (IZR (Z.pos m) * bpow e - v')%R
      with ((IZR (Z.pos m) * bpow e - v) + (v - v'))%R by ring.
    eapply Rle_trans; [apply Rabs_triang|]. lra.
Qed.

(** *** Exact cases *)

Lemma shr_fexp_id m e l :
  fexp prec emax (Zdigits2 m + e) <= e ->
  shr_fexp prec emax m e l = (shr_record_of_loc m l, e).
Proof.
  intros H. unfold shr_fexp, shr.
  destruct (fexp prec emax (Zdigits2 m + e) - e) eqn:E; try reflexivity. lia.
Qed.

Lemma binary_round_aux_exact s m e :
  fexp prec emax (Zdigits2 (Zpos m) + e) <= e -> e <= emax - prec ->
  binary_round_aux prec emax s (Zpos m) e loc_Exact = S754_finite s m e.
Proof.
  intros Hf He. unfold binary_round_aux.
  rewrite (shr_fexp_id (Zpos m) e loc_Exact Hf).
  cbn [shr_record_of_loc shr_m loc_of_shr_record round_nearest_even].
  rewrite (shr_fexp_id (Zpos m) e loc_Exact Hf).
  cbn [shr_record_of_loc shr_m].
  replace (e <=? emax - prec) with true by (symmetry; apply Z.leb_le; lia).
  reflexivity.
Qed.

Lemma iter_xO_spec p k :
  Zpos (Pos.iter xO p k) = Zpos p * 2 ^ Zpos k
  /\ Zpos (digits2_pos (Pos.iter xO p k)) = Zpos (digits2_pos p) + Zpos k.
Proof.
  induction k as [|k IH] using Pos.peano_ind.
  - simpl. lia.
  - rewrite Pos.iter_succ. destruct IH as [IH1 IH2]. split.
    + rewrite Pos2Z.inj_xO, IH1, Pos2Z.inj_succ, Z.pow_succ_r by lia. lia.
    + simpl digits2_pos. rewrite !Pos2Z.inj_succ, IH2. lia.
Qed.

(** An integer below [2^53] converts exactly. *)
Lemma binary_normalize_exact p :
  Zpos p < 2 ^ 53 ->
  exists m e,
    binary_normalize prec emax (Zpos p) 0 false = S754_finite false m e
    /\ e <= 0 /\ Zpos m = Zpos p * 2 ^ (- e).
Proof.
  intros Hp. unfold binary_normalize, binary_round, shl_align.
  assert (Hd : Zdigits2 (Zpos p) <= 53) by (apply Zdigits2_le; lia).
  pose proof (Zdigits2_bounds (Zpos p) ltac:(lia)) as Hb.
  simpl Zdigits2 in Hd, Hb. rewrite Z.add_0_r.
  rewrite fexp_eq.
  destruct (Z.max (Z.pos (digits2_pos p) - 53) (-1074) - 0) as [|k|k] eqn:E.
  - exists p, 0. split; [|split; [lia|simpl; lia]].
    apply binary_round_aux_exact; [simpl Zdigits2; rewrite fexp_eq; lia|].
    unfold emax, prec. lia.
  - lia.
  - destruct (iter_xO_spec p k) as [I1 I2].
    exists (Pos.iter xO p k), (Z.max (Z.pos (digits2_pos p) - 53) (-1074)).
    split; [|split; [lia|]].
    + apply binary_round_aux_exact;
        [simpl Zdigits2; rewrite I2, fexp_eq; lia|unfold emax, prec; lia].
    + rewrite I1. f_equal. f_equal. lia.
Qed.


(** *** Conversion, division and multiplication *)

Lemma SFval_pos m e : (0 < SFval m e)%R.
Proof.
  unfold SFval. apply Rmult_lt_0_compat; [apply IZR_lt; lia|apply bpow_pos].
Qed.

Lemma of_nat_exact c :
  (0 < c)%nat -> Z.of_nat c < 2 ^ 53 ->
  exists m e, Prim2SF (JS.of_nat c) = S754_finite false m e
              /\ SFval m e = IZR (Z.of_nat c).
Proof.
  intros Hc Hlt. unfold JS.of_nat. rewrite FloatAxioms.of_uint63_spec, Stdlib.Numbers.Cyclic.Int63.Uint63.of_Z_spec.
  change Uint63Axioms.wB with 9223372036854775808.
  assert (Hlt' := Hlt). change (2 ^ 53) with 9007199254740992 in Hlt'.
  rewrite Z.mod_small by lia.
  destruct (Z.of_nat c) as [|p|p] eqn:E; try lia.
  destruct (binary_normalize_exact p Hlt) as (m & e & H1 & H2 & H3).
  exists m, e. split; [exact H1|]. unfold SFval. rewrite H3, mult_IZR.
  rewrite (IZR_pow2 (- e)) by lia. rewrite Rmult_assoc, <- bpow_add.
  replace (- e + e) with 0 by lia. unfold bpow. simpl. ring.
Qed.

Lemma SFdiv_core_spec mx ex my ey :
  exists q l,
    SFdiv_core_binary prec emax (Zpos mx) ex (Zpos my) ey
    = (q,
       Z.min (fexp prec emax (Zdigits2 (Zpos mx) + ex - (Zdigits2 (Zpos my) + ey)))
             (ex - ey), l)
    /\ 0 <= q
    /\ (IZR q * bpow (Z.min (fexp prec emax (Zdigits2 (Zpos mx) + ex
                                               - (Zdigits2 (Zpos my) + ey)))
                             (ex - ey))
        <= SFval mx ex / SFval my ey
        < (IZR q + 1) * bpow (Z.min (fexp prec emax (Zdigits2 (Zpos mx) + ex
                                               - (Zdigits2 (Zpos my) + ey)))
                             (ex - ey)))%R.
Proof.
  unfold SFdiv_core_binary.
  set (e' := Z.min _ (ex - ey)).
  set (s := ex - ey - e').
  assert (Hs : 0 <= s) by (unfold s, e'; lia).
  set (m' := match s with
             | 0 => Z.pos mx
             | Z.pos _ => Z.shiftl (Z.pos mx) s
             | Z.neg _ => 0
             end).
  assert (Hm' : m' = Zpos mx * 2 ^ s).
  { unfold m'. destruct s as [|p|p] eqn:Es; [simpl; lia| |lia].
    apply Z.shiftl_mul_pow2. lia. }
  assert (Hq : fst (Z.div_eucl m' (Zpos my)) = m' / Zpos my) by reflexivity.
  destruct (Z.div_eucl m' (Z.pos my)) as [q r]. simpl in Hq.
  exists q, (new_location (Z.pos my) r). split; [reflexivity|].
  assert (Hp : 0 < 2 ^ s) by (apply Z.pow_pos_nonneg; lia).
  assert (Hm0 : 0 <= m') by (rewrite Hm'; lia).
  pose proof (Z.mul_div_le m' (Zpos my) ltac:(lia)) as H1.
  pose proof (Z.mul_succ_div_gt m' (Zpos my) ltac:(lia)) as H2.
  rewrite <- Hq in H1, H2.
  split. { rewrite Hq. apply Z.div_pos; lia. }
  apply IZR_le in H1. apply IZR_lt in H2.
  rewrite mult_IZR in H1, H2. unfold Z.succ in H2. rewrite plus_IZR in H2.
  rewrite Hm', mult_IZR, (IZR_pow2 s Hs) in H1, H2.
  unfold SFval.
  replace ex with (s + e' + ey) by (unfold s; lia). rewrite !bpow_add.
  pose proof (bpow_pos s). pose proof (bpow_pos e'). pose proof (bpow_pos ey).
  assert (Hb : (0 < IZR (Z.pos my))%R) by (apply IZR_lt; lia).
  set (a := IZR (Z.pos mx)) in *. set (b := IZR (Z.pos my)) in *.
  set (S := bpow s) in *. set (P := bpow e') in *. set (Y := bpow ey) in *.
  replace (a * (S * P * Y) / (b * Y))%R with (a * S / b * P)%R
    by (field; lra).
  assert (Ht : (a * S / b * b = a * S)%R) by (field; lra).
  set (t := (a * S / b)%R) in *.
  split; apply Rmult_le_compat_r || apply Rmult_lt_compat_r; try lra; nra.
Qed.

Lemma Zdigits2_pos m : 0 < m -> 1 <= Zdigits2 m.
Proof.
  intros H. rewrite Zdigits2_log2 by exact H. pose proof (Z.log2_nonneg m). lia.
Qed.

(** The quotient of two positive numbers below [2^T]. *)
Lemma SFdiv_near mx ex my ey T E :
  (SFval mx ex / SFval my ey < bpow T)%R ->
  E = fexp prec emax (T + 1) -> E <= emax - prec ->
  near (SFdiv prec emax (S754_finite false mx ex) (S754_finite false my ey))
       false (SFval mx ex / SFval my ey) (3 * bpow E) E.
Proof.
  intros HT HE Hmax. unfold SFdiv.
  destruct (SFdiv_core_spec mx ex my ey) as (q & l & -> & Hq & Hlo & Hhi).
  set (e' := Z.min _ (ex - ey)) in *. cbn [xorb].
  set (tau := (SFval mx ex / SFval my ey)%R) in *.
  assert (Hdelta : Zdigits2 (Zpos mx) + ex - (Zdigits2 (Zpos my) + ey) <= T).
  { destruct (digits_R (Zpos mx) ex ltac:(lia)) as [Hx _].
    destruct (digits_R (Zpos my) ey ltac:(lia)) as [_ Hy].
    fold (SFval mx ex) in Hx. fold (SFval my ey) in Hy.
    pose proof (SFval_pos my ey) as Hy0.
    set (dx := Zdigits2 (Z.pos mx) + ex) in *.
    set (dy := Zdigits2 (Z.pos my) + ey) in *.
    destruct (Z_le_gt_dec (dx - dy) T) as [|Hgt]; [assumption|exfalso].
    assert (Hb : (bpow T <= bpow (dx - 1 - dy))%R) by (apply bpow_le; lia).
    replace (dx - 1) with ((dx - 1 - dy) + dy) in Hx by lia.
    rewrite bpow_add in Hx. pose proof (bpow_pos (dx - 1 - dy)).
    assert (Htau : (tau * SFval my ey = SFval mx ex)%R)
      by (unfold tau; field; lra).
    nra. }
  assert (Hdq : Zdigits2 q + e' <= Z.max e' T).
  { apply digits_below; [exact Hq|lra]. }
  pose proof (Zdigits2_nonneg q) as Hdq0.
  assert (He' : e' <= E).
  { subst E. unfold e'. rewrite !fexp_eq. lia. }
  eapply near_shift.
  - apply (binary_round_aux_near false q e' l _ Hq eq_refl).
    subst E. unfold e' in *. rewrite !fexp_eq in *. lia.
  - assert (B1 : (bpow e' <= bpow E)%R) by (apply bpow_le; exact He').
    assert (B2 : (bpow (Z.max e' (fexp prec emax (Zdigits2 q + e' + 1)))
                  <= bpow E)%R).
    { apply bpow_le. subst E. unfold e' in *. rewrite !fexp_eq in *. lia. }
    assert (Rabs (IZR q * bpow e' - tau) <= bpow e')%R; [|lra].
    apply Rabs_le. lra.
  - subst E. unfold e' in *. rewrite !fexp_eq in *. lia.
Qed.

(** The product of two positive numbers below [2^T]. *)
Lemma SFmul_near mx ex my ey T E :
  (SFval mx ex * SFval my ey < bpow T)%R ->
  ex + ey <= E -> fexp prec emax (T + 1) <= E -> E <= emax - prec ->
  near (SFmul prec emax (S754_finite false mx ex) (S754_finite false my ey))
       false (SFval mx ex * SFval my ey) (2 * bpow E) E.
Proof.
  intros HT He HE Hmax. unfold SFmul. cbn [xorb].
  assert (Hv : (SFval mx ex * SFval my ey
                = IZR (Zpos (mx * my)) * bpow (ex + ey))%R).
  { unfold SFval. rewrite Pos2Z.inj_mul, mult_IZR, bpow_add. ring. }
  rewrite Hv in *.
  assert (Hd : Zdigits2 (Zpos (mx * my)) + (ex + ey) <= Z.max (ex + ey) T).
  { apply digits_below; [lia|exact HT]. }
  pose proof (Zdigits2_pos (Zpos (mx * my)) ltac:(lia)) as Hd1.
  eapply near_shift.
  - apply (binary_round_aux_near false (Zpos (mx * my)) (ex + ey) loc_Exact _
             ltac:(lia) eq_refl).
    rewrite !fexp_eq in *. lia.
  - rewrite Rminus_diag, Rabs_R0, Rplus_0_l.
    apply Rmult_le_compat_l; [lra|]. apply bpow_le.
    rewrite !fexp_eq in *. lia.
  - rewrite !fexp_eq in *. lia.
Qed.


(** *** Zero, NaN and sign of primitive numbers *)

Lemma Prim2SF_zero : Prim2SF 0 = S754_zero false.
Proof. reflexivity. Qed.

Lemma is_zero_SF x :
  PrimFloat.is_zero x = true <-> exists s, Prim2SF x = S754_zero s.
Proof.
  unfold PrimFloat.is_zero. rewrite FloatAxioms.eqb_spec.
  change (Prim2SF zero) with (S754_zero false).
  destruct (Prim2SF x) as [s|s| |s m e]; simpl.
  - split; eauto.
  - destruct s; split; try discriminate; intros [? H]; discriminate.
  - split; try discriminate; intros [? H]; discriminate.
  - destruct s; split; try discriminate; intros [? H]; discriminate.
Qed.

Lemma is_nan_SF x : PrimFloat.is_nan x = true <-> Prim2SF x = S754_nan.
Proof.
  unfold PrimFloat.is_nan. rewrite FloatAxioms.eqb_spec.
  destruct (Prim2SF x) as [s|s| |s m e]; simpl.
  - split; discriminate.
  - destruct s; split; discriminate.
  - tauto.
  - unfold SFeqb, SFcompare. rewrite Z.compare_refl, Pos.compare_cont_refl.
    destruct s; split; discriminate.
Qed.

Lemma positive_SF x m e :
  Prim2SF x = S754_finite false m e ->
  PrimFloat.ltb 0 x = true /\ PrimFloat.is_nan x = false
  /\ PrimFloat.is_zero x = false.
Proof.
  intros H. split; [|split].
  - rewrite FloatAxioms.ltb_spec, H. reflexivity.
  - destruct (PrimFloat.is_nan x) eqn:E; [|reflexivity].
    apply is_nan_SF in E. congruence.
  - destruct (PrimFloat.is_zero x) eqn:E; [|reflexivity].
    apply is_zero_SF in E. destruct E as [s E]. congruence.
Qed.

Lemma zero_or_nan_mul a b :
  PrimFloat.is_zero a = true \/ PrimFloat.is_nan a = true
  \/ PrimFloat.is_zero b = true ->
  PrimFloat.is_zero (a * b) = true \/ PrimFloat.is_nan (a * b) = true.
Proof.
  rewrite !is_zero_SF, !is_nan_SF, FloatAxioms.mul_spec. unfold SF64mul.
  intros [[s ->]|[->|[s ->]]];
    destruct (Prim2SF a) as [?|?| |? ? ?], (Prim2SF b) as [?|?| |? ? ?];
    simpl; eauto.
Qed.

Lemma nan_mul a b :
  PrimFloat.is_nan a = true -> PrimFloat.is_nan (a * b) = true.
Proof.
  rewrite !is_nan_SF, FloatAxioms.mul_spec. unfold SF64mul. intros ->. reflexivity.
Qed.

Lemma zero_div c standard :
  PrimFloat.is_zero c = true -> JS.truthy standard = true ->
  PrimFloat.is_zero (c / standard) = true.
Proof.
  unfold JS.truthy. rewrite negb_true_iff, orb_false_iff.
  intros Hc [Hz Hn]. apply is_zero_SF in Hc. destruct Hc as [s Hc].
  apply is_zero_SF. rewrite FloatAxioms.div_spec, Hc. unfold SF64div.
  destruct (Prim2SF standard) as [s'|s'| |s' m e] eqn:E; simpl; eauto.
  - assert (PrimFloat.is_zero standard = true) by (apply is_zero_SF; eauto).
    congruence.
  - assert (PrimFloat.is_nan standard = true) by (apply is_nan_SF; eauto).
    congruence.
Qed.

Lemma nan_mul_r a b :
  PrimFloat.is_nan b = true -> PrimFloat.is_nan (a * b) = true.
Proof.
  rewrite !is_nan_SF, FloatAxioms.mul_spec. unfold SF64mul. intros ->.
  destruct (Prim2SF a); reflexivity.
Qed.

Lemma nan_div_r c standard :
  PrimFloat.is_nan standard = true -> PrimFloat.is_nan (c / standard) = true.
Proof.
  rewrite !is_nan_SF, FloatAxioms.div_spec. unfold SF64div. intros ->.
  destruct (Prim2SF c); reflexivity.
Qed.

(** The reciprocal of a count is a positive number. *)
Lemma reciprocal_positive c :
  (0 < c)%nat -> Z.of_nat c < 2 ^ 53 ->
  exists m e, Prim2SF (1 / JS.of_nat c) = S754_finite false m e.
Proof.
  intros Hc Hlt.
  destruct (of_nat_exact c Hc Hlt) as (mc & ec & Hof & Hval).
  rewrite FloatAxioms.div_spec, Hof.
  change (Prim2SF 1) with (S754_finite false 4503599627370496 (-52)).
  unfold SF64div.
  set (d := Zdigits2 (Z.of_nat c)).
  assert (Hd : 1 <= d <= 53).
  { split; [apply Zdigits2_pos; lia|apply Zdigits2_le; lia]. }
  destruct (digits_R (Z.of_nat c) 0 ltac:(lia)) as [D1 D2].
  fold d in D1, D2. change (bpow 0) with 1%R in D1, D2.
  rewrite Rmult_1_r in D1, D2. rewrite !Z.add_0_r in *.
  assert (Hone : SFval 4503599627370496 (-52) = 1%R).
  { unfold SFval.
    replace (IZR (Z.pos 4503599627370496)) with (bpow 52)
      by (rewrite <- IZR_pow2 by lia; reflexivity).
    rewrite <- bpow_add. reflexivity. }
  pose proof (bpow_pos (d - 1)) as P1.
  assert (Htau : (bpow (- d) < 1 / IZR (Z.of_nat c)
                  /\ 1 / IZR (Z.of_nat c) < bpow (2 - d))%R).
  { assert (E1 : (bpow (- d) * bpow d = 1)%R)
      by (rewrite <- bpow_add; replace (- d + d) with 0 by lia; reflexivity).
    assert (E2 : (bpow (2 - d) * bpow (d - 1) = 2)%R)
      by (rewrite <- bpow_add; replace (2 - d + (d - 1)) with 1 by lia;
          apply bpow_1).
    assert (Ht : (1 / IZR (Z.of_nat c) * IZR (Z.of_nat c) = 1)%R)
      by (field; lra).
    pose proof (bpow_pos (- d)). pose proof (bpow_pos (2 - d)).
    set (t := (1 / IZR (Z.of_nat c))%R) in *.
    assert (0 < t)%R by nra.
    split; nra. }
  pose proof (SFdiv_near 4503599627370496 (-52) mc ec (2 - d)
                (fexp prec emax (2 - d + 1))) as N.
  rewrite Hone, Hval in N.
  specialize (N (proj2 Htau) eq_refl ltac:(rewrite fexp_eq; unfold emax, prec; lia)).
  assert (Hsmall : (3 * bpow (fexp prec emax (2 - d + 1)) < bpow (- d))%R).
  { rewrite fexp_eq. replace (Z.max (2 - d + 1 - 53) (-1074)) with (- d + -50) by lia.
    rewrite bpow_add. pose proof (bpow_pos (- d)).
    assert (bpow (-50) < / 3)%R; [|nra].
    unfold bpow. simpl. lra. }
  pose proof (bpow_pos (- d)) as P2.
  destruct (SFdiv prec emax _ _) as [s|s| |s m e]; simpl in N; try tauto.
  - destruct N as [_ N]. rewrite Rabs_pos_eq in N by lra. lra.
  - destruct N as [-> _]. eauto.
Qed.

Lemma Rabs_le_inv a b : (Rabs a <= b -> - b <= a <= b)%R.
Proof. unfold Rabs. destruct (Rcase_abs a); lra. Qed.

Lemma SFval_100 : SFval 7036874417766400 (-46) = 100%R.
Proof.
  unfold SFval. change (Z.pos 7036874417766400) with (100 * 2 ^ 46).
  rewrite mult_IZR, (IZR_pow2 46), Rmult_assoc, <- bpow_add by lia.
  change (46 + -46) with 0. rewrite bpow_0. ring.
Qed.

Lemma bpow_m45 : (bpow (-45) < / 10000000000000)%R.
Proof. unfold bpow. simpl. lra. Qed.

Lemma bpow_m51 : (bpow (-51) < / 1000000000000000)%R.
Proof. unfold bpow. simpl. lra. Qed.

(** Rounding a positive number to tenths, half up. *)
Lemma fixed_digits_near m e :
  e < 0 ->
  0 <= fixed_digits m e 1
  /\ (Rabs (IZR (fixed_digits m e 1) - 10 * SFval m e) <= 1 / 2)%R.
Proof.
  intros He. destruct e as [|p|p]; try lia. unfold fixed_digits, SFval.
  change (10 ^ Z.of_nat 1) with 10.
  assert (Hp : 0 < 2 ^ Z.pos p) by (apply Z.pow_pos_nonneg; lia).
  pose proof (Z.mul_div_le (2 * Z.pos m * 10 + 2 ^ Z.pos p) (2 * 2 ^ Z.pos p)
                ltac:(lia)) as H1.
  pose proof (Z.mul_succ_div_gt (2 * Z.pos m * 10 + 2 ^ Z.pos p)
                (2 * 2 ^ Z.pos p) ltac:(lia)) as H2.
  split. { apply Z.div_pos; lia. }
  set (q := (2 * Z.pos m * 10 + 2 ^ Z.pos p) / (2 * 2 ^ Z.pos p)) in *.
  apply IZR_le in H1. apply IZR_lt in H2. unfold Z.succ in H2.
  rewrite ?mult_IZR, ?plus_IZR, ?mult_IZR in H1, H2.
  rewrite !(IZR_pow2 (Z.pos p)) in H1, H2 by lia.
  assert (E : (bpow (Z.neg p) * bpow (Z.pos p) = 1)%R).
  { rewrite <- bpow_add. change (Z.neg p + Z.pos p) with (- Z.pos p + Z.pos p).
    rewrite Z.add_opp_diag_l. apply bpow_0. }
  pose proof (bpow_pos (Z.pos p)). pose proof (bpow_pos (Z.neg p)).
  set (t := IZR q) in *. set (P := bpow (Z.pos p)) in *.
  set (Q := bpow (Z.neg p)) in *. set (a := IZR (Z.pos m)) in *.
  rewrite plus_IZR in H2. fold t in H2.
  apply Rabs_le.
  assert (Ha : (a = a * Q * P)%R) by (rewrite Rmult_assoc, E; ring).
  set (u := (a * Q)%R) in *. rewrite Ha in H1, H2.
  clearbody u. clear Ha E. split; nra.
Qed.

End RoundingFacts.

(** ** The quality classifier *)

Module ClassifierFacts.

Import CalculationEngine Spec.
Local Open Scope float_scope.

Lemma rule_true hpi pli a b :
  rule hpi pli a b <-> lt hpi a && lt pli b = true.
Proof. unfold rule. rewrite andb_true_iff. tauto. Qed.

Lemma rule_false hpi pli a b :
  ~ rule hpi pli a b <-> lt hpi a && lt pli b = false.
Proof. rewrite rule_true. destruct (lt hpi a && lt pli b); intuition congruence. Qed.

(** C4. For every pair of numbers the classifier returns the category of
    the ordered cascade: the first rule whose two strict bounds both hold
    decides (25/1 excellent, 50/2 good, 75/3 moderate, 100/5 poor), and
    unsuitable is returned when no rule matches. *)
Theorem C4_classifier_is_cascade (hpi pli : number) (c : QualityCategory) :
  classify hpi pli c <-> categorizeWaterQuality hpi pli = c.
Proof.
  unfold categorizeWaterQuality. split.
  - intros H; destruct H;
      repeat match goal with
             | H : rule _ _ _ _ |- _ => apply rule_true in H; rewrite H
             | H : ~ rule _ _ _ _ |- _ => apply rule_false in H; rewrite H
             end; reflexivity.
  - intros <-.
    destruct (lt hpi 25 && lt pli 1) eqn:E1.
    { apply classify_excellent, rule_true, E1. }
    destruct (lt hpi 50 && lt pli 2) eqn:E2.
    { apply classify_good; [apply rule_false, E1 | apply rule_true, E2]. }
    destruct (lt hpi 75 && lt pli 3) eqn:E3.
    { apply classify_moderate;
        [apply rule_false, E1 | apply rule_false, E2 | apply rule_true, E3]. }
    destruct (lt hpi 100 && lt pli 5) eqn:E4.
    { apply classify_poor;
        [apply rule_false, E1 | apply rule_false, E2 | apply rule_false, E3
        | apply rule_true, E4]. }
    apply classify_unsuitable; apply rule_false; assumption.
Qed.

(** A rule that matches the larger pair matches the smaller one. *)
Lemma rule_antitone h1 h2 p1 p2 a b :
  le h1 h2 -> le p1 p2 ->
  lt h2 a && lt p2 b = true -> lt h1 a && lt p1 b = true.
Proof.
  unfold le, lt. intros Hh Hp. rewrite !andb_true_iff. intros [H1 H2].
  split; eapply NumberFacts.ltb_leb_trans; eassumption.
Qed.

Lemma classifier_monotone h1 h2 p1 p2 :
  le h1 h2 -> le p1 p2 ->
  (severity (categorizeWaterQuality h1 p1)
   <= severity (categorizeWaterQuality h2 p2))%nat.
Proof.
  intros Hh Hp. unfold categorizeWaterQuality.
  pose proof (rule_antitone h1 h2 p1 p2 25 1 Hh Hp) as M1.
  pose proof (rule_antitone h1 h2 p1 p2 50 2 Hh Hp) as M2.
  pose proof (rule_antitone h1 h2 p1 p2 75 3 Hh Hp) as M3.
  pose proof (rule_antitone h1 h2 p1 p2 100 5 Hh Hp) as M4.
  destruct (lt h2 25 && lt p2 1).
  { rewrite M1 by reflexivity. simpl. lia. }
  destruct (lt h2 50 && lt p2 2).
  { rewrite M2 by reflexivity. destruct (lt h1 25 && lt p1 1); simpl; lia. }
  destruct (lt h2 75 && lt p2 3).
  { rewrite M3 by reflexivity.
    destruct (lt h1 25 && lt p1 1), (lt h1 50 && lt p1 2); simpl; lia. }
  destruct (lt h2 100 && lt p2 5).
  { rewrite M4 by reflexivity.
    destruct (lt h1 25 && lt p1 1), (lt h1 50 && lt p1 2),
             (lt h1 75 && lt p1 3); simpl; lia. }
  destruct (categorizeWaterQuality h1 p1) eqn:E;
    unfold categorizeWaterQuality in E; rewrite E; simpl; lia.
Qed.

(** C5, as the code has it. The classifier is monotone in both arguments
    for the severity order excellent < good < moderate < poor < unsuitable:
    when hpi1 <= hpi2 and pli1 <= pli2 the category of (hpi2, pli2) is at
    least as severe as that of (hpi1, pli1); with pli fixed at 0.5 the hpi
    values 24.9, 25, 49.9, 50 classify as excellent, good, good, moderate
    (the bound 50 is strict). *)
Theorem C5_classifier_monotone (hpi1 hpi2 pli1 pli2 : number) :
  le hpi1 hpi2 -> le pli1 pli2 ->
  (severity (categorizeWaterQuality hpi1 pli1)
   <= severity (categorizeWaterQuality hpi2 pli2))%nat
  /\ List.map (fun h => categorizeWaterQuality h 0.5) [24.9; 25; 49.9; 50]
     = [excellent; good; good; moderate].
Proof.
  intros Hh Hp. split.
  - apply classifier_monotone; assumption.
  - vm_compute. reflexivity.
Qed.

Lemma C5_classifier_monotone_witness :
  (le 10 60 /\ le 0.5 2.5)
  /\ (severity (categorizeWaterQuality 10 0.5)
      <= severity (categorizeWaterQuality 60 2.5))%nat
  /\ List.map (fun h => categorizeWaterQuality h 0.5) [24.9; 25; 49.9; 50]
     = [excellent; good; good; moderate].
Proof.
  split.
  - split; vm_compute; reflexivity.
  - apply (C5_classifier_monotone 10 60 0.5 2.5); vm_compute; reflexivity.
Defined.

(** C5, as the specification states its example: hpi = 50 with pli = 0.5
    is not classified good. *)
Lemma C5_boundary_50_counterexample :
  List.map (fun h => categorizeWaterQuality h 0.5) [24.9; 25; 49.9; 50]
  <> [excellent; good; good; good].
Proof. vm_compute. discriminate. Qed.

End ClassifierFacts.

(** ** The record validator *)

Module ValidatorFacts.

Import DataUpload ValidatorSpec.

(** *** Ids *)

Lemma string_of_nat_inj n m : string_of_nat n = string_of_nat m -> n = m.
Proof.
  unfold string_of_nat. intros H.
  assert (Hnil : forall k, Nat.to_uint k <> Decimal.Nil).
  { intros k Hk. pose proof (DecimalNat.Unsigned.of_to k) as E.
    rewrite Hk in E. simpl in E. subst k. discriminate. }
  apply DecimalNat.Unsigned.to_uint_inj.
  pose proof (NilZero.usu _ (Hnil n)) as E1.
  pose proof (NilZero.usu _ (Hnil m)) as E2.
  rewrite H in E1. congruence.
Qed.

Lemma sample_id_inj i j : sample_id i = sample_id j -> i = j.
Proof.
  unfold sample_id. intros H. simpl in H.
  repeat (injection H as H). apply string_of_nat_inj in H. lia.
Qed.

(** *** One row *)

Lemma check_metal_spec row index errs mv metal :
  check_metal row index (errs, mv) metal =
  if metal_ok row metal
  then (errs, set_property mv metal (parseFloat (ToString (row !! metal))))
  else (app errs [invalid_at_row (metal ++ " concentration") index], mv).
Proof.
  unfold check_metal, metal_ok.
  destruct (isNaN _ || lt _ 0)%bool; reflexivity.
Qed.

Lemma check_metals_fold row index names errs mv :
  fst (fold_left (check_metal row index) names (errs, mv)) = []
  <-> errs = [] /\ forallb (metal_ok row) names = true.
Proof.
  revert errs mv. induction names as [|metal names IH]; intros errs mv.
  - simpl. tauto.
  - cbn [fold_left forallb]. rewrite check_metal_spec.
    destruct (metal_ok row metal); rewrite IH; simpl.
    + tauto.
    + split; [intros [H _]|intros [_ H]]; [|discriminate].
      destruct errs; discriminate.
Qed.

Lemma row_errors_valid row index :
  row_errors row index = [] <-> row_valid row = true.
Proof.
  unfold row_errors, check_row, row_valid. rewrite check_metals_fold.
  unfold coordinate_errors, coordinate_ok.
  destruct (isNaN _ || lt _ (-90) || gt _ 90)%bool;
    destruct (isNaN _ || lt _ (-180) || gt _ 180)%bool; simpl;
    intuition discriminate.
Qed.

Lemma validate_row_spec clock errs smpls row index :
  validate_row clock (errs, smpls) row index =
  (app errs (row_errors row index),
   app smpls (if row_valid row then [row_sample clock row index] else [])).
Proof.
  unfold validate_row. pose proof (row_errors_valid row index) as Hv.
  unfold row_errors, row_sample, sample_id in *.
  destruct (check_row row index) as [rowErrors metalValues]; simpl in *.
  destruct rowErrors as [|e rowErrors].
  - rewrite (proj1 Hv eq_refl). rewrite app_nil_r. reflexivity.
  - destruct (row_valid row).
    + destruct Hv as [_ Hv]. discriminate (Hv eq_refl).
    + rewrite app_nil_r. reflexivity.
Qed.

(** *** The batch *)

Lemma forEach_validate_row clock data index errs smpls :
  forEach (validate_row clock) data index (errs, smpls) =
  (app errs (diagnostics_from data index),
   app smpls (accepted_from clock data index)).
Proof.
  revert index errs smpls.
  induction data as [|row rest IH]; intros index errs smpls;
    cbn [forEach diagnostics_from accepted_from].
  - rewrite !app_nil_r. reflexivity.
  - rewrite validate_row_spec, IH, <- !app_assoc. reflexivity.
Qed.

Lemma validateData_nonempty clock data :
  data <> [] ->
  errors (validateData clock data) = app (header_errors data) (diagnostics_from data 0)
  /\ samples (validateData clock data) = accepted_from clock data 0.
Proof.
  destruct data as [|firstRow rest]; [congruence|intros _].
  unfold validateData, header_errors, missing_columns. cbn [List.hd].
  rewrite forEach_validate_row.
  destruct (List.filter _ requiredColumns); simpl; split; reflexivity.
Qed.

Lemma validateData_samples clock data :
  samples (validateData clock data) = accepted_from clock data 0.
Proof.
  destruct data as [|r rest]; [reflexivity|].
  apply validateData_nonempty. discriminate.
Qed.

Lemma In_accepted_from clock data index s :
  In s (accepted_from clock data index) <->
  exists i row, data !! i = Some row /\ row_valid row = true
                /\ s = row_sample clock row (index + i).
Proof.
  revert index. induction data as [|r rest IH]; intros index; simpl.
  - split; [tauto|]. intros (i & row & H & _). discriminate.
  - rewrite in_app_iff, IH. split.
    + intros [H|(i & row & Hi & Hv & ->)].
      * destruct (row_valid r) eqn:Hv; [|destruct H].
        destruct H as [<-|[]]. exists 0, r. rewrite Nat.add_0_r. auto.
      * exists (S i), row. rewrite Nat.add_succ_r. auto.
    + intros (i & row & Hi & Hv & ->). destruct i as [|i]; simpl in Hi.
      * injection Hi as ->. rewrite Hv, Nat.add_0_r. left. left. reflexivity.
      * right. exists i, row. rewrite Nat.add_succ_r. auto.
Qed.

Lemma accepted_iff clock data i row :
  data !! i = Some row -> (accepted clock data i <-> row_valid row = true).
Proof.
  intros Hi. unfold accepted. rewrite validateData_samples. split.
  - intros (s & Hs & Hid). apply In_accepted_from in Hs.
    destruct Hs as (j & row' & Hj & Hv & ->). simpl in Hid.
    apply sample_id_inj in Hid. subst j. congruence.
  - intros Hv. exists (row_sample clock row i). split; [|reflexivity].
    apply In_accepted_from. exists i, row. auto.
Qed.



Lemma accepted_from_ids clock data index :
  List.map id (accepted_from clock data index)
  = List.map sample_id (valid_positions data index).
Proof.
  revert index. induction data as [|row rest IH]; intros index; simpl.
  - reflexivity.
  - rewrite !List.map_app, IH. destruct (row_valid row); reflexivity.
Qed.

(** C8. Every accepted sample stems from a valid row and carries the id
    [sample_<i+1>] of that row's position [i] in the original input, and
    every valid row yields such a sample; the ids of the accepted samples
    are those of the positions of the valid rows, in order, so they do not
    shift when other rows are rejected: [valid, invalid, valid] yields the
    ids [sample_1] and [sample_3]. *)
Theorem C8_ids_follow_input_position (clock : Clock) (data : list Row) :
  (forall s, In s (samples (validateData clock data)) <->
     exists i row, data !! i = Some row /\ row_valid row = true
       /\ s = row_sample clock row i
       /\ id s = "sample_" ++ string_of_nat (i + 1))
  /\ List.map id (samples (validateData clock data))
     = List.map (fun i => "sample_" ++ string_of_nat (i + 1))
         (valid_positions data 0)
  /\ List.map id (samples (validateData clock [valid_row; invalid_row; valid_row]))
     = ["sample_1"; "sample_3"].
Proof.
  split; [|split].
  - intros s. rewrite validateData_samples, In_accepted_from. simpl.
    split; intros (i & row & Hi & Hv & Hs); exists i, row.
    + subst s. auto.
    + tauto.
  - rewrite validateData_samples. apply accepted_from_ids.
  - rewrite validateData_samples. vm_compute. reflexivity.
Qed.

(** *** The wall clock *)

Lemma accepted_from_clocks clock1 clock2 data index :
  Forall2 same_but_date (accepted_from clock1 data index)
                        (accepted_from clock2 data index).
Proof.
  revert index. induction data as [|row rest IH]; intros index; simpl.
  - constructor.
  - destruct (row_valid row); simpl; [constructor|]; auto.
    repeat split.
Qed.

Lemma sample_date_ext clock1 clock2 row index :
  dated row \/ split_T_0 (clock1 index) = split_T_0 (clock2 index) ->
  sample_date clock1 row index = sample_date clock2 row index.
Proof.
  unfold sample_date, dated. intros [(s & -> & Hs)| ->].
  - destruct s; [congruence|reflexivity].
  - reflexivity.
Qed.

Lemma accepted_from_ext clock1 clock2 data index :
  (forall i row, data !! i = Some row ->
     dated row \/ split_T_0 (clock1 (index + i)) = split_T_0 (clock2 (index + i))) ->
  accepted_from clock1 data index = accepted_from clock2 data index.
Proof.
  revert index. induction data as [|row rest IH]; intros index H; simpl.
  - reflexivity.
  - f_equal.
    + destruct (row_valid row); [|reflexivity].
      unfold row_sample. f_equal. f_equal. apply sample_date_ext.
      specialize (H 0 row eq_refl). rewrite Nat.add_0_r in H. exact H.
    + apply IH. intros i r Hi. specialize (H (S i) r Hi).
      rewrite Nat.add_succ_r in H. exact H.
Qed.

Lemma validateData_ext clock1 clock2 data :
  (forall i row, data !! i = Some row ->
     dated row \/ split_T_0 (clock1 i) = split_T_0 (clock2 i)) ->
  validateData clock1 data = validateData clock2 data.
Proof.
  intros H. destruct data as [|firstRow rest]; [reflexivity|].
  unfold validateData. rewrite !forEach_validate_row.
  rewrite (accepted_from_ext clock1 clock2 (firstRow :: rest) 0 H).
  reflexivity.
Qed.

(** C1, as the code has it. Validation reads the wall clock for the rows
    without a [sampleDate]; apart from that it is a function of its input:
    two runs on the same rows yield the same diagnostics and validity flag
    and the same accepted samples in the same order, equal in id,
    coordinates and metals; the samples are equal in [sampleDate] too, and
    the two outputs identical, when every row carries a non-empty
    [sampleDate] or the two runs read the same calendar date. *)
Theorem C1_validation_deterministic_up_to_clock
    (clock1 clock2 : Clock) (data : list Row) :
  errors (validateData clock1 data) = errors (validateData clock2 data)
  /\ isValid (validateData clock1 data) = isValid (validateData clock2 data)
  /\ Forall2 same_but_date (samples (validateData clock1 data))
                           (samples (validateData clock2 data))
  /\ (Forall dated data -> validateData clock1 data = validateData clock2 data)
  /\ ((forall i, split_T_0 (clock1 i) = split_T_0 (clock2 i)) ->
      validateData clock1 data = validateData clock2 data).
Proof.
  repeat split.
  - destruct data as [|firstRow rest]; [reflexivity|].
    unfold validateData. rewrite !forEach_validate_row. reflexivity.
  - destruct data as [|firstRow rest]; [reflexivity|].
    unfold validateData. rewrite !forEach_validate_row. reflexivity.
  - rewrite !validateData_samples. apply accepted_from_clocks.
  - intros Hd. apply validateData_ext. intros i row Hi. left.
    rewrite List.Forall_forall in Hd. apply Hd.
    apply list_elem_of_In, list_elem_of_lookup. eauto.
  - intros Hc. apply validateData_ext. intros i row _. right. apply Hc.
Qed.

(** C1, as the specification states it: two runs on the same single row,
    one on 6 May and one on 7 May, differ in the accepted sample's date. *)
Lemma C1_clock_counterexample :
  validateData morning [undated_row] <> validateData next_day [undated_row].
Proof. vm_compute. discriminate. Qed.

(** *** The [sampleDate] cell *)

Lemma metal_names_not_date metal : In metal metal_names -> metal <> "sampleDate".
Proof.
  intros H ->. simpl in H.
  repeat (destruct H as [H|H]; [discriminate|]). destruct H.
Qed.

Lemma check_metals_ext r r' index names st :
  (forall metal, In metal names -> r !! metal = r' !! metal) ->
  fold_left (check_metal r index) names st =
  fold_left (check_metal r' index) names st.
Proof.
  revert st. induction names as [|metal names IH]; intros st H; simpl.
  - reflexivity.
  - rewrite IH by (intros m Hm; apply H; right; exact Hm).
    f_equal. unfold check_metal. rewrite (H metal) by (left; reflexivity).
    reflexivity.
Qed.

Lemma check_row_date_content r r' index :
  same_but_date_content r r' -> check_row r index = check_row r' index.
Proof.
  intros [H _]. unfold check_row, coordinate_errors.
  rewrite (H "latitude"), (H "longitude") by discriminate.
  apply check_metals_ext. intros m Hm. apply H, metal_names_not_date, Hm.
Qed.

Lemma row_valid_date_content r r' :
  same_but_date_content r r' -> row_valid r = row_valid r'.
Proof.
  intros H. pose proof (row_errors_valid r 0) as H1.
  pose proof (row_errors_valid r' 0) as H2. unfold row_errors in *.
  rewrite (check_row_date_content r r' 0 H) in H1.
  destruct (row_valid r), (row_valid r'); try reflexivity.
  - symmetry. apply H2, H1. reflexivity.
  - apply H1, H2. reflexivity.
Qed.

Lemma diagnostics_date_content data data' index :
  Forall2 same_but_date_content data data' ->
  diagnostics_from data index = diagnostics_from data' index.
Proof.
  intros H. revert index. induction H as [|r r' rest rest' Hr _ IH];
    intros index; simpl; [reflexivity|].
  unfold row_errors. rewrite (check_row_date_content r r' index Hr), IH.
  reflexivity.
Qed.

Lemma header_date_content data data' :
  Forall2 same_but_date_content data data' ->
  header_errors data = header_errors data'.
Proof.
  intros H. unfold header_errors, missing_columns.
  assert (E : forall col,
             has_column (List.hd ∅ data) col = has_column (List.hd ∅ data') col).
  { intros col. unfold has_column. apply bool_decide_ext.
    destruct H as [|r r' ? ? [Hk Hd] _]; simpl; [tauto|].
    destruct (String.eqb_spec col "sampleDate") as [->|Hne]; [exact Hd|].
    rewrite (Hk col Hne). tauto. }
  induction requiredColumns as [|c cols IH]; [reflexivity|].
  assert (F : List.filter (fun col => negb (has_column (List.hd ∅ data) col)) (c :: cols)
            = List.filter (fun col => negb (has_column (List.hd ∅ data') col)) (c :: cols)).
  { apply List.filter_ext. intros col. rewrite E. reflexivity. }
  rewrite F. reflexivity.
Qed.

Lemma errors_date_content clock clock' data data' :
  Forall2 same_but_date_content data data' ->
  errors (validateData clock data) = errors (validateData clock' data').
Proof.
  intros H. destruct H as [|r r' rest rest' Hr Hrest]; [reflexivity|].
  rewrite (proj1 (validateData_nonempty clock (r :: rest) ltac:(discriminate))).
  rewrite (proj1 (validateData_nonempty clock' (r' :: rest') ltac:(discriminate))).
  rewrite (header_date_content (r :: rest) (r' :: rest')) by (constructor; assumption).
  rewrite (diagnostics_date_content (r :: rest) (r' :: rest')) by (constructor; assumption).
  reflexivity.
Qed.

Lemma accepted_date_content clock clock' data data' i :
  Forall2 same_but_date_content data data' ->
  (accepted clock data i <-> accepted clock' data' i).
Proof.
  intros H. destruct (data !! i) as [row|] eqn:Hi.
  - destruct (Forall2_lookup_l _ _ _ _ _ H Hi) as (row' & Hi' & Hr).
    rewrite (accepted_iff clock data i row Hi).
    rewrite (accepted_iff clock' data' i row' Hi').
    rewrite (row_valid_date_content row row' Hr). tauto.
  - assert (Hi' : data' !! i = None).
    { apply lookup_ge_None. apply lookup_ge_None in Hi.
      rewrite <- (Forall2_length _ _ _ H). exact Hi. }
    unfold accepted. rewrite !validateData_samples.
    split; intros (s & Hs & Hid); apply In_accepted_from in Hs;
      destruct Hs as (j & row & Hj & _ & ->); simpl in Hid;
      apply sample_id_inj in Hid; subst j; congruence.
Qed.

Lemma coordinate_errors_diagnostic row index :
  Forall row_diagnostic (coordinate_errors row index).
Proof.
  unfold coordinate_errors. apply Forall_app. split.
  - destruct (_ || _ || _)%bool; repeat constructor.
  - destruct (_ || _ || _)%bool; repeat constructor.
Qed.

Lemma check_metals_diagnostic row index names errs mv :
  (forall m, In m names -> In m metal_names) ->
  Forall row_diagnostic errs ->
  Forall row_diagnostic (fst (fold_left (check_metal row index) names (errs, mv))).
Proof.
  revert errs mv. induction names as [|metal names IH]; intros errs mv Hn He.
  - exact He.
  - cbn [fold_left]. rewrite check_metal_spec.
    destruct (metal_ok row metal); apply IH;
      try (intros m Hm; apply Hn; right; exact Hm); try exact He.
    apply Forall_app. split; [exact He|].
    constructor; [|constructor]. apply diagnostic_metal, Hn. left. reflexivity.
Qed.

Lemma diagnostics_from_diagnostic data index :
  Forall row_diagnostic (diagnostics_from data index).
Proof.
  revert index. induction data as [|row rest IH]; intros index; simpl.
  - constructor.
  - apply Forall_app. split; [|apply IH].
    apply check_metals_diagnostic; [auto|apply coordinate_errors_diagnostic].
Qed.

Lemma missing_columns_spec data col :
  In col (missing_columns data) <->
  In col requiredColumns /\ List.hd ∅ data !! col = None.
Proof.
  unfold missing_columns. rewrite List.filter_In. unfold has_column.
  rewrite negb_true_iff, bool_decide_eq_false, <- eq_None_not_Some. tauto.
Qed.

(** C10. Validation never inspects what the [sampleDate] cell holds: a
    non-empty [sampleDate] of a valid row, calendar date or not, is stored
    verbatim on its sample; replacing the contents of [sampleDate] cells
    changes neither the diagnostics nor which rows are accepted; the
    diagnostics are the one on the header, which lists [sampleDate] exactly
    when the first row has no such cell, followed by those of the rows, each
    an invalid latitude, longitude or metal concentration; and an absent or
    empty cell, and only that, takes the date of the wall clock. *)
Theorem C10_sampleDate_content_not_inspected (clock : Clock) (data : list Row) :
  (forall i row s,
     data !! i = Some row -> row_valid row = true ->
     row !! "sampleDate" = Some s -> s <> "" ->
     In (row_sample clock row i) (samples (validateData clock data))
     /\ sampleDate (row_sample clock row i) = s)
  /\ (forall clock' data',
        Forall2 same_but_date_content data data' ->
        errors (validateData clock data) = errors (validateData clock' data')
        /\ forall i, accepted clock data i <-> accepted clock' data' i)
  /\ (errors (validateData clock data) =
      match data with
      | [] => ["No data found in the uploaded file"]
      | _ :: _ => app (header_errors data) (diagnostics_from data 0)
      end
      /\ (In "sampleDate" (missing_columns data) <->
          List.hd ∅ data !! "sampleDate" = None)
      /\ Forall row_diagnostic (diagnostics_from data 0))
  /\ (forall i row,
        sampleDate (row_sample clock row i) =
        match row !! "sampleDate" with
        | Some (String c s) => String c s
        | Some EmptyString | None => split_T_0 (clock i)
        end)
  /\ (errors (validateData clock [odd_date_row]) = []
      /\ List.map sampleDate (samples (validateData clock [odd_date_row]))
         = ["not a date"]).
Proof.
  split; [|split; [|split; [|split]]].
  - intros i row s Hi Hv Hs Hne. split.
    + rewrite validateData_samples. apply In_accepted_from.
      exists i, row. auto.
    + simpl. unfold sample_date. rewrite Hs.
      destruct s; [congruence|reflexivity].
  - intros clock' data' H. split.
    + apply errors_date_content, H.
    + intros i. apply accepted_date_content, H.
  - split; [|split].
    + destruct data as [|r rest]; [reflexivity|].
      apply validateData_nonempty. discriminate.
    + rewrite missing_columns_spec. simpl. tauto.
    + apply diagnostics_from_diagnostic.
  - intros i row. simpl. unfold sample_date.
    destruct (row !! "sampleDate") as [[|c s]|]; reflexivity.
  - split.
    + vm_compute. reflexivity.
    + vm_compute. reflexivity.
Qed.

(** C10, against "no diagnostic is ever produced for the [sampleDate]
    field": a file whose first row has no [sampleDate] column is refused
    with a diagnostic that names [sampleDate], although every checked cell
    of the row passes and its sample, dated by the wall clock, is among the
    samples. *)
Lemma C10_missing_column_counterexample :
  row_valid undated_row = true
  /\ errors (validateData morning [undated_row])
     = ["Missing required columns: sampleDate"]
  /\ isValid (validateData morning [undated_row]) = false
  /\ List.map sampleDate (samples (validateData morning [undated_row]))
     = ["2024-05-06"].
Proof. vm_compute. repeat split. Qed.

End ValidatorFacts.

(** ** The index calculator *)

Module CalculatorFacts.

Import CalculationEngine Spec Examples RoundingFacts.
Local Open Scope float_scope.

Lemma truthy_entry_Some table metal v :
  truthy_entry table metal = Some v ->
  truthy v = true \/ PrimFloat.is_nan v = true.
Proof.
  unfold truthy_entry. destruct (table !! metal) as [w|].
  - destruct (truthy w) eqn:E; [|discriminate]. intros [= <-]. left. exact E.
  - destruct (inherited metal); [|discriminate]. intros [= <-]. right.
    reflexivity.
Qed.

Lemma pli_step_degenerate p k entry :
  degenerate p -> degenerate (fst (pli_step (p, k) entry)).
Proof.
  intros H. destruct entry as [metal c]. unfold pli_step.
  destruct (truthy_entry WHO_STANDARDS metal); [|exact H].
  apply zero_or_nan_mul. destruct H; auto.
Qed.

Lemma pli_fold_degenerate metals : forall p k,
  degenerate p -> degenerate (fst (fold_left pli_step metals (p, k))).
Proof.
  induction metals as [|entry rest IH]; intros p k H; [exact H|].
  cbn [fold_left]. pose proof (pli_step_degenerate p k entry H) as H'.
  destruct (pli_step (p, k) entry) as [p' k']. apply IH, H'.
Qed.

Lemma pli_step_count p k entry :
  (k <= snd (pli_step (p, k) entry) <= S k)%nat.
Proof.
  destruct entry as [metal c]. unfold pli_step.
  destruct (truthy_entry WHO_STANDARDS metal); simpl; lia.
Qed.

Lemma pli_fold_count metals : forall p k,
  (k <= snd (fold_left pli_step metals (p, k)) <= k + length metals)%nat.
Proof.
  induction metals as [|entry rest IH]; intros p k; [simpl; lia|].
  cbn [fold_left length]. pose proof (pli_step_count p k entry) as H.
  destruct (pli_step (p, k) entry) as [p' k']. simpl in H.
  specialize (IH p' k'). lia.
Qed.

Lemma pli_fold_matched_zero metals : forall p k,
  matched_zero metals ->
  degenerate (fst (fold_left pli_step metals (p, k)))
  /\ (k < snd (fold_left pli_step metals (p, k)))%nat.
Proof.
  induction metals as [|[metal c] rest IH]; intros p k (m & c0 & s & Hin & Hs & Hz).
  - destruct Hin.
  - cbn [fold_left]. destruct Hin as [[= -> ->]|Hin].
    + assert (E : pli_step (p, k) (m, c0) = (p * (c0 / s), S k)).
      { unfold pli_step. rewrite Hs. reflexivity. }
      rewrite E. split.
      * apply pli_fold_degenerate.
        destruct (truthy_entry_Some _ _ _ Hs) as [Ht|Hn].
        -- apply zero_or_nan_mul. right. right.
           apply zero_div; [exact Hz|exact Ht].
        -- right. apply nan_mul_r, nan_div_r, Hn.
      * pose proof (pli_fold_count rest (p * (c0 / s)) (S k)) as H.
        unfold number in *. lia.
    + pose proof (pli_step_count p k (metal, c)) as H.
      destruct (pli_step (p, k) (metal, c)) as [p' k']. simpl in H.
      destruct (IH p' k') as [H1 H2]; [exists m, c0, s; auto|].
      split; [exact H1|lia].
Qed.

Section Engine.

Variable pow_approx : number -> number -> number.

(** The doubled panel: every sub-index is exactly 200, the product of the
    nine contamination factors is exactly 512, so the HPI is exactly 200
    and the PLI is [Math.pow(512, 1/9)], which the engine approximates. *)
Lemma doubled_panel_indices :
  calculateHPI doubled_panel = 200
  /\ fold_left pli_step doubled_panel (1, O) = (512, 9%nat)
  /\ calculatePLI pow_approx doubled_panel = pow_approx 512 (1 / 9)
  /\ calculateCF doubled_panel = 2.
Proof.
  repeat split; vm_compute; reflexivity.
Qed.

Lemma performCalculations_lookup sel batch i s :
  batch !! i = Some s ->
  hmpiResults <$> (performCalculations pow_approx sel batch !! i)
  = Some (Some (sample_results pow_approx sel s)).
Proof.
  intros H. unfold performCalculations.
  change (List.map ?f ?l) with (f <$> l).
  rewrite list_lookup_fmap, H. reflexivity.
Qed.

(** C2, as the code has it. The attached results are a function of the
    sample's metals and of the component's index selection: under one
    selection, two samples with equal metal panels receive equal hpi, pli,
    cf and qualityCategory, whatever their other fields, their batch and
    their position in it; an index that is not selected is reported as 0,
    and the category is computed from the reported hpi and pli. *)
Theorem C2_results_from_metals_and_selection
    (sel : SelectedIndices) (batch1 batch2 : list WaterSample)
    (i j : nat) (s1 s2 : WaterSample) :
  batch1 !! i = Some s1 -> batch2 !! j = Some s2 ->
  metals s1 = metals s2 ->
  hmpiResults <$> (performCalculations pow_approx sel batch1 !! i)
  = hmpiResults <$> (performCalculations pow_approx sel batch2 !! j)
  /\ hmpiResults <$> (performCalculations pow_approx sel batch1 !! i)
     = Some (Some
         {| hpi := if sel_hpi sel then calculateHPI (metals s1) else 0;
            pli := if sel_pli sel then calculatePLI pow_approx (metals s1) else 0;
            cf := if sel_cf sel then calculateCF (metals s1) else 0;
            qualityCategory :=
              categorizeWaterQuality
                (if sel_hpi sel then calculateHPI (metals s1) else 0)
                (if sel_pli sel then calculatePLI pow_approx (metals s1) else 0) |}).
Proof.
  intros H1 H2 Hm.
  rewrite (performCalculations_lookup sel batch1 i s1 H1).
  rewrite (performCalculations_lookup sel batch2 j s2 H2).
  unfold sample_results. rewrite Hm. split; reflexivity.
Qed.

Lemma is_zero_not_nan b : PrimFloat.is_zero b = true -> PrimFloat.is_nan b = false.
Proof.
  intros H. apply is_zero_SF in H. destruct H as [s H].
  destruct (PrimFloat.is_nan b) eqn:E; [|reflexivity].
  apply is_nan_SF in E. congruence.
Qed.

Lemma is_zero_not_infinity b :
  PrimFloat.is_zero b = true -> PrimFloat.is_infinity b = false.
Proof.
  intros H. apply is_zero_SF in H. destruct H as [s H].
  unfold PrimFloat.is_infinity. rewrite FloatAxioms.eqb_spec, abs_spec, H.
  reflexivity.
Qed.

Lemma Math_pow_zero_base b e m k :
  PrimFloat.is_zero b = true -> Prim2SF e = S754_finite false m k ->
  PrimFloat.is_zero (Math_pow pow_approx b e) = true.
Proof.
  intros Hb He. destruct (positive_SF e m k He) as (H1 & H2 & H3).
  unfold Math_pow. rewrite H2, H3, (is_zero_not_nan b Hb),
    (is_zero_not_infinity b Hb), Hb, H1.
  destruct (PrimFloat.get_sign b), (is_odd_integer e); reflexivity.
Qed.

Lemma Math_pow_nan_base b e m k :
  PrimFloat.is_nan b = true -> Prim2SF e = S754_finite false m k ->
  PrimFloat.is_nan (Math_pow pow_approx b e) = true.
Proof.
  intros Hb He. destruct (positive_SF e m k He) as (H1 & H2 & H3).
  unfold Math_pow. rewrite H2, H3, Hb. reflexivity.
Qed.

(** C6, as the code has it. When a metal with a reference standard has
    concentration 0 (and the panel has fewer than 2^53 entries), the PLI is
    0 as long as the running product of the contamination factors has not
    degenerated to NaN; it degenerates when a factor or the running product
    is infinite where the zero factor meets it (an overflow, or an infinite
    concentration), and then the PLI is NaN. *)
Theorem C6_zero_concentration_collapses_PLI (metals : MetalPanel) :
  matched_zero metals ->
  (Z.of_nat (length metals) < 2 ^ 53)%Z ->
  if PrimFloat.is_nan (pli_product metals)
  then PrimFloat.is_nan (calculatePLI pow_approx metals) = true
  else PrimFloat.is_zero (calculatePLI pow_approx metals) = true.
Proof.
  intros Hz Hlen. unfold calculatePLI, pli_product.
  destruct (pli_fold_matched_zero metals 1 O Hz) as [Hd Hk].
  pose proof (pli_fold_count metals 1 O) as Hc.
  set (st := fold_left pli_step metals _) in *. clearbody st.
  destruct st as [product count].
  cbn [fst snd] in *.
  destruct (of_nat_exact count ltac:(lia) ltac:(lia)) as (mc & ec & Hof & _).
  destruct (positive_SF _ _ _ Hof) as (Hgt & _ & _).
  unfold gt. rewrite Hgt.
  destruct (reciprocal_positive count ltac:(lia) ltac:(lia)) as (m & e & He).
  destruct (PrimFloat.is_nan product) eqn:Hn.
  - eapply Math_pow_nan_base; eassumption.
  - destruct Hd as [Hd|Hd]; [|congruence].
    eapply Math_pow_zero_base; eassumption.
Qed.

End Engine.

Lemma C2_results_from_metals_and_selection_witness :
  let s2 := {| id := "sample_7"; latitude := 0; longitude := 0;
               sampleDate := "2020-01-01"; metals := doubled_panel;
               hmpiResults := None |} in
  ([doubled_sample] !! 0%nat = Some doubled_sample
   /\ [s2; s2] !! 1%nat = Some s2
   /\ metals doubled_sample = metals s2)
  /\ hmpiResults <$> (performCalculations series_pow initial_selection [doubled_sample] !! 0%nat)
     = hmpiResults <$> (performCalculations series_pow initial_selection [s2; s2] !! 1%nat).
Proof.
  intros s2. split; [repeat split|].
  apply (C2_results_from_metals_and_selection series_pow initial_selection
           [doubled_sample] [s2; s2] 0 1 doubled_sample s2);
    reflexivity.
Defined.

(** C2, as the specification states it: the same sample receives a
    different cf under the initial selection (cf not selected, reported as
    0) and with every index selected (cf = 2). *)
Lemma C2_selection_counterexample :
  sample_results series_pow initial_selection doubled_sample
  <> sample_results series_pow every_index doubled_sample.
Proof. vm_compute. discriminate. Qed.

Lemma C6_zero_concentration_collapses_PLI_witness :
  (matched_zero zero_cadmium_panel
   /\ (Z.of_nat (length zero_cadmium_panel) < 2 ^ 53)%Z)
  /\ PrimFloat.is_zero (calculatePLI series_pow zero_cadmium_panel) = true.
Proof.
  assert (H : matched_zero zero_cadmium_panel).
  { exists "Cd"%string, 0, 0.003. split; [right; left; reflexivity|].
    split; vm_compute; reflexivity. }
  assert (L : (Z.of_nat (length zero_cadmium_panel) < 2 ^ 53)%Z)
    by (vm_compute; reflexivity).
  split; [split; assumption|].
  exact (C6_zero_concentration_collapses_PLI series_pow zero_cadmium_panel H L).
Defined.

(** C6, as the specification states it: arsenic at 1e308 mg/L overflows
    its contamination factor to infinity, the zero factor of cadmium turns
    the product to NaN, and the PLI is NaN, not 0. *)
Lemma C6_overflow_counterexample :
  List.map metals
    (DataUpload.samples
       (DataUpload.validateData ValidatorSpec.morning
          [ValidatorSpec.arsenic_row "1e308"]))
  = [overflowing_panel]
  /\ matched_zero overflowing_panel
  /\ calculatePLI series_pow overflowing_panel = NaN.
Proof.
  split; [vm_compute; reflexivity|]. split.
  - exists "Cd"%string, 0, 0.003. split; [right; left; reflexivity|].
    split; vm_compute; reflexivity.
  - vm_compute. reflexivity.
Qed.

End CalculatorFacts.

(** ** The quality distribution *)

Module DistributionFacts.

Import CalculationEngine ResultsVisualization DistributionSpec.
Import Rounding RoundingFacts.

Section Counts.

Local Open Scope Z_scope.

Lemma percent_tenths c n :
  (0 < c <= n)%nat -> Z.of_nat n < 2 ^ 53 ->
  toFixed (percent c n) 1 = render_fixed (fixed_tenths (percent c n)) 1
  /\ 0 <= fixed_tenths (percent c n)
  /\ (Rabs (IZR (fixed_tenths (percent c n))
            - 1000 * (IZR (Z.of_nat c) / IZR (Z.of_nat n)))
      <= 1 / 2 + / 1000)%R.
Proof.
  intros [Hc Hcn] Hn.
  destruct (of_nat_exact c Hc ltac:(lia)) as (mc & ec & Sc & Vc).
  destruct (of_nat_exact n ltac:(lia) Hn) as (mn & en & Sn & Vn).
  assert (Hc' : (1 <= IZR (Z.of_nat c))%R) by (apply IZR_le; lia).
  assert (Hcn' : (IZR (Z.of_nat c) <= IZR (Z.of_nat n))%R) by (apply IZR_le; lia).
  set (tau := (IZR (Z.of_nat c) / IZR (Z.of_nat n))%R).
  assert (Htau : (0 < tau <= 1)%R).
  { assert (E : (tau * IZR (Z.of_nat n) = IZR (Z.of_nat c))%R)
      by (unfold tau; field; lra).
    assert (0 < tau)%R by (unfold tau; apply Rdiv_lt_0_compat; lra).
    split; [assumption|nra]. }
  pose proof (SFdiv_near mc ec mn en 1 (fexp prec emax (1 + 1))) as N1.
  rewrite Vc, Vn in N1. fold tau in N1.
  specialize (N1 ltac:(rewrite bpow_1; lra) eq_refl
                 ltac:(rewrite fexp_eq; unfold emax, prec; lia)).
  change (fexp prec emax (1 + 1)) with (-51) in N1.
  pose proof bpow_m45 as B45. pose proof bpow_m51 as B51.
  pose proof (bpow_pos (-45)). pose proof (bpow_pos (-51)).
  unfold toFixed, fixed_tenths, percent.
  rewrite FloatAxioms.mul_spec, FloatAxioms.div_spec, Sc, Sn.
  change (Prim2SF 100) with (S754_finite false 7036874417766400 (-46)).
  unfold SF64div, SF64mul.
  destruct (SFdiv prec emax (S754_finite false mc ec) (S754_finite false mn en))
    as [s1|s1| |s1 m1 e1]; cbn [near] in N1; try tauto.
  - destruct N1 as [-> N1]. simpl.
    split; [reflexivity|]. split; [lia|].
    rewrite Rabs_pos_eq in N1 by lra.
    rewrite Rminus_0_l, Rabs_Ropp, Rabs_pos_eq by lra. lra.
  - destruct N1 as (-> & He1 & N1). fold (SFval m1 e1) in N1.
    apply Rabs_le_inv in N1.
    pose proof (SFmul_near m1 e1 7036874417766400 (-46) 7 (-45)) as N2.
    rewrite SFval_100 in N2.
    assert (B7 : bpow 7 = 128%R) by (unfold bpow; simpl; lra).
    specialize (N2 ltac:(rewrite B7; lra) ltac:(lia)
                   ltac:(rewrite fexp_eq; lia) ltac:(unfold emax, prec; lia)).
    destruct (SFmul prec emax (S754_finite false m1 e1)
                (S754_finite false 7036874417766400 (-46)))
      as [s2|s2| |s2 m2 e2]; cbn [near] in N2; try tauto.
    + destruct N2 as [-> N2]. simpl.
      split; [reflexivity|]. split; [lia|].
      pose proof (SFval_pos m1 e1).
      rewrite Rabs_pos_eq in N2 by lra.
      rewrite Rminus_0_l, Rabs_Ropp, Rabs_pos_eq by lra. lra.
    + destruct N2 as (-> & He2 & N2). fold (SFval m2 e2) in N2.
      apply Rabs_le_inv in N2.
      destruct (fixed_digits_near m2 e2 ltac:(lia)) as [F0 F1].
      apply Rabs_le_inv in F1.
      split; [|split; [exact F0|apply Rabs_le; split; lra]].
      destruct e2 as [|p|p]; try lia.
      cbn [append]. rewrite Z.mul_0_r. reflexivity.
Qed.

End Counts.

Lemma category_eqb_eq a b : category_eqb a b = true <-> a = b.
Proof. destruct a, b; simpl; split; congruence. Qed.

Lemma bump_keys acc c :
  (In c (List.map fst acc) /\ List.map fst (bump acc c) = List.map fst acc)
  \/ (~ In c (List.map fst acc)
      /\ List.map fst (bump acc c) = (List.map fst acc ++ [c])%list).
Proof.
  induction acc as [|[c' n] acc IH]; simpl.
  - right. split; [tauto|reflexivity].
  - destruct (category_eqb c' c) eqn:E.
    + apply category_eqb_eq in E. subst. left. simpl. auto.
    + assert (c' <> c) by (intros ->; destruct c; discriminate).
      destruct IH as [[H1 H2]|[H1 H2]]; simpl; rewrite H2.
      * left. auto.
      * right. split; [tauto|reflexivity].
Qed.

Lemma bump_well_formed acc c total :
  well_formed acc total -> well_formed (bump acc c) (S total).
Proof.
  intros (Hk & Hp & Hs). split; [|split].
  - destruct (bump_keys acc c) as [[_ ->]|[Hn ->]]; [exact Hk|].
    apply NoDup_app. split; [exact Hk|]. split.
    + intros x Hx Hc. apply list_elem_of_singleton in Hc. subst x.
      apply Hn, list_elem_of_In, Hx.
    + apply NoDup_singleton.
  - clear Hk Hs. induction acc as [|[c' n] acc IH]; simpl.
    + repeat constructor.
    + inversion Hp; subst. destruct (category_eqb c' c); simpl.
      * constructor; [lia|assumption].
      * constructor; [assumption|apply IH; assumption].
  - subst total. clear. induction acc as [|[c' n] acc IH]; simpl.
    + reflexivity.
    + destruct (category_eqb c' c); simpl; lia.
Qed.

Lemma distribution_well_formed processed : forall acc total,
  Forall (fun s => is_Some (hmpiResults s)) processed ->
  well_formed acc total ->
  well_formed (fold_left distribution_step processed acc)
              (total + length processed).
Proof.
  induction processed as [|s rest IH]; intros acc total Hall Hwf; simpl.
  - rewrite Nat.add_0_r. exact Hwf.
  - inversion Hall as [|? ? [r Hr] Hrest]; subst.
    replace (total + S (length rest))%nat with (S total + length rest)%nat by lia.
    apply IH; [exact Hrest|]. unfold distribution_step. rewrite Hr.
    apply bump_well_formed, Hwf.
Qed.

Lemma processedSamples_results samples :
  Forall (fun s => is_Some (hmpiResults s)) (processedSamples samples).
Proof.
  apply List.Forall_forall. intros s Hs. unfold processedSamples in Hs.
  apply List.filter_In in Hs. destruct Hs as [_ Hs].
  apply bool_decide_eq_true in Hs. exact Hs.
Qed.

Lemma categories_at_most_five (keys : list QualityCategory) :
  NoDup keys -> (length keys <= 5)%nat.
Proof.
  intros H.
  change 5%nat with (length [excellent; good; moderate; poor; unsuitable]).
  apply NoDup_incl_length; [apply NoDup_ListNoDup, H|].
  intros c _. destruct c; simpl; tauto.
Qed.

Lemma le_sum_nat (l : list nat) c : In c l -> (c <= sum_nat l)%nat.
Proof.
  induction l as [|x l IH]; simpl; [tauto|]. intros [->|H]; [lia|].
  specialize (IH H). lia.
Qed.

Lemma counts_well_formed samples :
  well_formed (fold_left distribution_step (processedSamples samples) [])
              (length (processedSamples samples)).
Proof.
  apply (distribution_well_formed (processedSamples samples) [] 0).
  - apply processedSamples_results.
  - split; [constructor|]. split; [constructor|reflexivity].
Qed.

Section Sums.

Local Open Scope Z_scope.

Lemma sum_tenths_near (n : nat) (l : list nat) :
  Z.of_nat n < 2 ^ 53 ->
  Forall (fun c => 0 < c <= n)%nat l ->
  (Rabs (IZR (sum_Z (List.map (fun c => fixed_tenths (percent c n)) l))
         - 1000 * (IZR (Z.of_nat (sum_nat l)) / IZR (Z.of_nat n)))
   <= (1 / 2 + / 1000) * IZR (Z.of_nat (length l)))%R.
Proof.
  intros Hn Hall. induction Hall as [|c l Hc _ IH].
  - cbn [List.map sum_Z sum_nat fold_right length].
    change (Z.of_nat 0) with 0.
    replace (0 - 1000 * (0 / IZR (Z.of_nat n)))%R with 0%R
      by (unfold Rdiv; ring).
    rewrite Rabs_R0. lra.
  - destruct (percent_tenths c n Hc Hn) as (_ & _ & Ht).
    cbn [List.map sum_Z sum_nat fold_right length].
    fold (sum_Z (List.map (fun c => fixed_tenths (percent c n)) l)).
    fold (sum_nat l).
    rewrite Nat2Z.inj_succ, Nat2Z.inj_add. unfold Z.succ.
    rewrite !plus_IZR.
    assert (Hn0 : (1 <= IZR (Z.of_nat n))%R) by (apply IZR_le; lia).
    apply Rabs_le_inv in Ht, IH. apply Rabs_le.
    set (t := IZR (fixed_tenths (percent c n))) in *.
    set (T := IZR (sum_Z _)) in *.
    replace (1000 * ((IZR (Z.of_nat c) + IZR (Z.of_nat (sum_nat l)))
                     / IZR (Z.of_nat n)))%R
      with (1000 * (IZR (Z.of_nat c) / IZR (Z.of_nat n))
            + 1000 * (IZR (Z.of_nat (sum_nat l)) / IZR (Z.of_nat n)))%R
      by (field; lra).
    lra.
Qed.

Lemma counts_in_range samples :
  Forall (fun c => 0 < c <= length (processedSamples samples))%nat
         (category_counts samples).
Proof.
  destruct (counts_well_formed samples) as (_ & Hp & Hs).
  fold (category_counts samples) in Hp, Hs.
  apply List.Forall_forall. intros c Hc. split.
  - rewrite List.Forall_forall in Hp. apply Hp, Hc.
  - rewrite <- Hs. apply le_sum_nat, Hc.
Qed.

Lemma percentages_rendered samples :
  Z.of_nat (length (processedSamples samples)) < 2 ^ 53 ->
  List.map percentage (qualityDistribution samples)
  = List.map (fun t => render_fixed t 1) (percentage_tenths samples).
Proof.
  intros Hn. unfold qualityDistribution, percentage_tenths.
  pose proof (counts_in_range samples) as Hr. unfold category_counts in *.
  rewrite !List.map_map. apply List.map_ext_in. intros [c k] Hin. simpl.
  apply percent_tenths; [|exact Hn].
  rewrite List.Forall_forall in Hr. apply Hr.
  apply List.in_map_iff. exists (c, k). auto.
Qed.

(** C9, as the code has it. For every non-empty filtered batch (of fewer
    than 2^53 samples) the counts of the distribution add up to the number
    of filtered samples, each percentage is the text of an integer number of
    tenths, and the tenths add up to 1000 within 2: the sum of the
    percentages equals 100.0 within a tolerance of 0.2. *)
Theorem C9_percentages_sum_within_two_tenths (samples : list WaterSample) :
  processedSamples samples <> [] ->
  Z.of_nat (length samples) < 2 ^ 53 ->
  List.map percentage (qualityDistribution samples)
  = List.map (fun t => render_fixed t 1) (percentage_tenths samples)
  /\ sum_nat (category_counts samples) = length (processedSamples samples)
  /\ 998 <= sum_Z (percentage_tenths samples) <= 1002.
Proof.
  intros Hne Hlen.
  assert (Hn : Z.of_nat (length (processedSamples samples)) < 2 ^ 53).
  { pose proof (List.filter_length_le
                  (fun s => bool_decide (is_Some (hmpiResults s))) samples).
    unfold processedSamples. lia. }
  destruct (counts_well_formed samples) as (Hk & Hp & Hs).
  fold (category_counts samples) in Hp, Hs.
  split; [apply percentages_rendered, Hn|]. split; [exact Hs|].
  pose proof (sum_tenths_near _ _ Hn (counts_in_range samples)) as Hsum.
  fold (percentage_tenths samples) in Hsum. rewrite Hs in Hsum.
  assert (H5 : (length (category_counts samples) <= 5)%nat).
  { unfold category_counts. rewrite List.length_map.
    rewrite <- (List.length_map fst). apply categories_at_most_five, Hk. }
  assert (Hn1 : (1 <= IZR (Z.of_nat (length (processedSamples samples))))%R).
  { apply IZR_le. destruct (processedSamples samples); [congruence|simpl; lia]. }
  replace (1000 * (IZR (Z.of_nat (length (processedSamples samples)))
                   / IZR (Z.of_nat (length (processedSamples samples)))))%R
    with 1000%R in Hsum by (field; lra).
  apply Rabs_le_inv in Hsum.
  assert (H5' : (IZR (Z.of_nat (length (category_counts samples))) <= 5)%R)
    by (apply IZR_le; lia).
  assert (H0' : (0 <= IZR (Z.of_nat (length (category_counts samples))))%R)
    by (apply IZR_le; lia).
  set (total := sum_Z (percentage_tenths samples)) in *.
  assert (L : (IZR 997 < IZR total)%R) by lra.
  assert (U : (IZR total < IZR 1003)%R) by lra.
  apply lt_IZR in L, U. lia.
Qed.

Lemma C9_percentages_sum_within_two_tenths_witness :
  (processedSamples sixteen_samples <> []
   /\ Z.of_nat (length sixteen_samples) < 2 ^ 53)
  /\ List.map percentage (qualityDistribution sixteen_samples)
     = List.map (fun t => render_fixed t 1) (percentage_tenths sixteen_samples)
  /\ sum_nat (category_counts sixteen_samples)
     = length (processedSamples sixteen_samples)
  /\ 998 <= sum_Z (percentage_tenths sixteen_samples) <= 1002.
Proof.
  assert (H1 : processedSamples sixteen_samples <> [])
    by (vm_compute; discriminate).
  assert (H2 : Z.of_nat (length sixteen_samples) < 2 ^ 53)
    by (vm_compute; reflexivity).
  split; [split; assumption|].
  apply (C9_percentages_sum_within_two_tenths sixteen_samples H1 H2).
Defined.

(** C9, as the specification states it: sixteen uploaded rows with one
    excellent, one good, one moderate and thirteen poor samples yield the
    percentages 6.3, 6.3, 6.3 and 81.3, which add up to 100.2. *)
Lemma C9_sixteen_samples_counterexample :
  processedSamples sixteen_samples <> []
  /\ List.map percentage (qualityDistribution sixteen_samples)
     = ["6.3"; "6.3"; "6.3"; "81.3"]%string
  /\ percentage_tenths sixteen_samples = [63; 63; 63; 813]
  /\ sum_Z (percentage_tenths sixteen_samples) = 1002.
Proof.
  split; [vm_compute; discriminate|]. repeat split; vm_compute; reflexivity.
Qed.

End Sums.

End DistributionFacts.

(** ** Order of numbers *)

Module OrderFacts.

Lemma SFcompare_antisym (a b : spec_float) :
  a <> S754_nan -> b <> S754_nan ->
  SFltb a b = false -> SFleb b a = true.
Proof.
  unfold SFleb, SFltb, SFcompare.
  destruct a as [sa|sa| |sa ma ea], b as [sb|sb| |sb mb eb];
    try congruence; intros _ _;
    try destruct sa; try destruct sb; try reflexivity; try discriminate;
    rewrite ?Pos.compare_cont_spec; simpl Pos.switch_Eq;
    destruct (Z.compare_spec ea eb); destruct (Z.compare_spec eb ea);
    try lia; try reflexivity; try discriminate; subst;
    rewrite (Pos.compare_antisym ma mb);
    destruct (Pos.compare ma mb); simpl; try reflexivity; try discriminate.
Qed.

Lemma not_lt_le (a b : float) :
  PrimFloat.is_nan a = false -> PrimFloat.is_nan b = false ->
  PrimFloat.ltb a b = false -> PrimFloat.leb b a = true.
Proof.
  intros Ha Hb. rewrite leb_spec, ltb_spec.
  apply SFcompare_antisym; intros E;
    [apply RoundingFacts.is_nan_SF in E|apply RoundingFacts.is_nan_SF in E];
    congruence.
Qed.

(** Three numbers compared two by two: the comparison of the unpacked
    values goes by sign, then exponent, then mantissa. *)
Ltac compare_three a b c :=
  unfold SFleb, SFltb, SFcompare;
  destruct a as [?sa|?sa| |?sa ?ma ?ea], b as [?sb|?sb| |?sb ?mb ?eb],
           c as [?sc|?sc| |?sc ?mc ?ec];
    repeat match goal with s : bool |- _ => destruct s end;
    try discriminate; try reflexivity; intros Hab Hbc;
    rewrite ?Pos.compare_cont_spec in *; simpl Pos.switch_Eq in *;
    repeat match goal with
           | |- context [Z.compare ?x ?y] =>
               destruct (Z.compare_spec x y); try discriminate; try lia
           | H : context [Z.compare ?x ?y] |- _ =>
               destruct (Z.compare_spec x y); try discriminate; try lia
           end; subst;
    repeat match goal with
           | |- context [Pos.compare ?x ?y] =>
               destruct (Pos.compare_spec x y); try discriminate; try lia
           | H : context [Pos.compare ?x ?y] |- _ =>
               destruct (Pos.compare_spec x y); try discriminate; try lia
           end;
    try reflexivity; simpl in *; try discriminate; try lia.

Lemma SFltb_trans_le (a b c : spec_float) :
  SFltb a b = true -> SFleb b c = true -> SFltb a c = true.
Proof.
  compare_three a b c.
Qed.

Lemma ltb_trans_le (a b c : float) :
  PrimFloat.ltb a b = true -> PrimFloat.leb b c = true -> PrimFloat.ltb a c = true.
Proof.
  rewrite leb_spec, !ltb_spec. apply SFltb_trans_le.
Qed.

Lemma ltb_nan_l (a b : float) :
  PrimFloat.is_nan a = true -> PrimFloat.ltb a b = false.
Proof.
  intros H. apply RoundingFacts.is_nan_SF in H. rewrite ltb_spec, H. reflexivity.
Qed.

Lemma SFleb_trans (a b c : spec_float) :
  SFleb a b = true -> SFleb b c = true -> SFleb a c = true.
Proof.
  compare_three a b c.
Qed.

Lemma leb_trans (a b c : float) :
  PrimFloat.leb a b = true -> PrimFloat.leb b c = true -> PrimFloat.leb a c = true.
Proof. rewrite !leb_spec. apply SFleb_trans. Qed.

Lemma ltb_leb (a b : float) :
  PrimFloat.ltb a b = true -> PrimFloat.leb a b = true.
Proof.
  rewrite leb_spec, ltb_spec. unfold SFltb, SFleb.
  destruct (SFcompare _ _) as [[]|]; congruence.
Qed.

Lemma leb_refl (a : float) :
  PrimFloat.is_nan a = false -> PrimFloat.leb a a = true.
Proof.
  intros Ha. apply not_lt_le; try exact Ha. rewrite ltb_spec.
  destruct (Prim2SF a) as [s|s| |s m e]; unfold SFltb, SFcompare;
    try destruct s; try reflexivity;
    rewrite Z.compare_refl, Pos.compare_cont_refl; reflexivity.
Qed.

Lemma leb_zeros (a b : float) :
  PrimFloat.is_zero a = true -> PrimFloat.is_zero b = true ->
  PrimFloat.leb a b = true.
Proof.
  intros Ha Hb. apply RoundingFacts.is_zero_SF in Ha, Hb.
  destruct Ha as [sa Ha], Hb as [sb Hb]. rewrite leb_spec, Ha, Hb. reflexivity.
Qed.

Lemma infinity_leb (v : float) :
  PrimFloat.leb PrimFloat.infinity v = true -> v = PrimFloat.infinity.
Proof.
  rewrite leb_spec. intros H. apply Prim2SF_inj.
  change (Prim2SF PrimFloat.infinity) with (S754_infinity false) in *.
  destruct (Prim2SF v) as [s|s| |s m e]; try discriminate.
  destruct s; [discriminate|reflexivity].
Qed.

Lemma leb_neg_infinity (v : float) :
  PrimFloat.leb v PrimFloat.neg_infinity = true -> v = PrimFloat.neg_infinity.
Proof.
  rewrite leb_spec. intros H. apply Prim2SF_inj.
  change (Prim2SF PrimFloat.neg_infinity) with (S754_infinity true) in *.
  destruct (Prim2SF v) as [s|s| |s m e]; try discriminate;
    destruct s; try discriminate; reflexivity.
Qed.

End OrderFacts.

(** ** The validator on whole uploads *)

Module UploadFacts.

Import DataUpload ValidatorSpec UploadSpec ValidatorFacts.

Lemma isValid_errors clock data :
  isValid (validateData clock data) = true
  <-> errors (validateData clock data) = [].
Proof.
  unfold validateData. destruct data as [|firstRow rest].
  - cbn [isValid errors]. split; discriminate.
  - destruct (forEach _ _ _ _) as [[|e errs'] smpls]; cbn [isValid errors];
      split; congruence.
Qed.

Lemma diagnostics_from_nil data : forall index,
  diagnostics_from data index = []
  <-> Forall (fun row => row_valid row = true) data.
Proof.
  induction data as [|row rest IH]; intros index; cbn [diagnostics_from].
  - split; [constructor|reflexivity].
  - split.
    + intros H. apply app_eq_nil in H. destruct H as [H1 H2].
      constructor; [apply (row_errors_valid row index), H1|].
      apply (IH (S index)), H2.
    + intros H. inversion H as [|? ? Hv Hrest]; subst.
      apply (row_errors_valid row index) in Hv. rewrite Hv.
      apply (IH (S index)), Hrest.
Qed.

Lemma header_errors_nil data :
  header_errors data = [] <-> missing_columns data = [].
Proof.
  unfold header_errors. destruct (missing_columns data); split; congruence.
Qed.

Lemma valid_positions_all data : forall index,
  Forall (fun row => row_valid row = true) data ->
  valid_positions data index = seq index (length data).
Proof.
  induction data as [|row rest IH]; intros index H; [reflexivity|].
  inversion H as [|? ? Hv Hrest]; subst.
  cbn [valid_positions length seq]. rewrite Hv, (IH (S index) Hrest).
  reflexivity.
Qed.

Lemma isValid_iff clock data :
  isValid (validateData clock data) = true <->
  data <> [] /\ missing_columns data = []
  /\ Forall (fun row => row_valid row = true) data.
Proof.
  rewrite isValid_errors. destruct data as [|firstRow rest].
  - split; [discriminate|]. intros [H _]. congruence.
  - destruct (validateData_nonempty clock (firstRow :: rest)) as [-> _];
      [discriminate|].
    rewrite <- header_errors_nil, <- (diagnostics_from_nil _ 0).
    split.
    + intros H. apply app_eq_nil in H. split; [discriminate|exact H].
    + intros (_ & -> & ->). reflexivity.
Qed.

Lemma valid_upload_ids clock data :
  isValid (validateData clock data) = true ->
  List.map id (samples (validateData clock data))
  = List.map sample_id (seq 0 (length data)).
Proof.
  intros Hv. apply isValid_iff in Hv. destruct Hv as (_ & _ & Hall).
  rewrite validateData_samples, accepted_from_ids, valid_positions_all by exact Hall.
  reflexivity.
Qed.

(** X1. An upload is valid exactly when it holds at least one row, the
    first row has a cell for every required column and every row passes its
    eleven checks; a valid upload has no diagnostic and yields one sample
    per row, carrying the ids [sample_1] to [sample_n] in row order. *)
Theorem valid_upload_characterised (clock : Clock) (data : list Row) :
  (isValid (validateData clock data) = true <->
     data <> [] /\ missing_columns data = []
     /\ Forall (fun row => row_valid row = true) data)
  /\ (isValid (validateData clock data) = true ->
      errors (validateData clock data) = []
      /\ List.map id (samples (validateData clock data))
         = List.map sample_id (seq 0 (length data))).
Proof.
  split; [apply isValid_iff|]. intros Hv.
  split; [apply isValid_errors, Hv|apply valid_upload_ids, Hv].
Qed.

(** *** The samples that are accepted *)

Lemma set_property_fresh (o : MetalPanel) k v :
  ~ In k (List.map fst o) -> set_property o k v = (o ++ [(k, v)])%list.
Proof.
  induction o as [|[k' v'] o IH]; intros H; [reflexivity|].
  cbn [set_property]. simpl in H.
  destruct (String.eqb_spec k' k) as [->|_]; [tauto|].
  rewrite IH by tauto. reflexivity.
Qed.

Lemma check_metals_panel row index names : forall errs mv,
  forallb (metal_ok row) names = true -> List.NoDup names ->
  (forall k, In k names -> ~ In k (List.map fst mv)) ->
  snd (fold_left (check_metal row index) names (errs, mv))
  = (mv ++ List.map (fun m => (m, parseFloat (ToString (row !! m)))) names)%list.
Proof.
  induction names as [|metal names IH]; intros errs mv Hall Hnd Hfresh.
  - simpl. rewrite app_nil_r. reflexivity.
  - cbn [fold_left forallb] in *. apply andb_true_iff in Hall.
    destruct Hall as [Hm Hall]. rewrite check_metal_spec, Hm.
    inversion Hnd as [|? ? Hnotin Hnd']; subst.
    rewrite set_property_fresh by (apply Hfresh; left; reflexivity).
    rewrite IH; [|exact Hall|exact Hnd'|].
    + rewrite <- app_assoc. reflexivity.
    + intros k Hk. rewrite List.map_app, in_app_iff. simpl.
      intros [H|[<-|[]]]; [|exact (Hnotin Hk)].
      apply (Hfresh k); [right; exact Hk|exact H].
Qed.

Lemma metal_names_NoDup : List.NoDup metal_names.
Proof.
  apply NoDup_ListNoDup. apply (bool_decide_unpack _). vm_compute. reflexivity.
Qed.

Lemma valid_row_panel row index :
  row_valid row = true ->
  snd (check_row row index)
  = List.map (fun m => (m, parseFloat (ToString (row !! m)))) metal_names.
Proof.
  unfold row_valid, check_row. rewrite !andb_true_iff. intros [_ H].
  rewrite check_metals_panel; [reflexivity|exact H|apply metal_names_NoDup|].
  intros k _ [].
Qed.

Lemma coordinate_ok_within lo hi cell :
  PrimFloat.is_nan lo = false -> PrimFloat.is_nan hi = false ->
  coordinate_ok lo hi cell = true ->
  within lo hi (parseFloat (ToString cell)).
Proof.
  unfold coordinate_ok, within, isNaN, lt, gt. intros Hlo Hhi H.
  rewrite negb_true_iff, !orb_false_iff in H. destruct H as [[Hn Hl] Hg].
  split; apply OrderFacts.not_lt_le; assumption.
Qed.

Lemma accepted_panel clock data s :
  In s (samples (validateData clock data)) ->
  List.map fst (metals s) = metal_names
  /\ Forall non_negative (List.map snd (metals s)).
Proof.
  rewrite validateData_samples, In_accepted_from.
  intros (i & row & _ & Hv & ->). cbn [row_sample metals].
  rewrite (valid_row_panel row _ Hv).
  unfold row_valid in Hv. rewrite !andb_true_iff in Hv.
  destruct Hv as [_ Hmetals]. split.
  - rewrite List.map_map. reflexivity.
  - rewrite List.map_map. cbn [snd]. apply List.Forall_forall.
    intros v Hin. apply List.in_map_iff in Hin. destruct Hin as (m & <- & Hm).
    rewrite forallb_forall in Hmetals. specialize (Hmetals m Hm).
    unfold metal_ok in Hmetals. rewrite negb_true_iff, orb_false_iff in Hmetals.
    exact Hmetals.
Qed.

(** X2. Every sample the validator accepts is well formed: its panel holds
    exactly the nine metals, in the order As, Cd, Cr, Cu, Fe, Mn, Ni, Pb,
    Zn, each concentration is a number that is not NaN and not below zero,
    the latitude lies in [-90, 90], the longitude in [-180, 180], and no
    results are attached yet. *)
Theorem accepted_samples_well_formed
    (clock : Clock) (data : list Row) (s : WaterSample) :
  In s (samples (validateData clock data)) ->
  List.map fst (metals s) = metal_names
  /\ Forall non_negative (List.map snd (metals s))
  /\ within (-90) 90 (latitude s)
  /\ within (-180) 180 (longitude s)
  /\ hmpiResults s = None.
Proof.
  intros Hs. destruct (accepted_panel clock data s Hs) as [Hk Hn].
  split; [exact Hk|]. split; [exact Hn|]. revert Hs.
  rewrite validateData_samples, In_accepted_from.
  intros (i & row & _ & Hv & ->). cbn [row_sample latitude longitude hmpiResults].
  unfold row_valid in Hv. rewrite !andb_true_iff in Hv.
  destruct Hv as [[Hlat Hlng] _].
  split; [|split].
  - apply coordinate_ok_within; [reflexivity|reflexivity|exact Hlat].
  - apply coordinate_ok_within; [reflexivity|reflexivity|exact Hlng].
  - reflexivity.
Qed.

Lemma accepted_samples_well_formed_witness :
  In (row_sample morning valid_row 0) (samples (validateData morning [valid_row]))
  /\ List.map fst (metals (row_sample morning valid_row 0)) = metal_names
  /\ within (-90) 90 (latitude (row_sample morning valid_row 0)).
Proof.
  assert (H : In (row_sample morning valid_row 0)
                 (samples (validateData morning [valid_row]))).
  { vm_compute. left. reflexivity. }
  split; [exact H|].
  pose proof (accepted_samples_well_formed morning [valid_row] _ H) as W.
  split; [apply W|apply W].
Defined.

(** *** Cells that hold no number *)

Lemma check_metals_keep row index names : forall errs mv e,
  In e errs -> In e (fst (fold_left (check_metal row index) names (errs, mv))).
Proof.
  induction names as [|metal names IH]; intros errs mv e H; [exact H|].
  cbn [fold_left]. rewrite check_metal_spec.
  destruct (metal_ok row metal); apply IH; [exact H|].
  apply in_or_app. left. exact H.
Qed.

Lemma check_metals_report row index names : forall errs mv metal,
  In metal names -> metal_ok row metal = false ->
  In (invalid_at_row (metal ++ " concentration") index)
     (fst (fold_left (check_metal row index) names (errs, mv))).
Proof.
  induction names as [|m names IH]; intros errs mv metal Hin Hbad; [destruct Hin|].
  cbn [fold_left]. rewrite check_metal_spec. destruct Hin as [->|Hin].
  - rewrite Hbad. apply check_metals_keep, in_or_app. right. left. reflexivity.
  - destruct (metal_ok row m); apply IH; assumption.
Qed.

Lemma In_diagnostics_from data : forall index i row e,
  data !! i = Some row -> In e (row_errors row (index + i)) ->
  In e (diagnostics_from data index).
Proof.
  induction data as [|r rest IH]; intros index i row e Hi He; [discriminate|].
  cbn [diagnostics_from]. apply in_or_app. destruct i as [|i]; simpl in Hi.
  - injection Hi as ->. rewrite Nat.add_0_r in He. left. exact He.
  - right. apply (IH (S index) i row); [exact Hi|].
    rewrite Nat.add_succ_l, <- Nat.add_succ_r. exact He.
Qed.

Lemma blank_is_NaN cell : blank cell -> isNaN (parseFloat (ToString cell)) = true.
Proof. intros [->| ->]; reflexivity. Qed.

(** X3. A row in which the cell of a checked column (latitude, longitude
    or one of the nine metals) is absent or empty is rejected, and the
    upload carries the diagnostic that names that column and the row:
    the absent cell reads [undefined], which parses to NaN. *)
Theorem blank_cell_rejects_row
    (clock : Clock) (data : list Row) (i : nat) (row : Row) (col : string) :
  data !! i = Some row -> In col checked_columns -> blank (row !! col) ->
  In (invalid_at_row (subject col) i) (errors (validateData clock data))
  /\ ~ accepted clock data i.
Proof.
  intros Hi Hcol Hblank. apply blank_is_NaN in Hblank.
  assert (Hrow : In (invalid_at_row (subject col) i) (row_errors row i)).
  { unfold row_errors, check_row. destruct Hcol as [<-|[<-|Hmetal]].
    - apply check_metals_keep. unfold coordinate_errors.
      rewrite Hblank. cbn [orb]. apply in_or_app. left. left. reflexivity.
    - apply check_metals_keep. unfold coordinate_errors.
      rewrite Hblank. cbn [orb]. apply in_or_app. right. left. reflexivity.
    - assert (E : subject col = col ++ " concentration").
      { unfold metal_names in Hmetal. simpl in Hmetal.
        repeat (destruct Hmetal as [<-|Hmetal]; [reflexivity|]).
        destruct Hmetal. }
      rewrite E. apply check_metals_report; [exact Hmetal|].
      unfold metal_ok. rewrite Hblank. reflexivity. }
  split.
  - destruct (validateData_nonempty clock data) as [-> _].
    { intros ->. discriminate. }
    apply in_or_app. right. apply (In_diagnostics_from data 0 i row); assumption.
  - rewrite (accepted_iff clock data i row Hi), <- (row_errors_valid row i).
    intros E. rewrite E in Hrow. destruct Hrow.
Qed.

Lemma blank_cell_rejects_row_witness :
  [valid_row; delete "Pb" valid_row] !! 1 = Some (delete "Pb" valid_row)
  /\ In "Pb" checked_columns
  /\ blank (delete "Pb" valid_row !! "Pb")
  /\ In "Invalid Pb concentration at row 2"
        (errors (validateData morning [valid_row; delete "Pb" valid_row]))
  /\ ~ accepted morning [valid_row; delete "Pb" valid_row] 1.
Proof.
  assert (H1 : [valid_row; delete "Pb" valid_row] !! 1
               = Some (delete "Pb" valid_row)) by reflexivity.
  assert (H2 : In "Pb" checked_columns) by (vm_compute; tauto).
  assert (H3 : blank (delete "Pb" valid_row !! "Pb")) by (left; reflexivity).
  split; [exact H1|]. split; [exact H2|]. split; [exact H3|].
  exact (blank_cell_rejects_row morning _ 1 _ "Pb" H1 H2 H3).
Defined.

(** *** Counting rows and diagnostics *)

Lemma check_metals_length row index names : forall errs mv,
  (length errs
   <= length (fst (fold_left (check_metal row index) names (errs, mv)))
   <= length errs + length names)%nat.
Proof.
  induction names as [|metal names IH]; intros errs mv; [simpl; lia|].
  cbn [fold_left length]. rewrite check_metal_spec.
  destruct (metal_ok row metal).
  - specialize (IH errs (set_property mv metal
                           (parseFloat (ToString (row !! metal))))). lia.
  - specialize (IH (errs ++ [invalid_at_row (metal ++ " concentration") index])%list
                   mv).
    rewrite length_app in IH. simpl in IH. lia.
Qed.

Lemma row_errors_length row index :
  (length (row_errors row index) <= 11)%nat
  /\ (row_valid row = false -> 1 <= length (row_errors row index))%nat.
Proof.
  split.
  - unfold row_errors, check_row.
    pose proof (check_metals_length row index metal_names
                  (coordinate_errors row index) []) as H.
    assert (length (coordinate_errors row index) <= 2)%nat.
    { unfold coordinate_errors. rewrite length_app.
      destruct (_ || _ || _)%bool; destruct (_ || _ || _)%bool; simpl; lia. }
    change (length metal_names) with 9%nat in H. unfold MetalPanel in *. lia.
  - intros Hv. destruct (row_errors row index) eqn:E; [|simpl; lia].
    apply row_errors_valid in E. congruence.
Qed.

Lemma diagnostics_from_length data : forall index,
  (length (rejected data) <= length (diagnostics_from data index)
   <= 11 * length (rejected data))%nat.
Proof.
  induction data as [|row rest IH]; intros index; [simpl; lia|].
  cbn [diagnostics_from]. rewrite length_app. unfold rejected in *.
  cbn [List.filter]. specialize (IH (S index)).
  destruct (row_errors_length row index) as [Hup Hlow].
  destruct (row_valid row) eqn:Hv; cbn [negb length].
  - apply (row_errors_valid row index) in Hv. rewrite Hv. simpl. lia.
  - specialize (Hlow eq_refl). lia.
Qed.

Lemma accepted_from_length clock data : forall index,
  (length (accepted_from clock data index) + length (rejected data)
   = length data)%nat.
Proof.
  induction data as [|row rest IH]; intros index; [reflexivity|].
  cbn [accepted_from]. rewrite length_app. unfold rejected in *.
  cbn [List.filter]. specialize (IH (S index)).
  destruct (row_valid row); cbn [negb length]; lia.
Qed.

(** X4. Every row of an upload is either accepted or rejected: the number
    of samples plus the number of rows that fail a check is the number of
    rows.  Each rejected row is reported by at least one and at most eleven
    diagnostics, and the whole upload adds at most one more (the empty
    upload or the missing columns). *)
Theorem rows_accepted_or_reported (clock : Clock) (data : list Row) :
  (length (samples (validateData clock data)) + length (rejected data)
   = length data)%nat
  /\ (length (rejected data) <= length (errors (validateData clock data))
      <= 1 + 11 * length (rejected data))%nat.
Proof.
  split.
  - rewrite validateData_samples. apply accepted_from_length.
  - destruct data as [|firstRow rest]; [simpl; lia|].
    destruct (validateData_nonempty clock (firstRow :: rest)) as [-> _];
      [discriminate|].
    rewrite length_app.
    pose proof (diagnostics_from_length (firstRow :: rest) 0) as H.
    assert (length (header_errors (firstRow :: rest)) <= 1)%nat.
    { unfold header_errors. destruct (missing_columns _); simpl; lia. }
    lia.
Qed.

(** *** Uploads that grow *)

Lemma accepted_from_app clock d1 d2 : forall index,
  accepted_from clock (d1 ++ d2) index
  = (accepted_from clock d1 index
     ++ accepted_from clock d2 (index + length d1))%list.
Proof.
  induction d1 as [|row rest IH]; intros index.
  - simpl. rewrite Nat.add_0_r. reflexivity.
  - cbn [app accepted_from length]. rewrite IH, <- app_assoc.
    rewrite Nat.add_succ_l, <- Nat.add_succ_r. reflexivity.
Qed.

Lemma diagnostics_from_app d1 d2 : forall index,
  diagnostics_from (d1 ++ d2) index
  = (diagnostics_from d1 index
     ++ diagnostics_from d2 (index + length d1))%list.
Proof.
  induction d1 as [|row rest IH]; intros index.
  - simpl. rewrite Nat.add_0_r. reflexivity.
  - cbn [app diagnostics_from length]. rewrite IH, <- app_assoc.
    rewrite Nat.add_succ_l, <- Nat.add_succ_r. reflexivity.
Qed.

(** X5. Rows added at the end of an upload leave what the earlier rows
    gave untouched: the samples of the longer upload are those of the
    shorter one followed by the samples of the new rows, numbered from
    where the shorter upload ended, and so are the diagnostics when the
    shorter upload was not empty. *)
Theorem later_rows_leave_earlier_results
    (clock : Clock) (d1 d2 : list Row) :
  samples (validateData clock (d1 ++ d2))
  = (samples (validateData clock d1)
     ++ accepted_from clock d2 (length d1))%list
  /\ (d1 <> [] ->
      errors (validateData clock (d1 ++ d2))
      = (errors (validateData clock d1)
         ++ diagnostics_from d2 (length d1))%list).
Proof.
  split.
  - rewrite !validateData_samples. apply accepted_from_app.
  - intros Hne. destruct d1 as [|firstRow rest]; [congruence|].
    destruct (validateData_nonempty clock ((firstRow :: rest) ++ d2)) as [-> _];
      [discriminate|].
    destruct (validateData_nonempty clock (firstRow :: rest)) as [-> _];
      [discriminate|].
    rewrite diagnostics_from_app, <- app_assoc. reflexivity.
Qed.

End UploadFacts.

(** ** The calculator on arbitrary panels *)

Module PanelFacts.

Import CalculationEngine Spec CalculatorSpec Examples.
Local Open Scope float_scope.

Lemma recognised_false entry :
  recognised entry = false -> truthy_entry WHO_STANDARDS entry.1 = None.
Proof.
  unfold recognised, truthy_entry. intros H.
  apply orb_false_iff in H as [H Hi]. apply bool_decide_eq_false in H.
  destruct (WHO_STANDARDS !! entry.1) as [v|]; [destruct H; eauto|].
  rewrite Hi. reflexivity.
Qed.

Lemma hpi_step_skip acc entry : recognised entry = false -> hpi_step acc entry = acc.
Proof.
  intros H. apply recognised_false in H. destruct acc, entry. unfold hpi_step.
  simpl in H. rewrite H. reflexivity.
Qed.

Lemma pli_step_skip acc entry : recognised entry = false -> pli_step acc entry = acc.
Proof.
  intros H. apply recognised_false in H. destruct acc, entry. unfold pli_step.
  simpl in H. rewrite H. reflexivity.
Qed.

Lemma cf_step_skip acc entry : recognised entry = false -> cf_step acc entry = acc.
Proof.
  intros H. apply recognised_false in H. destruct acc, entry. unfold cf_step.
  simpl in H. rewrite H. reflexivity.
Qed.

Lemma fold_left_filter {A B : Type} (f : A -> B -> A) (p : B -> bool) l :
  (forall a b, p b = false -> f a b = a) ->
  forall acc, fold_left f (List.filter p l) acc = fold_left f l acc.
Proof.
  intros Hskip. induction l as [|b l IH]; intros acc; [reflexivity|].
  cbn [List.filter fold_left]. destruct (p b) eqn:E.
  - cbn [fold_left]. apply IH.
  - rewrite (Hskip acc b E). apply IH.
Qed.

Lemma fold_left_skip {A B : Type} (f : A -> B -> A) (p : B -> bool) l :
  (forall a b, p b = false -> f a b = a) ->
  Forall (fun b => p b = false) l ->
  forall acc, fold_left f l acc = acc.
Proof.
  intros Hskip Hall. induction Hall as [|b l Hb _ IH]; intros acc; [reflexivity|].
  cbn [fold_left]. rewrite (Hskip acc b Hb). apply IH.
Qed.

Section Engine.

Variable pow_approx : number -> number -> number.

(** X6. Entries of a panel whose metal finds no member of the table of
    standards (it is none of the nine metals with a reference standard and
    no name of a member inherited from [Object.prototype]) play no part:
    each of the three indices is the same on the panel and on the panel
    without those entries. *)
Theorem unrecognised_metals_ignored (metals : MetalPanel) :
  calculateHPI (List.filter recognised metals) = calculateHPI metals
  /\ calculatePLI pow_approx (List.filter recognised metals)
     = calculatePLI pow_approx metals
  /\ calculateCF (List.filter recognised metals) = calculateCF metals.
Proof.
  unfold calculateHPI, calculatePLI, calculateCF.
  rewrite (fold_left_filter hpi_step recognised metals hpi_step_skip).
  rewrite (fold_left_filter pli_step recognised metals pli_step_skip).
  rewrite (fold_left_filter cf_step recognised metals cf_step_skip).
  repeat split.
Qed.

(** X7. A sample whose panel holds no metal that finds a member of the
    table of standards, own or inherited (the empty panel among them), gets
    0 for each of the three indices, whatever the selection, and is
    therefore classified [excellent]. *)
Theorem unrecognised_panel_rates_excellent
    (sel : SelectedIndices) (sample : WaterSample) :
  Forall (fun entry => recognised entry = false) (metals sample) ->
  sample_results pow_approx sel sample
  = {| hpi := 0; pli := 0; cf := 0; qualityCategory := excellent |}.
Proof.
  intros H.
  assert (E1 : calculateHPI (metals sample) = 0).
  { unfold calculateHPI.
    rewrite (fold_left_skip hpi_step recognised _ hpi_step_skip H). reflexivity. }
  assert (E2 : calculatePLI pow_approx (metals sample) = 0).
  { unfold calculatePLI.
    rewrite (fold_left_skip pli_step recognised _ pli_step_skip H).
    assert (E : gt (of_nat 0) 0 = false) by reflexivity. rewrite E. reflexivity. }
  assert (E3 : calculateCF (metals sample) = 0).
  { unfold calculateCF.
    rewrite (fold_left_skip cf_step recognised _ cf_step_skip H).
    assert (E : gt (of_nat 0) 0 = false) by reflexivity. rewrite E. reflexivity. }
  unfold sample_results. rewrite E1, E2, E3.
  destruct (sel_hpi sel), (sel_pli sel), (sel_cf sel); reflexivity.
Qed.

End Engine.

(** A key that names an inherited member is not skipped: the function it
    finds stands for NaN in the quotient, so the PLI and the contamination
    factor are NaN, and the total weight is no number above zero, so the
    HPI is 0. *)
Example inherited_key_beside_arsenic :
  calculateHPI [("As", 0.02); ("constructor", 1)] = 0
  /\ PrimFloat.is_nan
       (calculatePLI series_pow [("As", 0.02); ("constructor", 1)]) = true
  /\ PrimFloat.is_nan (calculateCF [("As", 0.02); ("constructor", 1)]) = true.
Proof. vm_compute. repeat split. Qed.

Example inherited_key_alone :
  let results := sample_results series_pow
    {| sel_hpi := true; sel_pli := true; sel_cf := true |}
    {| id := "sample_1"; latitude := 10.5; longitude := 77.1;
       sampleDate := "2024-03-01"; metals := [("toString", 1)];
       hmpiResults := None |} in
  hpi results = 0
  /\ PrimFloat.is_nan (pli results) = true
  /\ PrimFloat.is_nan (cf results) = true
  /\ qualityCategory results = unsuitable.
Proof. cbv zeta. vm_compute. repeat split. Qed.

Lemma unrecognised_panel_rates_excellent_witness :
  Forall (fun entry => recognised entry = false)
    (metals (with_results None
      {| id := "sample_1"; latitude := 10.5; longitude := 77.1;
         sampleDate := "2024-03-01"; metals := [("Hg", 5)];
         hmpiResults := None |}))
  /\ qualityCategory
       (sample_results series_pow initial_selection
          (with_results None
            {| id := "sample_1"; latitude := 10.5; longitude := 77.1;
               sampleDate := "2024-03-01"; metals := [("Hg", 5)];
               hmpiResults := None |})) = excellent.
Proof.
  assert (H : Forall (fun entry => recognised entry = false)
    (metals (with_results None
      {| id := "sample_1"; latitude := 10.5; longitude := 77.1;
         sampleDate := "2024-03-01"; metals := [("Hg", 5)];
         hmpiResults := None |}))).
  { constructor; [vm_compute; reflexivity|constructor]. }
  split; [exact H|].
  rewrite (unrecognised_panel_rates_excellent series_pow initial_selection _ H).
  reflexivity.
Defined.

End PanelFacts.

(** ** The classifier: bands, NaN and deselected indices *)

Module BandFacts.

Import CalculationEngine Spec CalculatorSpec Examples OrderFacts.
Local Open Scope float_scope.

(** Bounds that grow: below the smaller one means below the larger one. *)
Lemma lt_bound x b1 b2 :
  PrimFloat.leb b1 b2 = true -> lt x b1 = true -> lt x b2 = true.
Proof. intros Hb Hx. exact (ltb_trans_le x b1 b2 Hx Hb). Qed.

Ltac bound_chain x b1 b2 :=
  let H := fresh "Hb" in
  assert (H : lt x b1 = true -> lt x b2 = true)
    by (apply lt_bound; reflexivity).

(** X8. The category is the worse of two bands: the one the HPI falls in
    on its own (below 25, 50, 75, 100) and the one the PLI falls in on its
    own (below 1, 2, 3, 5). *)
Theorem category_is_worse_band (hpi pli : number) :
  categorizeWaterQuality hpi pli = worse (hpi_band hpi) (pli_band pli).
Proof.
  unfold categorizeWaterQuality, hpi_band, pli_band, band.
  bound_chain hpi 25 50. bound_chain hpi 50 75. bound_chain hpi 75 100.
  bound_chain pli 1 2. bound_chain pli 2 3. bound_chain pli 3 5.
  destruct (lt hpi 25), (lt hpi 50), (lt hpi 75), (lt hpi 100),
           (lt pli 1), (lt pli 2), (lt pli 3), (lt pli 5);
    try reflexivity;
    repeat match goal with
           | H : true = true -> false = true |- _ => discriminate (H eq_refl)
           end.
Qed.

(** X9. An index that is NaN makes the sample [unsuitable], whatever the
    other index is: no bound holds of NaN.  *)
Theorem NaN_index_is_unsuitable (hpi pli : number) :
  isNaN hpi = true \/ isNaN pli = true ->
  categorizeWaterQuality hpi pli = unsuitable.
Proof.
  unfold categorizeWaterQuality, isNaN, lt. intros [H|H].
  - rewrite !(ltb_nan_l hpi _ H). reflexivity.
  - rewrite !(ltb_nan_l pli _ H), !andb_false_r. reflexivity.
Qed.

Lemma NaN_index_is_unsuitable_witness :
  (isNaN 0 = true \/ isNaN (calculatePLI series_pow overflowing_panel) = true)
  /\ categorizeWaterQuality 0 (calculatePLI series_pow overflowing_panel)
     = unsuitable.
Proof.
  assert (H : isNaN 0 = true
              \/ isNaN (calculatePLI series_pow overflowing_panel) = true).
  { right. vm_compute. reflexivity. }
  split; [exact H|]. exact (NaN_index_is_unsuitable _ _ H).
Defined.

Lemma categorize_pli_zero h : categorizeWaterQuality h 0 = hpi_band h.
Proof.
  unfold categorizeWaterQuality, hpi_band, band.
  change (lt 0 1) with true. change (lt 0 2) with true.
  change (lt 0 3) with true. change (lt 0 5) with true.
  rewrite !andb_true_r. reflexivity.
Qed.

Lemma categorize_hpi_zero p : categorizeWaterQuality 0 p = pli_band p.
Proof.
  unfold categorizeWaterQuality, pli_band, band.
  change (lt 0 25) with true. change (lt 0 50) with true.
  change (lt 0 75) with true. change (lt 0 100) with true.
  reflexivity.
Qed.

Section Engine.

Variable pow_approx : number -> number -> number.

(** X10. An index that is not selected enters the classification as 0:
    with the PLI deselected the category is the band of the HPI alone, with
    the HPI deselected it is the band of the PLI alone, and with both
    deselected (only the contamination factor selected, say) every sample
    is [excellent], whatever its metals. *)
Theorem deselected_index_counts_as_zero
    (sel : SelectedIndices) (sample : WaterSample) :
  (sel_pli sel = false ->
   qualityCategory (sample_results pow_approx sel sample)
   = hpi_band (hpi (sample_results pow_approx sel sample)))
  /\ (sel_hpi sel = false ->
      qualityCategory (sample_results pow_approx sel sample)
      = pli_band (pli (sample_results pow_approx sel sample)))
  /\ (sel_hpi sel = false -> sel_pli sel = false ->
      qualityCategory (sample_results pow_approx sel sample) = excellent).
Proof.
  unfold sample_results. cbn [qualityCategory hpi pli].
  split; [|split].
  - intros ->. apply categorize_pli_zero.
  - intros ->. apply categorize_hpi_zero.
  - intros -> ->. reflexivity.
Qed.

End Engine.

End BandFacts.

(** ** From the upload to the results *)

Module PipelineFacts.

Import CalculationEngine CalculatorSpec ValidatorSpec UploadSpec.
Import ValidatorFacts UploadFacts.

Section Engine.

Variable pow_approx : number -> number -> number.

Lemma performCalculations_results sel batch :
  Forall (fun s => is_Some (hmpiResults s))
         (performCalculations pow_approx sel batch).
Proof.
  unfold performCalculations. apply List.Forall_forall. intros s Hs.
  apply List.in_map_iff in Hs. destruct Hs as (s0 & <- & _). simpl. eauto.
Qed.

Lemma performCalculations_fields sel batch :
  List.map (with_results None) (performCalculations pow_approx sel batch)
  = List.map (with_results None) batch.
Proof.
  unfold performCalculations. rewrite List.map_map. reflexivity.
Qed.

Lemma performCalculations_prior sel r batch :
  performCalculations pow_approx sel (List.map (with_results r) batch)
  = performCalculations pow_approx sel batch.
Proof.
  unfold performCalculations. rewrite List.map_map. reflexivity.
Qed.

(** X11. The calculation keeps the batch: the samples come out in the
    same number and order with their id, coordinates, date and metals
    unchanged, every one of them with results attached.  Results that were
    attached before play no part, so calculating again under the same
    selection changes nothing. *)
Theorem calculation_keeps_batch
    (sel : SelectedIndices) (batch : list WaterSample) :
  List.map (with_results None) (performCalculations pow_approx sel batch)
  = List.map (with_results None) batch
  /\ Forall (fun s => is_Some (hmpiResults s))
            (performCalculations pow_approx sel batch)
  /\ (forall r, performCalculations pow_approx sel
                  (List.map (with_results r) batch)
                = performCalculations pow_approx sel batch)
  /\ performCalculations pow_approx sel
       (performCalculations pow_approx sel batch)
     = performCalculations pow_approx sel batch.
Proof.
  split; [apply performCalculations_fields|].
  split; [apply performCalculations_results|].
  split; [intros r; apply performCalculations_prior|].
  unfold performCalculations. rewrite List.map_map. reflexivity.
Qed.

Lemma processedSamples_all batch :
  Forall (fun s => is_Some (hmpiResults s)) batch ->
  ResultsVisualization.processedSamples batch = batch.
Proof.
  intros H. unfold ResultsVisualization.processedSamples.
  induction H as [|s l Hs _ IH]; [reflexivity|].
  cbn [List.filter]. rewrite (bool_decide_eq_true_2 _ Hs), IH. reflexivity.
Qed.

Lemma existsb_results batch :
  batch <> [] -> Forall (fun s => is_Some (hmpiResults s)) batch ->
  existsb (fun s => bool_decide (is_Some (hmpiResults s))) batch = true.
Proof.
  intros Hne H. destruct H as [|s l Hs _]; [congruence|].
  cbn [existsb]. rewrite (bool_decide_eq_true_2 _ Hs). reflexivity.
Qed.

Lemma accepted_without_results clock data :
  existsb (fun s => bool_decide (is_Some (hmpiResults s)))
          (DataUpload.samples (DataUpload.validateData clock data)) = false.
Proof.
  rewrite validateData_samples. generalize 0%nat.
  induction data as [|row rest IH]; intros index; [reflexivity|].
  cbn [accepted_from]. rewrite existsb_app, (IH (S index)), orb_false_r.
  destruct (row_valid row); [|reflexivity].
  cbn [existsb row_sample hmpiResults]. rewrite orb_false_r.
  apply bool_decide_eq_false. intros [r Hr]. discriminate.
Qed.

Lemma valid_positions_from data : forall index,
  Forall (fun i => index <= i)%nat (valid_positions data index)
  /\ NoDup (valid_positions data index).
Proof.
  induction data as [|row rest IH]; intros index; cbn [valid_positions].
  - split; constructor.
  - destruct (IH (S index)) as [Hge Hnd].
    assert (Hge' : Forall (fun i => index <= i)%nat
                          (valid_positions rest (S index))).
    { rewrite List.Forall_forall in *. intros i Hi. specialize (Hge i Hi). lia. }
    destruct (row_valid row); cbn [app]; [|split; assumption].
    split; [constructor; [lia|exact Hge']|].
    apply NoDup_cons. split; [|exact Hnd].
    intros Hin. apply list_elem_of_In in Hin.
    rewrite List.Forall_forall in Hge. specialize (Hge index Hin). lia.
Qed.

(** X12. No two samples of an upload carry the same id, before and after
    the calculation: the ids are those of the positions of the valid rows,
    which are all different. *)
Theorem sample_ids_are_unique
    (clock : DataUpload.Clock) (sel : SelectedIndices)
    (data : list DataUpload.Row) :
  NoDup (List.map id (DataUpload.samples (DataUpload.validateData clock data)))
  /\ NoDup (List.map id
              (performCalculations pow_approx sel
                 (DataUpload.samples (DataUpload.validateData clock data)))).
Proof.
  assert (H : NoDup (List.map id
                (DataUpload.samples (DataUpload.validateData clock data)))).
  { rewrite validateData_samples, accepted_from_ids.
    assert (Hinj : Inj eq eq sample_id) by (intros i j; apply sample_id_inj).
    apply (NoDup_fmap_2 sample_id), valid_positions_from. }
  split; [exact H|].
  pose proof (performCalculations_fields sel
    (DataUpload.samples (DataUpload.validateData clock data))) as F.
  apply (f_equal (List.map id)) in F. rewrite !List.map_map in F.
  cbn [with_results id] in F.
  replace (List.map id (performCalculations pow_approx sel
             (DataUpload.samples (DataUpload.validateData clock data))))
    with (List.map id (DataUpload.samples (DataUpload.validateData clock data)))
    by (symmetry; exact F).
  exact H.
Qed.

(** X13. From a valid upload to the results.  Once the parser hands in a
    valid upload the preview (with its Confirm button) is shown; confirming
    hands the samples to the dashboard, which opens the Calculate tab and
    keeps the Results and Geospatial tabs disabled; completing the
    calculation opens the Results tab and enables both; every sample then
    counts as processed, and the samples are still one per uploaded row,
    with the ids [sample_1] to [sample_n] in row order. *)
Theorem valid_upload_reaches_results
    (clock : DataUpload.Clock) (sel : SelectedIndices)
    (data : list DataUpload.Row)
    (up : UploadComponent.State) (d : Dashboard.State) :
  DataUpload.isValid (DataUpload.validateData clock data) = true ->
  let up1 := fst (UploadComponent.complete clock data up) in
  let d1 := fold_left Dashboard.deliver
              (snd (UploadComponent.handleConfirmUpload up1)) d in
  let d2 := Dashboard.handleCalculationComplete
              (performCalculations pow_approx sel (Dashboard.samples d1)) d1 in
  UploadComponent.preview_shown up1 = true
  /\ Dashboard.activeTab d1 = "calculate"
  /\ Dashboard.calculate_disabled d1 = false
  /\ Dashboard.results_disabled d1 = true
  /\ Dashboard.map_disabled d1 = true
  /\ Dashboard.activeTab d2 = "results"
  /\ Dashboard.results_disabled d2 = false
  /\ Dashboard.map_disabled d2 = false
  /\ ResultsVisualization.processedSamples (Dashboard.samples d2)
     = Dashboard.samples d2
  /\ List.map id (Dashboard.samples d2)
     = List.map sample_id (seq 0 (length data)).
Proof.
  intros Hv up1 d1 d2.
  assert (Hup : UploadComponent.previewData up1
                = DataUpload.samples (DataUpload.validateData clock data)).
  { unfold up1, UploadComponent.complete. rewrite Hv. reflexivity. }
  assert (Hd1 : Dashboard.samples d1
                = DataUpload.samples (DataUpload.validateData clock data)).
  { unfold d1. cbn [UploadComponent.handleConfirmUpload snd fold_left
      Dashboard.deliver Dashboard.handleDataUploaded Dashboard.samples].
    exact Hup. }
  pose proof (valid_upload_ids clock data Hv) as Hids.
  assert (Hne : data <> []) by (apply isValid_iff in Hv; tauto).
  assert (Hlen : length (DataUpload.samples (DataUpload.validateData clock data))
                 = length data).
  { rewrite <- (List.length_map id), Hids, List.length_map, length_seq.
    reflexivity. }
  assert (Hpos : (0 < length data)%nat).
  { destruct data; [congruence|simpl; lia]. }
  pose proof (performCalculations_results sel (Dashboard.samples d1)) as Hres.
  assert (Hout : performCalculations pow_approx sel (Dashboard.samples d1) <> []).
  { intros E. apply (f_equal (@length _)) in E.
    unfold performCalculations in E. rewrite List.length_map, Hd1, Hlen in E.
    simpl in E. lia. }
  repeat split.
  - unfold UploadComponent.preview_shown. rewrite Hup, Hlen.
    apply Nat.ltb_lt, Hpos.
  - unfold Dashboard.calculate_disabled. rewrite Hd1, Hlen.
    apply Nat.eqb_neq. lia.
  - unfold Dashboard.results_disabled. rewrite Hd1, accepted_without_results.
    reflexivity.
  - unfold Dashboard.map_disabled. rewrite Hd1, accepted_without_results.
    reflexivity.
  - unfold Dashboard.results_disabled, d2.
    cbn [Dashboard.handleCalculationComplete Dashboard.samples].
    rewrite (existsb_results _ Hout Hres). reflexivity.
  - unfold Dashboard.map_disabled, d2.
    cbn [Dashboard.handleCalculationComplete Dashboard.samples].
    rewrite (existsb_results _ Hout Hres). reflexivity.
  - unfold d2. cbn [Dashboard.handleCalculationComplete Dashboard.samples].
    apply processedSamples_all, Hres.
  - unfold d2. cbn [Dashboard.handleCalculationComplete Dashboard.samples].
    rewrite <- Hids, <- Hd1.
    pose proof (performCalculations_fields sel (Dashboard.samples d1)) as F.
    apply (f_equal (List.map id)) in F. rewrite !List.map_map in F. exact F.
Qed.

End Engine.

Lemma valid_upload_reaches_results_witness :
  DataUpload.isValid (DataUpload.validateData morning [valid_row; valid_row]) = true
  /\ List.map id
       (Dashboard.samples
          (Dashboard.handleCalculationComplete
             (performCalculations Examples.series_pow initial_selection
                (Dashboard.samples
                   (fold_left Dashboard.deliver
                      (snd (UploadComponent.handleConfirmUpload
                         (fst (UploadComponent.complete morning
                                 [valid_row; valid_row]
                                 UploadComponent.initial))))
                      Dashboard.initial)))
             (fold_left Dashboard.deliver
                (snd (UploadComponent.handleConfirmUpload
                   (fst (UploadComponent.complete morning
                           [valid_row; valid_row]
                           UploadComponent.initial))))
                Dashboard.initial)))
     = ["sample_1"; "sample_2"].
Proof.
  assert (H : DataUpload.isValid
                (DataUpload.validateData morning [valid_row; valid_row]) = true)
    by (vm_compute; reflexivity).
  split; [exact H|].
  apply (valid_upload_reaches_results Examples.series_pow morning
           initial_selection [valid_row; valid_row]
           UploadComponent.initial Dashboard.initial H).
Defined.

(** X14. An upload is taken whole or not at all.  When the parsed file is
    clean (at least one row, every required column in the first row, every
    row valid) the preview is replaced by one sample per row and the
    progress reaches 100; otherwise the preview stays what it was, although
    the validator had accepted the valid rows, the diagnostics of the file
    are shown and the progress stays at 50.  Either way processing ends. *)
Theorem upload_is_all_or_nothing
    (clock : DataUpload.Clock) (data : list DataUpload.Row)
    (st : UploadComponent.State) :
  let validation := DataUpload.validateData clock data in
  let st' := fst (UploadComponent.complete clock data st) in
  UploadComponent.isProcessing st' = false
  /\ (clean data ->
      UploadComponent.previewData st' = DataUpload.samples validation
      /\ length (UploadComponent.previewData st') = length data
      /\ UploadComponent.errors st' = UploadComponent.errors st
      /\ UploadComponent.uploadProgress st' = 100%float)
  /\ (~ clean data ->
      UploadComponent.previewData st' = UploadComponent.previewData st
      /\ UploadComponent.errors st' = DataUpload.errors validation
      /\ UploadComponent.errors_shown st' = true
      /\ UploadComponent.uploadProgress st' = 50%float).
Proof.
  intros validation st'.
  pose proof (isValid_iff clock data) as Hiff. fold (clean data) in Hiff.
  pose proof (isValid_errors clock data) as Herr.
  unfold st', UploadComponent.complete. fold validation in Hiff, Herr |- *.
  destruct (DataUpload.isValid validation) eqn:Hv; cbn [fst].
  - split; [reflexivity|]. split; [|intros Hn; destruct Hn; apply Hiff; reflexivity].
    intros _. cbn [UploadComponent.previewData UploadComponent.errors
                   UploadComponent.uploadProgress].
    repeat split.
    pose proof (valid_upload_ids clock data Hv) as Hids.
    apply (f_equal (@length _)) in Hids.
    rewrite !List.length_map, length_seq in Hids. exact Hids.
  - split; [reflexivity|]. split; [intros Hc; apply Hiff in Hc; discriminate|].
    intros _. cbn [UploadComponent.previewData UploadComponent.errors
                   UploadComponent.uploadProgress UploadComponent.errors_shown].
    repeat split.
    unfold UploadComponent.errors_shown. cbn [UploadComponent.errors].
    destruct (DataUpload.errors validation); [|reflexivity].
    destruct Herr as [_ Herr]. discriminate (Herr eq_refl).
Qed.

(** *** The component over time *)

(** The preview is empty or holds the samples of one clean upload. *)
Lemma preview_invariant_step st e :
  (UploadComponent.previewData st = []
   \/ exists clock data, clean data
        /\ UploadComponent.previewData st
           = DataUpload.samples (DataUpload.validateData clock data)) ->
  (UploadComponent.previewData (fst (UploadSession.step st e)) = []
   \/ exists clock data, clean data
        /\ UploadComponent.previewData (fst (UploadSession.step st e))
           = DataUpload.samples (DataUpload.validateData clock data))
  /\ (forall batch,
        In batch (UploadSession.delivered (snd (UploadSession.step st e))) ->
        batch = UploadComponent.previewData st /\ batch <> []).
Proof.
  intros Hinv. destruct e as [file|clock data|message| |]; cbn [UploadSession.step].
  - split; [|intros batch []]. destruct file; exact Hinv.
  - unfold UploadComponent.complete.
    destruct (DataUpload.isValid (DataUpload.validateData clock data)) eqn:Hv;
      cbn [fst snd UploadComponent.previewData UploadSession.delivered];
      (split; [|intros batch []]); [|exact Hinv].
    right. exists clock, data.
    split; [exact (proj1 (isValid_iff clock data) Hv)|reflexivity].
  - split; [exact Hinv|intros batch []].
  - unfold UploadComponent.preview_shown.
    destruct (UploadComponent.previewData st) as [|s rest] eqn:Ep;
      cbn [length Nat.ltb Nat.leb fst snd].
    + split; [left; exact Ep|intros batch []].
    + cbn [UploadComponent.handleConfirmUpload fst snd].
      split; [rewrite Ep; exact Hinv|].
      intros batch [<-|[]]. rewrite Ep. split; [reflexivity|discriminate].
  - unfold UploadComponent.preview_shown.
    destruct (UploadComponent.previewData st) as [|s rest] eqn:Ep;
      cbn [length Nat.ltb Nat.leb fst snd].
    + split; [left; exact Ep|intros batch []].
    + split; [left; reflexivity|intros batch []].
Qed.

Lemma delivered_app out1 out2 :
  UploadSession.delivered (out1 ++ out2)
  = (UploadSession.delivered out1 ++ UploadSession.delivered out2)%list.
Proof. unfold UploadSession.delivered. apply omap_app. Qed.

Lemma run_delivers events : forall st batch,
  (UploadComponent.previewData st = []
   \/ exists clock data, clean data
        /\ UploadComponent.previewData st
           = DataUpload.samples (DataUpload.validateData clock data)) ->
  In batch (UploadSession.delivered (snd (UploadSession.run events st))) ->
  batch <> []
  /\ exists clock data, clean data
       /\ batch = DataUpload.samples (DataUpload.validateData clock data).
Proof.
  induction events as [|e rest IH]; intros st batch Hinv Hin; [destruct Hin|].
  cbn [UploadSession.run] in Hin.
  destruct (preview_invariant_step st e Hinv) as [Hinv' Hout].
  destruct (UploadSession.step st e) as [st1 out1]. cbn [fst snd] in Hinv', Hout.
  specialize (IH st1 batch Hinv').
  destruct (UploadSession.run rest st1) as [st2 out2]. cbn [snd] in IH, Hin.
  rewrite delivered_app in Hin. apply in_app_or in Hin.
  destruct Hin as [Hin|Hin]; [|exact (IH Hin)].
  destruct (Hout batch Hin) as [-> Hne]. split; [exact Hne|].
  destruct Hinv as [E|Hinv]; [congruence|exact Hinv].
Qed.

(** X15. Whatever happens to the upload component (files chosen, parses
    that complete or fail, clicks on Confirm Data and on Clear, in any
    order), every batch it hands to the dashboard is the complete sample
    list of one clean upload: it is never empty, never a part of a file
    and never the valid rows of a file that had a diagnostic. *)
Theorem only_clean_uploads_are_delivered
    (events : list UploadSession.Event) (batch : list WaterSample) :
  In batch (UploadSession.delivered
              (snd (UploadSession.run events UploadComponent.initial))) ->
  batch <> []
  /\ exists clock data,
       clean data
       /\ batch = DataUpload.samples (DataUpload.validateData clock data)
       /\ length batch = length data.
Proof.
  intros Hin.
  destruct (run_delivers events UploadComponent.initial batch
              ltac:(left; reflexivity) Hin) as (Hne & clock & data & Hc & ->).
  split; [exact Hne|]. exists clock, data. split; [exact Hc|].
  split; [reflexivity|].
  pose proof (valid_upload_ids clock data (proj2 (isValid_iff clock data) Hc))
    as Hids.
  apply (f_equal (@length _)) in Hids.
  rewrite !List.length_map, length_seq in Hids. exact Hids.
Qed.

Lemma only_clean_uploads_are_delivered_witness :
  In (DataUpload.samples (DataUpload.validateData morning [valid_row]))
     (UploadSession.delivered
        (snd (UploadSession.run
                [UploadSession.file_chosen true;
                 UploadSession.parse_complete morning [invalid_row; valid_row];
                 UploadSession.file_chosen true;
                 UploadSession.parse_complete morning [valid_row];
                 UploadSession.confirm_clicked]
                UploadComponent.initial)))
  /\ DataUpload.samples (DataUpload.validateData morning [valid_row]) <> [].
Proof.
  assert (H : In (DataUpload.samples (DataUpload.validateData morning [valid_row]))
     (UploadSession.delivered
        (snd (UploadSession.run
                [UploadSession.file_chosen true;
                 UploadSession.parse_complete morning [invalid_row; valid_row];
                 UploadSession.file_chosen true;
                 UploadSession.parse_complete morning [valid_row];
                 UploadSession.confirm_clicked]
                UploadComponent.initial)))).
  { vm_compute. left. reflexivity. }
  split; [exact H|].
  exact (proj1 (only_clean_uploads_are_delivered _ _ H)).
Defined.

End PipelineFacts.

(** ** Counting categories: the distribution and the map legend *)

Module CountFacts.

Import ResultsVisualization GeospatialMap CountSpec DistributionSpec.
Import DistributionFacts.

Lemma stat_bump acc c c' :
  stat (bump acc c) c'
  = (stat acc c' + (if category_eqb c c' then 1 else 0))%nat.
Proof.
  unfold stat. induction acc as [|[k n] acc IH].
  - destruct c, c'; reflexivity.
  - cbn [bump]. destruct (category_eqb k c) eqn:Ekc.
    + apply category_eqb_eq in Ekc. subst k. cbn [List.find fst].
      destruct (category_eqb c c'); lia.
    + cbn [List.find fst]. destruct (category_eqb k c') eqn:Ekc'; [|exact IH].
      apply category_eqb_eq in Ekc'. subst k.
      destruct c, c'; try discriminate; simpl; lia.
Qed.

Lemma stat_fold l : forall acc c,
  stat (fold_left distribution_step l acc) c
  = (stat acc c + occurrences c l)%nat.
Proof.
  unfold occurrences. induction l as [|s l IH]; intros acc c.
  - simpl. lia.
  - cbn [fold_left List.filter]. rewrite IH. unfold distribution_step, has_category.
    destruct (hmpiResults s) as [r|]; [|reflexivity].
    rewrite stat_bump. destruct (category_eqb (qualityCategory r) c); simpl; lia.
Qed.

Lemma In_stat (acc : Distribution) c n :
  NoDup (List.map fst acc) -> In (c, n) acc -> stat acc c = n.
Proof.
  unfold stat. induction acc as [|[k m] acc IH]; intros Hnd Hin; [destruct Hin|].
  cbn [List.find fst]. simpl in Hnd. apply NoDup_cons in Hnd.
  destruct Hnd as [Hk Hnd]. destruct Hin as [[= -> ->]|Hin].
  - replace (category_eqb c c) with true by (destruct c; reflexivity).
    reflexivity.
  - destruct (category_eqb k c) eqn:E; [|apply IH; assumption].
    apply category_eqb_eq in E. subst k. destruct Hk.
    apply list_elem_of_In, List.in_map_iff. exists (c, n). auto.
Qed.

Lemma stat_In (acc : Distribution) c :
  (1 <= stat acc c)%nat -> In (c, stat acc c) acc.
Proof.
  unfold stat. induction acc as [|[k m] acc IH]; cbn [List.find fst]; [lia|].
  destruct (category_eqb k c) eqn:E.
  - apply category_eqb_eq in E. subst k. intros _. left. reflexivity.
  - intros H. right. apply IH, H.
Qed.

Lemma capitalised_inj a b : capitalised a = capitalised b -> a = b.
Proof. destruct a, b; simpl; congruence. Qed.

(** X16. The quality distribution counts the samples: it has one entry for
    each category that occurs among the samples with results and none for
    the others, no category twice, and the count of an entry is the number
    of samples with results of its category. *)
Theorem distribution_counts_samples (samples : list WaterSample) :
  NoDup (List.map category (qualityDistribution samples))
  /\ (forall e, In e (qualityDistribution samples) ->
        exists c, category e = capitalised c /\ color e = QUALITY_COLORS c
                  /\ count e = occurrences c (ResultsVisualization.processedSamples samples)
                  /\ (1 <= count e)%nat)
  /\ (forall c,
        (1 <= occurrences c (ResultsVisualization.processedSamples samples))%nat ->
        exists e, In e (qualityDistribution samples)
                  /\ category e = capitalised c).
Proof.
  destruct (counts_well_formed samples) as (Hnd & Hpos & _).
  unfold qualityDistribution.
  set (processed := ResultsVisualization.processedSamples samples) in *.
  set (dist := fold_left distribution_step processed []) in *.
  assert (Hstat : forall c, stat dist c = occurrences c processed).
  { intros c. unfold dist. rewrite stat_fold. reflexivity. }
  split; [|split].
  - rewrite List.map_map.
    replace (List.map _ dist) with (List.map capitalised (List.map fst dist)).
    + assert (Hinj : Inj eq eq capitalised)
        by (intros a b; apply capitalised_inj).
      apply (NoDup_fmap_2 capitalised), Hnd.
    + rewrite List.map_map. apply List.map_ext. intros [c n]. reflexivity.
  - intros e He. apply List.in_map_iff in He. destruct He as ([c n] & <- & Hin).
    exists c. cbn [category color count]. repeat split.
    + rewrite <- Hstat. symmetry. apply In_stat; assumption.
    + rewrite List.Forall_forall in Hpos. apply (Hpos n).
      apply List.in_map_iff. exists (c, n). auto.
  - intros c Hc. rewrite <- Hstat in Hc. apply stat_In in Hc.
    eexists. split; [apply List.in_map_iff; eexists; split; [|exact Hc]|];
      reflexivity.
Qed.

(** *** The first entry *)

Lemma bump_head (acc : Distribution) k n c :
  exists n', bump ((k, n) :: acc) c = (k, n') :: tl (bump ((k, n) :: acc) c).
Proof.
  cbn [bump]. destruct (category_eqb k c); eexists; reflexivity.
Qed.

Lemma fold_head l : forall (acc : Distribution) k n,
  exists n' rest, fold_left distribution_step l ((k, n) :: acc) = (k, n') :: rest.
Proof.
  induction l as [|s l IH]; intros acc k n; [simpl; eauto|].
  cbn [fold_left]. unfold distribution_step at 2.
  destruct (hmpiResults s) as [r|]; [|apply IH].
  destruct (bump_head acc k n (qualityCategory r)) as [n' ->]. apply IH.
Qed.

(** X17. The first entry of the quality distribution, which the Quality
    Status card shows after the word Most, is the category of the first
    sample with results: the entries keep the order in which the categories
    were first met, whatever their counts. *)
Theorem first_entry_is_first_sample
    (samples : list WaterSample) (s : WaterSample) (rest : list WaterSample)
    (r : HmpiResults) :
  ResultsVisualization.processedSamples samples = s :: rest ->
  hmpiResults s = Some r ->
  category <$> head (qualityDistribution samples)
  = Some (capitalised (qualityCategory r)).
Proof.
  intros Hp Hr. unfold qualityDistribution. rewrite Hp.
  cbn [fold_left]. unfold distribution_step at 2. rewrite Hr. cbn [bump].
  destruct (fold_head rest [] (qualityCategory r) 1) as (n' & tail & ->).
  reflexivity.
Qed.

Lemma first_entry_is_first_sample_witness :
  ResultsVisualization.processedSamples good_then_poor
  = rated "sample_1" 30 1.2 good
    :: [rated "sample_2" 80 4 poor; rated "sample_3" 90 4.5 poor]
  /\ category <$> head (qualityDistribution good_then_poor) = Some "Good"
  /\ List.map count (qualityDistribution good_then_poor) = [1; 2]%nat.
Proof.
  assert (H : ResultsVisualization.processedSamples good_then_poor
              = rated "sample_1" 30 1.2 good
                :: [rated "sample_2" 80 4 poor; rated "sample_3" 90 4.5 poor])
    by reflexivity.
  split; [exact H|]. split; [|vm_compute; reflexivity].
  exact (first_entry_is_first_sample good_then_poor _ _ _ H eq_refl).
Defined.

End CountFacts.

(** ** The map: legend, hotspots and markers *)

Module MapFacts.

Import ResultsVisualization GeospatialMap CountSpec.
Import DistributionFacts CountFacts.

Lemma map_processedSamples samples :
  GeospatialMap.processedSamples samples
  = ResultsVisualization.processedSamples samples.
Proof. reflexivity. Qed.

Lemma occurrences_total l :
  Forall (fun s => is_Some (hmpiResults s)) l ->
  (occurrences excellent l + occurrences good l + occurrences moderate l
   + occurrences poor l + occurrences unsuitable l = length l)%nat.
Proof.
  unfold occurrences. induction 1 as [|s l [r Hr] _ IH]; [reflexivity|].
  assert (Hc : forall c, has_category c s = category_eqb (qualityCategory r) c)
    by (intros c; unfold has_category; rewrite Hr; reflexivity).
  cbn [List.filter]. rewrite !Hc.
  destruct (qualityCategory r); cbn [category_eqb length]; lia.
Qed.

Lemma critical_count l :
  length (List.filter critical l)
  = (occurrences poor l + occurrences unsuitable l)%nat.
Proof.
  unfold occurrences. induction l as [|s l IH]; [reflexivity|].
  cbn [List.filter].
  assert (Hc : critical s = has_category poor s || has_category unsuitable s).
  { unfold critical, has_category. destruct (hmpiResults s); reflexivity. }
  rewrite Hc.
  destruct (has_category poor s) eqn:E1, (has_category unsuitable s) eqn:E2;
    cbn [orb length]; try lia.
  unfold has_category in E1, E2. destruct (hmpiResults s) as [r|]; [|discriminate].
  destruct (qualityCategory r); discriminate.
Qed.

(** X18. The map's legend and hotspot figures count the samples: the
    number the legend shows for a category is the number of samples with
    results of that category, the five numbers add up to the number of
    sample points, the Hotspots badge is the number of poor and unsuitable
    samples, at most six of which get a card, and the notice that there are
    no critical hotspots appears exactly when the badge shows 0. *)
Theorem map_figures_count_samples (samples : list WaterSample) :
  (forall c, stat (qualityStats samples) c
             = occurrences c (GeospatialMap.processedSamples samples))
  /\ (stat (qualityStats samples) excellent + stat (qualityStats samples) good
      + stat (qualityStats samples) moderate + stat (qualityStats samples) poor
      + stat (qualityStats samples) unsuitable
      = length (GeospatialMap.processedSamples samples))%nat
  /\ hotspots samples
     = length (List.filter critical (GeospatialMap.processedSamples samples))
  /\ length (hotspot_cards samples) = Nat.min 6 (hotspots samples)
  /\ (no_hotspots_notice samples = true <-> hotspots samples = 0%nat).
Proof.
  assert (Hstat : forall c, stat (qualityStats samples) c
             = occurrences c (GeospatialMap.processedSamples samples)).
  { intros c. unfold qualityStats. rewrite stat_fold. reflexivity. }
  assert (Hhot : hotspots samples
     = length (List.filter critical (GeospatialMap.processedSamples samples))).
  { unfold hotspots. rewrite !Hstat, critical_count. reflexivity. }
  split; [exact Hstat|]. split; [|split; [exact Hhot|split]].
  - rewrite !Hstat. apply occurrences_total.
    rewrite map_processedSamples. apply processedSamples_results.
  - unfold hotspot_cards. rewrite length_take, Hhot. reflexivity.
  - unfold no_hotspots_notice. rewrite Hhot. apply Nat.eqb_eq.
Qed.

(** X19. The simulated sample points: there is one marker for each of the
    first eight samples with results and none for the others; every marker
    lies inside the map, between 20 and 80 percent from the left and
    between 30 and 60 percent from the top, and no two markers share a
    position. *)
Theorem markers_are_apart (samples : list WaterSample) :
  length (markers samples)
  = Nat.min 8 (length (GeospatialMap.processedSamples samples))
  /\ Forall (fun m => (20 <= m.1.2 <= 80)%nat /\ (30 <= m.2 <= 60)%nat)
            (markers samples)
  /\ NoDup (List.map (fun m => (m.1.2, m.2)) (markers samples)).
Proof.
  unfold markers.
  set (shown := take 8 (GeospatialMap.processedSamples samples)).
  assert (Hlen : (length shown <= 8)%nat).
  { unfold shown. rewrite length_take. lia. }
  split; [|split].
  - rewrite length_imap. apply length_take.
  - apply List.Forall_forall. intros m Hm. apply list_elem_of_In in Hm.
    apply list_elem_of_lookup in Hm. destruct Hm as [i Hi].
    rewrite list_lookup_imap in Hi.
    destruct (shown !! i) as [s|] eqn:Es; [|discriminate].
    apply lookup_lt_Some in Es. injection Hi as <-. cbn [fst snd].
    unfold marker_left, marker_top.
    assert (i < 8)%nat by lia.
    assert (i mod 4 < 4)%nat by (apply Nat.mod_upper_bound; lia).
    assert (i / 4 < 2)%nat by (apply Nat.Div0.div_lt_upper_bound; lia).
    lia.
  - change (List.map ?f ?l) with (f <$> l). rewrite fmap_imap.
    rewrite (imap_ext _ (fun j _ => (marker_left j, marker_top j)))
      by (intros; reflexivity).
    rewrite imap_seq_0. clear -Hlen.
    assert (H : forall n, (n <= 8)%nat ->
              NoDup ((fun j => (marker_left j, marker_top j)) <$> seq 0 n)).
    { intros n Hn. do 9 (destruct n as [|n]; [apply (bool_decide_unpack _);
        vm_compute; reflexivity|]). lia. }
    apply H, Hlen.
Qed.

End MapFacts.

(** ** The sign of sums, products and quotients *)

Module SignFacts.

Import SignSpec UploadSpec RoundingFacts.
Local Open Scope Z_scope.

Lemma non_negative_SF v : non_negative v <-> nn (Prim2SF v).
Proof.
  unfold non_negative, JS.isNaN, JS.lt. rewrite FloatAxioms.ltb_spec.
  change (Prim2SF 0) with (S754_zero false).
  split.
  - intros [Hn Hl].
    destruct (Prim2SF v) as [s|s| |s m e] eqn:E; simpl.
    + exact I.
    + destruct s; [discriminate|reflexivity].
    + apply is_nan_SF in E. congruence.
    + destruct s; [discriminate|reflexivity].
  - intros H. split.
    + destruct (PrimFloat.is_nan v) eqn:E; [|reflexivity].
      apply is_nan_SF in E. rewrite E in H. destruct H.
    + destruct (Prim2SF v) as [s|s| |s m e]; simpl in H; subst; reflexivity.
Qed.

Lemma binary_round_aux_sign s mx ex lx :
  0 <= mx ->
  match binary_round_aux prec emax s mx ex lx with
  | S754_zero s' | S754_infinity s' | S754_finite s' _ _ => s' = s
  | S754_nan => False
  end.
Proof.
  intros Hmx. unfold binary_round_aux.
  destruct (shr_fexp_spec mx ex lx Hmx) as [Hm1 _].
  destruct (shr_fexp prec emax mx ex lx) as [mrs' e']. simpl fst in *.
  pose proof (round_nearest_even_range (shr_m mrs') (loc_of_shr_record mrs')) as Hr.
  set (r := round_nearest_even (shr_m mrs') (loc_of_shr_record mrs')) in *.
  assert (H1 : 0 <= shr_m mrs').
  { rewrite Hm1. apply Z.div_pos; [lia|apply Z.pow_pos_nonneg; lia]. }
  assert (H2 : 0 <= r) by lia.
  destruct (shr_fexp_spec r e' loc_Exact H2) as [Hm2 _].
  destruct (shr_fexp prec emax r e' loc_Exact) as [mrs'' e'']. simpl fst in *.
  assert (H3 : 0 <= shr_m mrs'').
  { rewrite Hm2. apply Z.div_pos; [lia|apply Z.pow_pos_nonneg; lia]. }
  destruct (shr_m mrs''); [reflexivity| |lia].
  destruct (e'' <=? emax - prec); reflexivity.
Qed.

Lemma binary_round_aux_nn mx ex lx :
  0 <= mx -> nn (binary_round_aux prec emax false mx ex lx).
Proof.
  intros Hmx. pose proof (binary_round_aux_sign false mx ex lx Hmx) as H.
  destruct (binary_round_aux prec emax false mx ex lx); simpl; tauto.
Qed.

(** Shifting a positive mantissa to its format never empties it, as long
    as the exponent is not below the smallest one. *)
Lemma shift_keeps_positive m e :
  1 <= m -> -1074 <= e ->
  1 <= m / 2 ^ Z.max 0 (fexp prec emax (Zdigits2 m + e) - e).
Proof.
  intros Hm He. rewrite fexp_eq.
  pose proof (Zdigits2_bounds m ltac:(lia)) as [Hlow _].
  set (d := Zdigits2 m) in *.
  destruct (Z.max_spec 0 (Z.max (d + e - 53) (-1074) - e)) as [[Hk ->]|[_ ->]].
  - replace (Z.max (d + e - 53) (-1074) - e) with (d - 53) in * by lia.
    apply Z.div_le_lower_bound; [apply Z.pow_pos_nonneg; lia|].
    rewrite Z.mul_1_r. etransitivity; [|exact Hlow].
    apply Z.pow_le_mono_r; lia.
  - rewrite Z.div_1_r. exact Hm.
Qed.

Lemma binary_round_aux_positive mx ex lx :
  1 <= mx -> -1074 <= ex ->
  SFltb (S754_zero false) (binary_round_aux prec emax false mx ex lx) = true.
Proof.
  intros Hmx Hex. unfold binary_round_aux.
  destruct (shr_fexp_spec mx ex lx ltac:(lia)) as [Hm1 He1].
  pose proof (shift_keeps_positive mx ex Hmx Hex) as P1.
  destruct (shr_fexp prec emax mx ex lx) as [mrs' e']. simpl fst in *; simpl snd in *.
  pose proof (round_nearest_even_range (shr_m mrs') (loc_of_shr_record mrs')) as Hr.
  set (r := round_nearest_even (shr_m mrs') (loc_of_shr_record mrs')) in *.
  assert (H2 : 1 <= r) by lia.
  assert (He' : -1074 <= e') by lia.
  destruct (shr_fexp_spec r e' loc_Exact ltac:(lia)) as [Hm2 _].
  pose proof (shift_keeps_positive r e' H2 He') as P2.
  destruct (shr_fexp prec emax r e' loc_Exact) as [mrs'' e'']. simpl fst in *.
  rewrite <- Hm2 in P2.
  destruct (shr_m mrs''); [lia| |lia].
  destruct (e'' <=? emax - prec); reflexivity.
Qed.

Lemma SFadd_nn x y : nn x -> nn y -> nn (SFadd prec emax x y).
Proof.
  destruct x as [sx|sx| |sx mx ex], y as [sy|sy| |sy my ey]; simpl;
    try tauto; try congruence.
  - intros _ _. destruct sx, sy; exact I.
  - intros -> ->. reflexivity.
  - intros -> ->. unfold binary_normalize. cbn [cond_Zopp Z.add].
    rewrite <- Pos2Z.inj_add. set (p := Pos.add _ _). unfold binary_round.
    destruct (shl_align p _ _) as [mz ez]. apply binary_round_aux_nn. lia.
Qed.

Lemma SFmul_nn x my ey :
  nn x -> nn (SFmul prec emax x (S754_finite false my ey))
          /\ nn (SFmul prec emax (S754_finite false my ey) x).
Proof.
  destruct x as [sx|sx| |sx mx ex]; simpl; try tauto.
  - intros ->. split; reflexivity.
  - intros ->. split; apply binary_round_aux_nn; lia.
Qed.

Lemma SFdiv_nn x my ey :
  nn x -> nn (SFdiv prec emax x (S754_finite false my ey)).
Proof.
  destruct x as [sx|sx| |sx mx ex]; simpl; try tauto.
  - intros ->. reflexivity.
  - intros ->. destruct (SFdiv_core_spec mx ex my ey) as (q & l & -> & Hq & _).
    apply binary_round_aux_nn, Hq.
Qed.

Lemma add_non_negative a b :
  non_negative a -> non_negative b -> non_negative (a + b)%float.
Proof.
  rewrite !non_negative_SF, FloatAxioms.add_spec. apply SFadd_nn.
Qed.

Lemma mul_non_negative_r a c :
  non_negative a -> positive_finite c -> non_negative (a * c)%float.
Proof.
  rewrite !non_negative_SF, FloatAxioms.mul_spec. intros Ha (m & e & ->).
  apply SFmul_nn, Ha.
Qed.

Lemma mul_non_negative_l a c :
  non_negative a -> positive_finite c -> non_negative (c * a)%float.
Proof.
  rewrite !non_negative_SF, FloatAxioms.mul_spec. intros Ha (m & e & ->).
  apply SFmul_nn, Ha.
Qed.

Lemma div_non_negative a c :
  non_negative a -> positive_finite c -> non_negative (a / c)%float.
Proof.
  rewrite !non_negative_SF, FloatAxioms.div_spec. intros Ha (m & e & ->).
  apply SFdiv_nn, Ha.
Qed.

(** *** The sign of a difference *)

Lemma canonical_bounds m e :
  SpecFloat.bounded prec emax m e = true ->
  -1074 <= e /\ Zpos m < 2 ^ 53 /\ (-1074 < e -> 2 ^ 52 <= Zpos m).
Proof.
  unfold SpecFloat.bounded, canonical_mantissa. intros H.
  apply andb_true_iff in H. destruct H as [H _].
  apply Z.eqb_eq in H. rewrite fexp_eq in H.
  pose proof (Zdigits2_bounds (Zpos m) ltac:(lia)) as [Hl Hu].
  simpl Zdigits2 in Hl, Hu. set (d := Zpos (digits2_pos m)) in *.
  split; [lia|]. split.
  - eapply Z.lt_le_trans; [exact Hu|]. apply Z.pow_le_mono_r; lia.
  - intros He. replace d with 53 in Hl by lia. exact Hl.
Qed.

Lemma shl_align_spec m e ez :
  ez <= e -> Zpos (fst (shl_align m e ez)) = Zpos m * 2 ^ (e - ez).
Proof.
  intros H. unfold shl_align. destruct (ez - e) as [|k|k] eqn:E; cbn [fst].
  - replace (e - ez) with 0 by lia. lia.
  - lia.
  - destruct (iter_xO_spec m k) as [-> _]. f_equal. f_equal. lia.
Qed.

Lemma binary_normalize_sign D ez :
  -1074 <= ez ->
  SFltb (S754_zero false) (binary_normalize prec emax D ez false) = (0 <? D).
Proof.
  intros He. unfold binary_normalize. destruct D as [|p|p].
  - reflexivity.
  - unfold binary_round.
    assert (Hz : -1074 <= snd (shl_align p ez
                   (fexp prec emax (Zpos (digits2_pos p) + ez)))).
    { unfold shl_align. rewrite fexp_eq.
      destruct (Z.max _ _ - ez); cbn [snd]; lia. }
    destruct (shl_align p ez _) as [mz ez']. cbn [snd] in Hz.
    apply binary_round_aux_positive; lia.
  - unfold binary_round. destruct (shl_align p ez _) as [mz ez'].
    pose proof (binary_round_aux_sign true (Zpos mz) ez' loc_Exact ltac:(lia)) as H.
    destruct (binary_round_aux prec emax true (Zpos mz) ez' loc_Exact)
      as [s|s| |s m e]; try subst s; reflexivity.
Qed.

Lemma SFsub_sign A B :
  nn A -> nn B -> SpecFloat.valid_binary prec emax A = true ->
  SpecFloat.valid_binary prec emax B = true ->
  SFltb (S754_zero false) (SFsub prec emax B A) = SFltb A B.
Proof.
  destruct A as [sa|sa| |sa ma ea], B as [sb|sb| |sb mb eb];
    cbn [nn]; try tauto; intros HA HB VA VB; subst;
    try reflexivity; try (destruct sa; reflexivity);
    try (destruct sb; reflexivity); try (destruct sa, sb; reflexivity).
  cbn [SpecFloat.valid_binary] in VA, VB.
  destruct (canonical_bounds ma ea VA) as (Ea & Ua & La).
  destruct (canonical_bounds mb eb VB) as (Eb & Ub & Lb).
  cbn [SFsub cond_Zopp]. rewrite binary_normalize_sign by lia.
  rewrite !shl_align_spec by lia.
  unfold SFltb, SFcompare. rewrite Pos.compare_cont_spec. cbn [Pos.switch_Eq].
  destruct (Z.compare_spec ea eb) as [->|Hlt|Hgt].
  - rewrite Z.min_id, Z.sub_diag, !Z.mul_1_r.
    destruct (Pos.compare_spec ma mb); [apply Z.ltb_ge|apply Z.ltb_lt
      |apply Z.ltb_ge]; lia.
  - replace (Z.min eb ea) with ea by lia. rewrite Z.sub_diag, Z.mul_1_r.
    apply Z.ltb_lt.
    assert (2 ^ 1 <= 2 ^ (eb - ea)) by (apply Z.pow_le_mono_r; lia).
    specialize (Lb ltac:(lia)). change (2 ^ 1) with 2 in *.
    change (2 ^ 53) with (2 ^ 52 * 2) in Ua. nia.
  - replace (Z.min eb ea) with eb by lia. rewrite Z.sub_diag, Z.mul_1_r.
    apply Z.ltb_ge.
    assert (2 ^ 1 <= 2 ^ (ea - eb)) by (apply Z.pow_le_mono_r; lia).
    specialize (La ltac:(lia)). change (2 ^ 1) with 2 in *.
    change (2 ^ 53) with (2 ^ 52 * 2) in Ub. nia.
Qed.

(** [b - a > 0] is [a < b] on numbers that are not NaN and not negative. *)
Lemma sub_sign a b :
  non_negative a -> non_negative b ->
  JS.gt (b - a)%float 0%float = JS.lt a b.
Proof.
  rewrite !non_negative_SF. intros Ha Hb. unfold JS.gt, JS.lt.
  rewrite !FloatAxioms.ltb_spec, FloatAxioms.sub_spec.
  change (Prim2SF 0) with (S754_zero false).
  apply SFsub_sign; try assumption; apply FloatAxioms.Prim2SF_valid.
Qed.

End SignFacts.

(** ** The indices of accepted samples *)

Module IndexFacts.

Import CalculationEngine SignSpec UploadSpec SignFacts.
Import DataUpload UploadFacts.
Local Open Scope float_scope.

Lemma table_entry_positive (table : list (string * number)) metal v :
  Forall (fun entry => positive_finite entry.2) table ->
  JS.inherited metal = false ->
  truthy_entry (list_to_map table) metal = Some v -> positive_finite v.
Proof.
  intros Hall Hown. unfold truthy_entry. rewrite Hown.
  destruct (list_to_map table !! metal) as [w|] eqn:E; [|discriminate].
  destruct (truthy w); [|discriminate]. intros [= <-].
  apply elem_of_list_to_map_2, list_elem_of_In in E.
  rewrite List.Forall_forall in Hall. exact (Hall _ E).
Qed.

Lemma standard_positive metal s :
  JS.inherited metal = false ->
  truthy_entry WHO_STANDARDS metal = Some s -> positive_finite s.
Proof.
  apply table_entry_positive.
  repeat (constructor; [eexists _, _; reflexivity|]). constructor.
Qed.

Lemma weight_positive metal w :
  JS.inherited metal = false ->
  truthy_entry METAL_WEIGHTS metal = Some w -> positive_finite w.
Proof.
  apply table_entry_positive.
  repeat (constructor; [eexists _, _; reflexivity|]). constructor.
Qed.

Lemma positive_100 : positive_finite 100.
Proof. eexists _, _. reflexivity. Qed.

Lemma positive_9 : positive_finite 9.
Proof. eexists _, _. reflexivity. Qed.

Lemma non_negative_0 : non_negative 0.
Proof. split; reflexivity. Qed.

Lemma hpi_fold_sum metals : forall ws tw,
  Forall (fun key => JS.inherited key = false) (List.map fst metals) ->
  Forall non_negative (List.map snd metals) -> non_negative ws ->
  non_negative (fst (fold_left hpi_step metals (ws, tw))).
Proof.
  induction metals as [|[metal c] metals IH]; intros ws tw Hown Hall Hws;
    [exact Hws|].
  cbn [fold_left]. inversion Hall as [|? ? Hc Hrest]; subst.
  inversion Hown as [|? ? Hm Hown']; subst.
  unfold hpi_step at 2.
  destruct (truthy_entry WHO_STANDARDS metal) as [s|] eqn:Es; [|apply IH; assumption].
  destruct (truthy_entry METAL_WEIGHTS metal) as [w|] eqn:Ew; [|apply IH; assumption].
  apply IH; [exact Hown'|exact Hrest|].
  apply add_non_negative; [exact Hws|].
  apply mul_non_negative_l; [|exact (weight_positive _ _ Hm Ew)].
  apply mul_non_negative_r; [|exact positive_100].
  apply div_non_negative; [exact Hc|exact (standard_positive _ _ Hm Es)].
Qed.

Lemma hpi_fold_keys m1 : forall m2 a1 a2,
  List.map fst m1 = List.map fst m2 -> snd a1 = snd a2 ->
  snd (fold_left hpi_step m1 a1) = snd (fold_left hpi_step m2 a2).
Proof.
  induction m1 as [|[k c1] m1 IH]; intros [|[k2 c2] m2] [ws1 tw1] [ws2 tw2] Hk Ht;
    try discriminate; [exact Ht|].
  simpl in Hk, Ht. injection Hk as <- Hk. subst tw2.
  cbn [fold_left]. apply IH; [exact Hk|]. unfold hpi_step.
  destruct (truthy_entry WHO_STANDARDS k), (truthy_entry METAL_WEIGHTS k);
    reflexivity.
Qed.

Lemma cf_fold_sum metals : forall total count,
  Forall (fun key => JS.inherited key = false) (List.map fst metals) ->
  Forall non_negative (List.map snd metals) -> non_negative total ->
  non_negative (fst (fold_left cf_step metals (total, count))).
Proof.
  induction metals as [|[metal c] metals IH]; intros total count Hown Hall Ht;
    [exact Ht|].
  cbn [fold_left]. inversion Hall as [|? ? Hc Hrest]; subst.
  inversion Hown as [|? ? Hm Hown']; subst.
  unfold cf_step at 2.
  destruct (truthy_entry WHO_STANDARDS metal) as [s|] eqn:Es; [|apply IH; assumption].
  apply IH; [exact Hown'|exact Hrest|].
  apply add_non_negative; [exact Ht|].
  apply div_non_negative; [exact Hc|exact (standard_positive _ _ Hm Es)].
Qed.

Lemma cf_fold_keys m1 : forall m2 a1 a2,
  List.map fst m1 = List.map fst m2 -> snd a1 = snd a2 ->
  snd (fold_left cf_step m1 a1) = snd (fold_left cf_step m2 a2).
Proof.
  induction m1 as [|[k c1] m1 IH]; intros [|[k2 c2] m2] [t1 n1] [t2 n2] Hk Ht;
    try discriminate; [exact Ht|].
  simpl in Hk, Ht. injection Hk as <- Hk. subst n2.
  cbn [fold_left]. apply IH; [exact Hk|]. unfold cf_step.
  destruct (truthy_entry WHO_STANDARDS k); reflexivity.
Qed.

Lemma calculateHPI_unfold metals :
  calculateHPI metals
  = if gt (snd (fold_left hpi_step metals (0, 0))) 0
    then fst (fold_left hpi_step metals (0, 0))
         / snd (fold_left hpi_step metals (0, 0))
    else 0.
Proof.
  unfold calculateHPI. destruct (fold_left hpi_step metals (0, 0)). reflexivity.
Qed.

Lemma calculateCF_unfold metals :
  calculateCF metals
  = if gt (JS.of_nat (snd (fold_left cf_step metals (0, O)))) 0
    then fst (fold_left cf_step metals (0, O))
         / JS.of_nat (snd (fold_left cf_step metals (0, O)))
    else 0.
Proof.
  unfold calculateCF. destruct (fold_left cf_step metals (0, O)). reflexivity.
Qed.

Lemma panel_indices_are_numbers (panel : MetalPanel) :
  List.map fst panel = metal_names ->
  Forall non_negative (List.map snd panel) ->
  non_negative (calculateHPI panel) /\ non_negative (calculateCF panel).
Proof.
  intros Hk Hn.
  set (keys := List.map (fun m : string => (m, 0)) metal_names).
  assert (Hkeys : List.map fst panel = List.map fst keys)
    by (rewrite Hk; reflexivity).
  assert (Hown : Forall (fun key => JS.inherited key = false)
                   (List.map fst panel))
    by (rewrite Hk; repeat constructor).
  split.
  - rewrite calculateHPI_unfold.
    pose proof (hpi_fold_sum panel 0 0 Hown Hn non_negative_0) as Hsum.
    rewrite (hpi_fold_keys panel keys (0, 0) (0, 0) Hkeys eq_refl).
    assert (E : snd (fold_left hpi_step keys (0, 0)) = 9)
      by (vm_compute; reflexivity).
    rewrite E. change (gt 9 0) with true. cbn iota.
    apply div_non_negative; [exact Hsum|exact positive_9].
  - rewrite calculateCF_unfold.
    pose proof (cf_fold_sum panel 0 O Hown Hn non_negative_0) as Hsum.
    rewrite (cf_fold_keys panel keys (0, O) (0, O) Hkeys eq_refl).
    assert (E : snd (fold_left cf_step keys (0, O)) = 9%nat)
      by (vm_compute; reflexivity).
    rewrite E. change (JS.of_nat 9) with 9. change (gt 9 0) with true.
    cbn iota. apply div_non_negative; [exact Hsum|exact positive_9].
Qed.

(** X20. The HPI and the contamination factor of an accepted sample are
    never NaN and never negative (they can be infinite): the nine
    concentrations are not NaN and not below zero, the standards and
    weights are positive, and sums, products and quotients of such numbers
    stay that way.  (The PLI has no such guarantee: its running product can
    meet zero times infinity.) *)
Theorem accepted_sample_indices_are_numbers
    (clock : Clock) (data : list Row) (s : WaterSample) :
  In s (samples (validateData clock data)) ->
  non_negative (calculateHPI (metals s))
  /\ non_negative (calculateCF (metals s)).
Proof.
  intros Hs. destruct (accepted_panel clock data s Hs) as [Hk Hn].
  apply panel_indices_are_numbers; assumption.
Qed.

Lemma accepted_sample_indices_are_numbers_witness :
  In (ValidatorSpec.row_sample ValidatorSpec.morning
        (ValidatorSpec.arsenic_row "1e308") 0)
     (samples (validateData ValidatorSpec.morning
                 [ValidatorSpec.arsenic_row "1e308"]))
  /\ non_negative (calculateHPI Examples.overflowing_panel)
  /\ calculateHPI Examples.overflowing_panel = PrimFloat.infinity.
Proof.
  assert (H : In (ValidatorSpec.row_sample ValidatorSpec.morning
                    (ValidatorSpec.arsenic_row "1e308") 0)
                 (samples (validateData ValidatorSpec.morning
                             [ValidatorSpec.arsenic_row "1e308"]))).
  { vm_compute. left. reflexivity. }
  split; [exact H|]. split; [|vm_compute; reflexivity].
  exact (proj1 (accepted_sample_indices_are_numbers _ _ _ H)).
Defined.

End IndexFacts.

(** ** The summary statistics *)

Module StatisticsFacts.

Import Statistics OrderFacts.
Local Open Scope float_scope.

Lemma min_from_spec values : forall lowest,
  isNaN lowest = false ->
  Forall (fun v => isNaN v = false) values ->
  PrimFloat.leb (min_from lowest values) lowest = true
  /\ Forall (fun v => PrimFloat.leb (min_from lowest values) v = true) values
  /\ (min_from lowest values = lowest \/ In (min_from lowest values) values).
Proof.
  induction values as [|v rest IH]; intros lowest Hl Hall.
  - cbn [min_from]. split; [|split; [constructor|left; reflexivity]].
    apply leb_refl, Hl.
  - inversion Hall as [|? ? Hv Hrest]; subst. cbn [min_from]. rewrite Hv.
    destruct (is_negative_zero v && is_positive_zero lowest) eqn:Ez.
    + apply andb_true_iff in Ez. destruct Ez as [Ev El].
      unfold is_negative_zero, is_positive_zero in Ev, El.
      apply andb_true_iff in Ev, El. destruct Ev as [Ev _], El as [El _].
      destruct (IH v Hv Hrest) as (H1 & H2 & H3).
      split; [exact (leb_trans _ _ _ H1 (leb_zeros _ _ Ev El))|].
      split; [constructor; assumption|].
      right. destruct H3 as [->|H3]; [left; reflexivity|right; exact H3].
    + destruct (lt v lowest) eqn:Elt.
      * destruct (IH v Hv Hrest) as (H1 & H2 & H3).
        split; [exact (leb_trans _ _ _ H1 (ltb_leb _ _ Elt))|].
        split; [constructor; assumption|].
        right. destruct H3 as [->|H3]; [left; reflexivity|right; exact H3].
      * destruct (IH lowest Hl Hrest) as (H1 & H2 & H3).
        split; [exact H1|]. split.
        -- constructor; [|exact H2].
           exact (leb_trans _ _ _ H1 (not_lt_le _ _ Hv Hl Elt)).
        -- destruct H3 as [H3|H3]; [left; exact H3|right; right; exact H3].
Qed.

Lemma max_from_spec values : forall highest,
  isNaN highest = false ->
  Forall (fun v => isNaN v = false) values ->
  PrimFloat.leb highest (max_from highest values) = true
  /\ Forall (fun v => PrimFloat.leb v (max_from highest values) = true) values
  /\ (max_from highest values = highest \/ In (max_from highest values) values).
Proof.
  induction values as [|v rest IH]; intros highest Hh Hall.
  - cbn [max_from]. split; [|split; [constructor|left; reflexivity]].
    apply leb_refl, Hh.
  - inversion Hall as [|? ? Hv Hrest]; subst. cbn [max_from]. rewrite Hv.
    destruct (is_positive_zero v && is_negative_zero highest) eqn:Ez.
    + apply andb_true_iff in Ez. destruct Ez as [Ev Eh].
      unfold is_negative_zero, is_positive_zero in Ev, Eh.
      apply andb_true_iff in Ev, Eh. destruct Ev as [Ev _], Eh as [Eh _].
      destruct (IH v Hv Hrest) as (H1 & H2 & H3).
      split; [exact (leb_trans _ _ _ (leb_zeros _ _ Eh Ev) H1)|].
      split; [constructor; assumption|].
      right. destruct H3 as [->|H3]; [left; reflexivity|right; exact H3].
    + destruct (gt v highest) eqn:Egt.
      * destruct (IH v Hv Hrest) as (H1 & H2 & H3).
        split; [exact (leb_trans _ _ _ (ltb_leb _ _ Egt) H1)|].
        split; [constructor; assumption|].
        right. destruct H3 as [->|H3]; [left; reflexivity|right; exact H3].
      * destruct (IH highest Hh Hrest) as (H1 & H2 & H3).
        split; [exact H1|]. split.
        -- constructor; [|exact H2].
           exact (leb_trans _ _ _ (not_lt_le _ _ Hh Hv Egt) H1).
        -- destruct H3 as [H3|H3]; [left; exact H3|right; right; exact H3].
Qed.

Lemma min_from_NaN values : forall lowest,
  Exists (fun v => isNaN v = true) values -> min_from lowest values = NaN.
Proof.
  induction values as [|v rest IH]; intros lowest H; [inversion H|].
  cbn [min_from]. destruct (isNaN v) eqn:Ev; [reflexivity|].
  inversion H as [? ? Hv|? ? Hrest]; subst; [congruence|].
  destruct (_ && _); [apply IH, Hrest|]. destruct (lt v lowest); apply IH, Hrest.
Qed.

Lemma max_from_NaN values : forall highest,
  Exists (fun v => isNaN v = true) values -> max_from highest values = NaN.
Proof.
  induction values as [|v rest IH]; intros highest H; [inversion H|].
  cbn [max_from]. destruct (isNaN v) eqn:Ev; [reflexivity|].
  inversion H as [? ? Hv|? ? Hrest]; subst; [congruence|].
  destruct (_ && _); [apply IH, Hrest|]. destruct (gt v highest); apply IH, Hrest.
Qed.

Section Engine.

Variable argument_limit : nat.

Lemma summary_within values :
  (length values <= argument_limit)%nat ->
  summary argument_limit values
  = Some {| min := min_from PrimFloat.infinity values;
            max := max_from PrimFloat.neg_infinity values;
            avg := fold_left (fun a b => a + b) values 0
                   / JS.of_nat (length values) |}.
Proof.
  intros H. apply Nat.leb_le in H.
  unfold summary, Math_min, Math_max, spread. rewrite H. reflexivity.
Qed.

Lemma summary_beyond values :
  (argument_limit < length values)%nat -> summary argument_limit values = None.
Proof.
  intros H. apply Nat.leb_gt in H.
  unfold summary, Math_min, spread. rewrite H. reflexivity.
Qed.

(** X21. The summary of a list of index values, where the engine takes
    [argument_limit] arguments in a call.  A list of at most that many
    values has a summary: when the list is not empty and holds no NaN, its
    minimum and maximum are values of the list and every value lies between
    them; when a value is NaN, minimum and maximum are both NaN; on the
    empty list the minimum is plus infinity, the maximum minus infinity and
    the average NaN.  A longer list has no summary: the computation ends in
    a RangeError. *)
Theorem summary_brackets_values (values : list number) :
  ((length values <= argument_limit)%nat ->
   exists s : Summary,
     summary argument_limit values = Some s
     /\ (values <> [] -> Forall (fun v => isNaN v = false) values ->
         In (min s) values /\ In (max s) values
         /\ Forall (fun v => PrimFloat.leb (min s) v = true
                             /\ PrimFloat.leb v (max s) = true)
                   values)
     /\ (Exists (fun v => isNaN v = true) values ->
         min s = NaN /\ max s = NaN)
     /\ (values = [] ->
         min s = PrimFloat.infinity /\ max s = PrimFloat.neg_infinity
         /\ isNaN (avg s) = true))
  /\ ((argument_limit < length values)%nat ->
      summary argument_limit values = None).
Proof.
  split; [|apply summary_beyond].
  intros Hlen. eexists. split; [apply summary_within, Hlen|].
  cbn [min max avg]. split; [|split].
  - intros Hne Hall.
    destruct (min_from_spec values PrimFloat.infinity eq_refl Hall)
      as (_ & L2 & L3).
    destruct (max_from_spec values PrimFloat.neg_infinity eq_refl Hall)
      as (_ & U2 & U3).
    destruct values as [|v0 rest]; [congruence|].
    split; [|split].
    + destruct L3 as [L3|L3]; [|exact L3]. rewrite L3 in *.
      inversion L2 as [|? ? Hv _]; subst. apply infinity_leb in Hv.
      left. exact Hv.
    + destruct U3 as [U3|U3]; [|exact U3]. rewrite U3 in *.
      inversion U2 as [|? ? Hv _]; subst. apply leb_neg_infinity in Hv.
      left. exact Hv.
    + rewrite List.Forall_forall in *. intros v Hv. split; auto.
  - intros H. split; [apply min_from_NaN, H|apply max_from_NaN, H].
  - intros ->. repeat split.
Qed.

End Engine.

End StatisticsFacts.

(** ** The selection of indices *)

Module SelectionFacts.

Import CalculationEngine IndexSelection.

(** X22. Toggling a checkbox sets that index and leaves the other two as
    they were; the count of selected indices is the number of checked
    boxes, and the Calculate button is enabled exactly when no calculation
    is running and at least one box is checked. *)
Theorem toggle_sets_one_index
    (sel : SelectedIndices) (i : IndexId) (value : bool) :
  checked (handleIndexToggle i value sel) i = value
  /\ (forall j, j <> i ->
        checked (handleIndexToggle i value sel) j = checked sel j)
  /\ selectedCount sel = length (List.filter (checked sel) availableIndices)
  /\ (forall isCalculating,
        calculate_disabled isCalculating sel = false
        <-> isCalculating = false /\ exists j, checked sel j = true).
Proof.
  split; [destruct i; reflexivity|].
  split; [intros j Hj; destruct i, j; try reflexivity; congruence|].
  split; [destruct sel as [[] [] []]; reflexivity|].
  intros isCalculating. unfold calculate_disabled, selectedCount.
  destruct sel as [h p c]. cbn [sel_hpi sel_pli sel_cf]. split.
  - intros H. apply orb_false_iff in H. destruct H as [-> H].
    split; [reflexivity|].
    destruct h; [exists hpi_id; reflexivity|].
    destruct p; [exists pli_id; reflexivity|].
    destruct c; [exists cf_id; reflexivity|discriminate].
  - intros [-> [j Hj]]. destruct h, p, c, j; try reflexivity; discriminate.
Qed.

End SelectionFacts.

(** ** The key pollutants *)

Module TableFacts.

Import ResultsTable TableSpec UploadSpec SignFacts OrderFacts.
Local Open Scope float_scope.

Lemma insert_Permutation {A : Type} (cmp : A -> A -> number) x l :
  Permutation (insert cmp x l) (x :: l).
Proof.
  induction l as [|y l IH]; [reflexivity|]. cbn [insert].
  destruct (after cmp x y); [|reflexivity].
  rewrite IH. apply perm_swap.
Qed.

Lemma Array_sort_Permutation {A : Type} (cmp : A -> A -> number) l :
  Permutation (Array_sort cmp l) l.
Proof.
  induction l as [|x l IH]; [reflexivity|].
  cbn [Array_sort fold_right]. fold (Array_sort cmp l).
  rewrite insert_Permutation, IH. reflexivity.
Qed.

Lemma after_by_concentration x y :
  non_negative (snd x) -> non_negative (snd y) ->
  after by_concentration x y = lt (snd x) (snd y).
Proof. intros Hx Hy. apply sub_sign; assumption. Qed.

Lemma insert_sorted x l :
  non_negative (snd x) -> Forall (fun y => non_negative (snd y)) l ->
  ForallOrdPairs descending l ->
  ForallOrdPairs descending (insert by_concentration x l).
Proof.
  intros Hx Hl Hs. induction Hs as [|y l Hy Hs IH].
  - repeat constructor.
  - inversion Hl as [|? ? Hny Hnl]; subst. cbn [insert].
    rewrite (after_by_concentration x y Hx Hny).
    destruct (lt (snd x) (snd y)) eqn:E.
    + constructor; [|apply IH, Hnl].
      apply (Permutation_Forall (Permutation_sym (insert_Permutation _ x l))).
      constructor; [exact (ltb_leb _ _ E)|exact Hy].
    + assert (Hxy : descending x y).
      { apply not_lt_le; [apply Hx|apply Hny|exact E]. }
      constructor; [|constructor; assumption].
      constructor; [exact Hxy|].
      rewrite List.Forall_forall in *. intros z Hz.
      exact (leb_trans _ _ _ (Hy z Hz) Hxy).
Qed.

Lemma Array_sort_sorted l :
  Forall (fun y => non_negative (snd y)) l ->
  ForallOrdPairs descending (Array_sort by_concentration l).
Proof.
  induction 1 as [|x l Hx Hl IH]; [constructor|].
  cbn [Array_sort fold_right]. fold (Array_sort by_concentration l).
  apply insert_sorted; [exact Hx| |exact IH].
  apply (Permutation_Forall (Permutation_sym (Array_sort_Permutation _ l))), Hl.
Qed.

Lemma sorted_take_drop {A : Type} (R : A -> A -> Prop) l :
  ForallOrdPairs R l ->
  forall n, Forall (fun x => Forall (R x) (drop n l)) (take n l).
Proof.
  induction 1 as [|a l Ha Hs IH]; intros [|n]; cbn [take drop]; constructor.
  - apply Forall_drop, Ha.
  - apply IH.
Qed.

(** X23. The key pollutants of a sample whose concentrations are not NaN
    and not negative (every accepted sample is such) are the metals of the
    two largest concentrations as they stand, in mg/L and not relative to
    the standards: the entries of the panel split into the shown ones, at
    most two, and the others, and no other entry has a concentration above
    that of a shown one. *)
Theorem key_pollutants_are_largest (sample : WaterSample) :
  Forall non_negative (List.map snd (metals sample)) ->
  exists shown others,
    Permutation (shown ++ others) (metals sample)
    /\ topPollutants sample = List.map fst shown
    /\ length shown = Nat.min 2 (length (metals sample))
    /\ Forall (fun x => Forall (descending x) others) shown.
Proof.
  intros Hn. rewrite List.Forall_map in Hn.
  set (sorted := Array_sort by_concentration (metals sample)).
  exists (take 2 sorted), (drop 2 sorted).
  pose proof (Array_sort_Permutation by_concentration (metals sample)) as Hp.
  fold sorted in Hp. split; [|split; [|split]].
  - rewrite take_drop. exact Hp.
  - reflexivity.
  - rewrite length_take, (Permutation_length Hp). reflexivity.
  - apply sorted_take_drop, Array_sort_sorted, Hn.
Qed.

Lemma key_pollutants_are_largest_witness :
  Forall non_negative
    (List.map snd (metals (CalculatorSpec.with_results None
                             Examples.doubled_sample)))
  /\ topPollutants (CalculatorSpec.with_results None Examples.doubled_sample)
     = ["Zn"; "Cu"].
Proof.
  assert (H : Forall non_negative
    (List.map snd (metals (CalculatorSpec.with_results None
                             Examples.doubled_sample)))).
  { repeat (constructor; [split; reflexivity|]). constructor. }
  split; [exact H|].
  destruct (key_pollutants_are_largest _ H) as (shown & others & _ & _ & _ & _).
  vm_compute. reflexivity.
Defined.

End TableFacts.

(** ** The summary of the HPI of an upload *)

Module SummaryFacts.

Import CalculationEngine Statistics UploadSpec SignSpec.
Import SignFacts OrderFacts StatisticsFacts IndexFacts UploadFacts.
Local Open Scope float_scope.

Lemma sum_non_negative values : forall acc,
  Forall non_negative values -> non_negative acc ->
  non_negative (fold_left (fun a b => a + b) values acc).
Proof.
  induction values as [|v rest IH]; intros acc Hall Hacc; [exact Hacc|].
  inversion Hall; subst. cbn [fold_left]. apply IH; [assumption|].
  apply add_non_negative; assumption.
Qed.

Lemma of_nat_positive n :
  (0 < n)%nat -> (Z.of_nat n < 2 ^ 53)%Z -> positive_finite (JS.of_nat n).
Proof.
  intros Hn Hlt.
  destruct (RoundingFacts.of_nat_exact n Hn Hlt) as (m & e & H & _).
  exists m, e. exact H.
Qed.

Lemma summary_non_negative values :
  values <> [] -> (Z.of_nat (length values) < 2 ^ 53)%Z ->
  Forall non_negative values ->
  non_negative (min_from PrimFloat.infinity values)
  /\ non_negative (max_from PrimFloat.neg_infinity values)
  /\ non_negative (fold_left (fun a b => a + b) values 0
                   / JS.of_nat (length values))
  /\ PrimFloat.leb (min_from PrimFloat.infinity values)
                   (max_from PrimFloat.neg_infinity values) = true.
Proof.
  intros Hne Hlen Hall.
  assert (Hnan : Forall (fun v => isNaN v = false) values).
  { rewrite List.Forall_forall in *. intros v Hv. apply Hall, Hv. }
  destruct (min_from_spec values PrimFloat.infinity eq_refl Hnan)
    as (_ & L2 & L3).
  destruct (max_from_spec values PrimFloat.neg_infinity eq_refl Hnan)
    as (_ & U2 & U3).
  destruct values as [|v0 rest]; [congruence|].
  assert (Lin : In (min_from PrimFloat.infinity (v0 :: rest)) (v0 :: rest)).
  { destruct L3 as [L3|L3]; [|exact L3]. rewrite L3 in *.
    inversion L2 as [|? ? Hv _]; subst. apply infinity_leb in Hv.
    left. exact Hv. }
  assert (Uin : In (max_from PrimFloat.neg_infinity (v0 :: rest)) (v0 :: rest)).
  { destruct U3 as [U3|U3]; [|exact U3]. rewrite U3 in *.
    inversion U2 as [|? ? Hv _]; subst. apply leb_neg_infinity in Hv.
    left. exact Hv. }
  rewrite List.Forall_forall in Hall, U2.
  split; [apply Hall, Lin|]. split; [apply Hall, Uin|]. split.
  - apply div_non_negative.
    + apply sum_non_negative; [apply List.Forall_forall, Hall|split; reflexivity].
    + apply of_nat_positive; [simpl; lia|exact Hlen].
  - apply U2, Lin.
Qed.

Section Engine.

Variable pow_approx : number -> number -> number.

Lemma hpiValues_calculated sel batch :
  hpiValues (performCalculations pow_approx sel batch)
  = List.map (fun s => if sel_hpi sel then calculateHPI (metals s) else 0) batch.
Proof.
  unfold hpiValues.
  rewrite PipelineFacts.processedSamples_all
    by apply PipelineFacts.performCalculations_results.
  unfold performCalculations.
  induction batch as [|s batch IH]; [reflexivity|].
  cbn [List.map]. rewrite <- IH. reflexivity.
Qed.

Lemma pliValues_calculated sel batch :
  pliValues (performCalculations pow_approx sel batch)
  = List.map (fun s => if sel_pli sel
                       then calculatePLI pow_approx (metals s) else 0) batch.
Proof.
  unfold pliValues.
  rewrite PipelineFacts.processedSamples_all
    by apply PipelineFacts.performCalculations_results.
  unfold performCalculations.
  induction batch as [|s batch IH]; [reflexivity|].
  cbn [List.map]. rewrite <- IH. reflexivity.
Qed.

Variable argument_limit : nat.

(** X24. The HPI summary of a calculated upload, where the engine takes
    [argument_limit] arguments in a call.  For the samples of an upload,
    calculated under any selection, as long as there is a sample (and fewer
    than 2^53 of them): when there are at most [argument_limit] samples the
    results page has its statistics, and the minimum, the maximum and the
    average of the HPI are numbers that are not NaN and not negative, the
    minimum not above the maximum; when there are more samples the
    statistics end in a RangeError.  (The PLI summary is NaN as soon as the
    PLI of one sample is.) *)
Theorem hpi_summary_is_numeric
    (clock : DataUpload.Clock) (sel : SelectedIndices)
    (data : list DataUpload.Row) :
  let batch := performCalculations pow_approx sel
                 (DataUpload.samples (DataUpload.validateData clock data)) in
  batch <> [] -> (Z.of_nat (length batch) < 2 ^ 53)%Z ->
  ((length batch <= argument_limit)%nat ->
   exists st : StatisticsData,
     statisticsData argument_limit batch = Some st
     /\ non_negative (min (of_hpi st))
     /\ non_negative (max (of_hpi st))
     /\ non_negative (avg (of_hpi st))
     /\ PrimFloat.leb (min (of_hpi st)) (max (of_hpi st)) = true)
  /\ ((argument_limit < length batch)%nat ->
      statisticsData argument_limit batch = None).
Proof.
  intros batch Hne Hlen. unfold statisticsData.
  unfold batch in *. rewrite hpiValues_calculated, pliValues_calculated.
  unfold performCalculations in Hne, Hlen |- *.
  rewrite List.length_map in Hlen |- *. split.
  - intros Hlim.
    rewrite !summary_within by (rewrite List.length_map; exact Hlim).
    eexists. split; [reflexivity|]. cbn [of_hpi min max avg].
    apply summary_non_negative.
    + intros E. apply Hne. apply List.map_eq_nil in E. rewrite E. reflexivity.
    + rewrite List.length_map. exact Hlen.
    + apply List.Forall_forall. intros v Hv. apply List.in_map_iff in Hv.
      destruct Hv as (s & <- & Hs). destruct (sel_hpi sel); [|split; reflexivity].
      destruct (accepted_panel clock data s Hs) as [Hk Hn].
      apply panel_indices_are_numbers; assumption.
  - intros Hlim.
    rewrite !summary_beyond by (rewrite List.length_map; exact Hlim).
    reflexivity.
Qed.

End Engine.

Lemma hpi_summary_is_numeric_witness :
  (performCalculations Examples.series_pow initial_selection
       (DataUpload.samples
          (DataUpload.validateData ValidatorSpec.morning
             [ValidatorSpec.valid_row; ValidatorSpec.arsenic_row "1e308"]))) <> []
  /\ (Z.of_nat (length
    (performCalculations Examples.series_pow initial_selection
       (DataUpload.samples
          (DataUpload.validateData ValidatorSpec.morning
             [ValidatorSpec.valid_row; ValidatorSpec.arsenic_row "1e308"])))) < 2 ^ 53)%Z
  /\ (exists st : StatisticsData,
        statisticsData 4096
          (performCalculations Examples.series_pow initial_selection
       (DataUpload.samples
          (DataUpload.validateData ValidatorSpec.morning
             [ValidatorSpec.valid_row; ValidatorSpec.arsenic_row "1e308"]))) = Some st
        /\ non_negative (min (of_hpi st))
        /\ non_negative (max (of_hpi st))
        /\ non_negative (avg (of_hpi st))
        /\ PrimFloat.leb (min (of_hpi st)) (max (of_hpi st)) = true)
  /\ (fun st => isNaN (min (of_pli st)))
       <$> statisticsData 4096
             (performCalculations Examples.series_pow initial_selection
       (DataUpload.samples
          (DataUpload.validateData ValidatorSpec.morning
             [ValidatorSpec.valid_row; ValidatorSpec.arsenic_row "1e308"]))) = Some true
  /\ statisticsData 1
       (performCalculations Examples.series_pow initial_selection
       (DataUpload.samples
          (DataUpload.validateData ValidatorSpec.morning
             [ValidatorSpec.valid_row; ValidatorSpec.arsenic_row "1e308"]))) = None.
Proof.
  assert (H1 : (performCalculations Examples.series_pow initial_selection
       (DataUpload.samples
          (DataUpload.validateData ValidatorSpec.morning
             [ValidatorSpec.valid_row; ValidatorSpec.arsenic_row "1e308"]))) <> [])
    by (vm_compute; discriminate).
  assert (H2 : (Z.of_nat (length
    (performCalculations Examples.series_pow initial_selection
       (DataUpload.samples
          (DataUpload.validateData ValidatorSpec.morning
             [ValidatorSpec.valid_row; ValidatorSpec.arsenic_row "1e308"])))) < 2 ^ 53)%Z) by (vm_compute; reflexivity).
  split; [exact H1|]. split; [exact H2|]. split; [|split].
  - apply (hpi_summary_is_numeric Examples.series_pow 4096
             ValidatorSpec.morning initial_selection
             [ValidatorSpec.valid_row; ValidatorSpec.arsenic_row "1e308"]
             H1 H2).
    apply Nat.leb_le. vm_compute. reflexivity.
  - vm_compute. reflexivity.
  - apply (hpi_summary_is_numeric Examples.series_pow 1
             ValidatorSpec.morning initial_selection
             [ValidatorSpec.valid_row; ValidatorSpec.arsenic_row "1e308"]
             H1 H2).
    apply Nat.leb_gt. vm_compute. reflexivity.
Defined.

End SummaryFacts.

(** ** The application over time *)

Module SessionFacts.

Import CalculationEngine CalculatorSpec ValidatorSpec UploadSpec Session.
Import ValidatorFacts UploadFacts PipelineFacts.

Section Engine.

Variable pow_approx : number -> number -> number.

Lemma uploaded_not_nil batch : uploaded batch -> batch <> [].
Proof.
  intros (clock & data & Hc & ->) E.
  pose proof (valid_upload_ids clock data (proj2 (isValid_iff clock data) Hc))
    as Hids.
  rewrite E in Hids. destruct Hc as (Hne & _). destruct data; [congruence|].
  discriminate.
Qed.

Lemma calculate_again sel sel' batch :
  performCalculations pow_approx sel (performCalculations pow_approx sel' batch)
  = performCalculations pow_approx sel batch.
Proof. unfold performCalculations. rewrite List.map_map. reflexivity. Qed.

Lemma deliver_all effects : forall d,
  (forall batch, In batch (UploadSession.delivered effects) ->
                 uploaded batch) ->
  (Dashboard.samples d = [] \/ uploaded (Dashboard.samples d)
   \/ calculated pow_approx (Dashboard.samples d)) ->
  (Dashboard.activeTab d = "calculate" -> Dashboard.samples d <> []) ->
  (Dashboard.samples (fold_left Dashboard.deliver effects d) = []
   \/ uploaded (Dashboard.samples (fold_left Dashboard.deliver effects d))
   \/ calculated pow_approx
        (Dashboard.samples (fold_left Dashboard.deliver effects d)))
  /\ (Dashboard.activeTab (fold_left Dashboard.deliver effects d) = "calculate" ->
      Dashboard.samples (fold_left Dashboard.deliver effects d) <> []).
Proof.
  induction effects as [|e effects IH]; intros d Hall Hs Ht; [split; assumption|].
  cbn [fold_left]. destruct e as [t|batch]; cbn [Dashboard.deliver].
  - apply IH; assumption.
  - assert (Hb : uploaded batch) by (apply Hall; left; reflexivity).
    apply IH.
    + intros b Hin. apply Hall. right. exact Hin.
    + right. left. exact Hb.
    + intros _. apply uploaded_not_nil, Hb.
Qed.

Lemma step_invariant app e :
  invariant pow_approx app -> invariant pow_approx (step pow_approx app e).
Proof.
  intros (Hup & Hs & Hp & Ht).
  destruct e as [e'| |tab|sel|k]; cbn [step].
  - destruct (preview_invariant_step (upload app) e' Hup) as [Hup' Hout].
    destruct (UploadSession.step (upload app) e') as [up effects].
    cbn [fst snd] in Hup', Hout.
    destruct (deliver_all effects (dashboard app)) as [Hs' Ht'];
      try assumption.
    { intros batch Hin. destruct (Hout batch Hin) as [-> Hne].
      destruct Hup as [E|Hup]; [congruence|exact Hup]. }
    repeat split; assumption.
  - repeat split; try assumption. left. reflexivity.
  - destruct (tab_disabled (dashboard app) tab) eqn:Ed;
      [repeat split; assumption|].
    repeat split; try assumption. cbn [dashboard Dashboard.activeTab
      Dashboard.samples]. intros E.
    destruct tab; try discriminate. cbn [tab_disabled] in Ed.
    unfold Dashboard.calculate_disabled in Ed. apply Nat.eqb_neq in Ed.
    intros E'. rewrite E' in Ed. apply Ed. reflexivity.
  - destruct (String.eqb_spec (Dashboard.activeTab (dashboard app)) "calculate")
      as [E|_]; [|repeat split; assumption].
    repeat split; try assumption. cbn [pending].
    apply Forall_app. split; [exact Hp|]. constructor; [|constructor].
    specialize (Ht E). destruct Hs as [Hs|[Hs|Hs]]; [congruence| |].
    + destruct Hs as (clock & data & Hc & ->). exists clock, data, sel.
      split; [exact Hc|reflexivity].
    + destruct Hs as (clock & data & sel' & Hc & ->). exists clock, data, sel.
      split; [exact Hc|apply calculate_again].
  - destruct (pending app !! k) as [batch|] eqn:Ek; [|repeat split; assumption].
    assert (Hb : calculated pow_approx batch).
    { rewrite Forall_lookup in Hp. exact (Hp k batch Ek). }
    repeat split; try assumption.
    + right. right. exact Hb.
    + cbn [pending]. apply Forall_delete, Hp.
    + cbn [dashboard Dashboard.handleCalculationComplete Dashboard.activeTab].
      discriminate.
Qed.

Lemma run_invariant events : forall app,
  invariant pow_approx app -> invariant pow_approx (run pow_approx events app).
Proof.
  induction events as [|e events IH]; intros app H; [exact H|].
  cbn [run fold_left]. apply IH, step_invariant, H.
Qed.

(** X25. Whatever happens in the application (events of the upload
    component, tabs clicked, calculations started and completed, in any
    order, a calculation that completes late included), whenever the
    Results tab is enabled the samples of the dashboard are the calculated
    samples of one clean upload: one sample per row of that upload, every
    one with results, so that the results page leaves none out. *)
Theorem results_show_a_whole_upload (events : list Event) :
  Dashboard.results_disabled (dashboard (run pow_approx events initial)) = false ->
  exists clock data sel,
    clean data
    /\ Dashboard.samples (dashboard (run pow_approx events initial))
       = performCalculations pow_approx sel
           (DataUpload.samples (DataUpload.validateData clock data))
    /\ ResultsVisualization.processedSamples
         (Dashboard.samples (dashboard (run pow_approx events initial)))
       = Dashboard.samples (dashboard (run pow_approx events initial))
    /\ length (Dashboard.samples (dashboard (run pow_approx events initial)))
       = length data.
Proof.
  intros Hen.
  assert (Hinit : invariant pow_approx initial).
  { split; [left; reflexivity|]. split; [left; reflexivity|].
    split; [constructor|discriminate]. }
  destruct (run_invariant events initial Hinit) as (_ & Hs & _ & _).
  set (samples := Dashboard.samples (dashboard (run pow_approx events initial)))
    in *.
  unfold Dashboard.results_disabled in Hen. fold samples in Hen.
  apply negb_false_iff in Hen.
  destruct Hs as [Hs|[Hs|Hs]].
  - rewrite Hs in Hen. discriminate.
  - destruct Hs as (clock & data & _ & Hs). rewrite Hs in Hen.
    rewrite accepted_without_results in Hen. discriminate.
  - destruct Hs as (clock & data & sel & Hc & Hs). exists clock, data, sel.
    split; [exact Hc|]. split; [exact Hs|]. rewrite Hs. split.
    + apply processedSamples_all, performCalculations_results.
    + unfold performCalculations. rewrite List.length_map.
      pose proof (valid_upload_ids clock data
                    (proj2 (isValid_iff clock data) Hc)) as Hids.
      apply (f_equal (@length _)) in Hids.
      rewrite !List.length_map, length_seq in Hids. exact Hids.
Qed.

End Engine.

Lemma results_show_a_whole_upload_witness :
  Dashboard.results_disabled
    (dashboard
       (run Examples.series_pow
          [on_upload (UploadSession.file_chosen true);
           on_upload (UploadSession.parse_complete morning [valid_row; valid_row]);
           on_upload UploadSession.confirm_clicked;
           calculate_clicked initial_selection;
           calculation_completed 0]
          initial)) = false
  /\ List.map id
       (Dashboard.samples
          (dashboard
             (run Examples.series_pow
                [on_upload (UploadSession.file_chosen true);
                 on_upload (UploadSession.parse_complete morning
                              [valid_row; valid_row]);
                 on_upload UploadSession.confirm_clicked;
                 calculate_clicked initial_selection;
                 calculation_completed 0]
                initial))) = ["sample_1"; "sample_2"].
Proof.
  assert (H : Dashboard.results_disabled
    (dashboard
       (run Examples.series_pow
          [on_upload (UploadSession.file_chosen true);
           on_upload (UploadSession.parse_complete morning [valid_row; valid_row]);
           on_upload UploadSession.confirm_clicked;
           calculate_clicked initial_selection;
           calculation_completed 0]
          initial)) = false) by (vm_compute; reflexivity).
  split; [exact H|].
  destruct (results_show_a_whole_upload Examples.series_pow _ H)
    as (clock & data & sel & _ & _ & _ & _).
  vm_compute. reflexivity.
Defined.

End SessionFacts.
